(** * The chat controller of the Loja extension (AIChatViewProvider)

    A shallow embedding of the conversation controller found in
    [src/src/extension.ts] and in [src/unnamed/part_000].  The two files hold
    the same class; they differ in the configuration prefix
    ([aiCodingChat.] against [loja.]), in the welcome step of
    [resolveWebviewView], and in the [else] branch of the [[selection]]
    marker.  The embedding is parameterised by a [Variant] that selects the
    file. *)

From Stdlib Require Import String Ascii.
From Stdlib Require Import NArith ZArith Bool Lia List.
Import ListNotations.
Local Open Scope N_scope.
Local Open Scope list_scope.

Set Warnings "-register-all".

(** ** JavaScript strings

    A JavaScript string is a sequence of UTF-16 code units; [length],
    [substring], [slice], [includes], [replace] and [trim] all work on code
    units.  A code unit is an [N]. *)

Module Js.

Definition jsstring := list N.

(** An ASCII literal of the source. *)
Definition lit (s : string) : jsstring :=
  map N_of_ascii (list_ascii_of_string s).

(** The escape [\n] of the source. *)
Definition NL : jsstring := [10].

(** Literals of the source that are not ASCII, as surrogate pairs. *)
Definition icon_memo : jsstring := [55357; 56541].      (* U+1F4DD *)
Definition icon_page : jsstring := [55357; 56516].      (* U+1F4C4 *)
Definition icon_folder : jsstring := [55357; 56513].    (* U+1F4C1 *)
Definition icon_wave : jsstring := [55357; 56395].      (* U+1F44B *)

Fixpoint eqb (a b : jsstring) : bool :=
  match a, b with
  | [], [] => true
  | x :: a', y :: b' => (x =? y) && eqb a' b'
  | _, _ => false
  end.

(** A string is falsy exactly when it is empty. *)
Definition truthy (s : jsstring) : bool :=
  match s with [] => false | _ => true end.

(** [a || b] on strings. *)
Definition orElse (a b : jsstring) : jsstring :=
  if truthy a then a else b.

(** [a || b] where [a] may be [undefined]. *)
Definition orDefault (a : option jsstring) (b : jsstring) : jsstring :=
  match a with
  | Some s => orElse s b
  | None => b
  end.

(** A template-literal hole [${x}] where [x] may be [undefined]. *)
Definition show (a : option jsstring) : jsstring :=
  match a with
  | Some s => s
  | None => lit "undefined"
  end.

(** [s.startsWith(p)] *)
Fixpoint startsWith (p s : jsstring) : bool :=
  match p, s with
  | [], _ => true
  | x :: p', y :: s' => (x =? y) && startsWith p' s'
  | _ :: _, [] => false
  end.

(** [s.indexOf(p)], [None] for [-1]. *)
Fixpoint indexOf (p s : jsstring) : option nat :=
  if startsWith p s then Some 0%nat
  else match s with
       | [] => None
       | _ :: s' => option_map S (indexOf p s')
       end.

(** [s.includes(p)] *)
Definition includes (p s : jsstring) : bool :=
  match indexOf p s with Some _ => true | None => false end.

(** [s.substring(0, n)] and [s.slice(0, n)] for a literal [n >= 0]. *)
Definition substring0 (n : nat) (s : jsstring) : jsstring := firstn n s.
Definition slice0 (n : nat) (s : jsstring) : jsstring := firstn n s.

(** The replacement patterns of [String.prototype.replace] when the pattern
    is a string (no captures): [$$], [$&], [$`] and [$'] are expanded, every
    other [$] stands for itself. *)
Fixpoint getSubstitution (matched before after tmpl : jsstring) : jsstring :=
  match tmpl with
  | [] => []
  | c :: rest =>
      if c =? 36 then
        match rest with
        | [] => [36]
        | d :: rest' =>
            if d =? 36 then 36 :: getSubstitution matched before after rest'
            else if d =? 38 then matched ++ getSubstitution matched before after rest'
            else if d =? 96 then before ++ getSubstitution matched before after rest'
            else if d =? 39 then after ++ getSubstitution matched before after rest'
            else 36 :: getSubstitution matched before after rest
        end
      else c :: getSubstitution matched before after rest
  end.

(** [s.replace(p, r)] with a string pattern: the first occurrence only. *)
Definition replace (p r s : jsstring) : jsstring :=
  match indexOf p s with
  | None => s
  | Some i =>
      let before := firstn i s in
      let after := skipn (i + length p) s in
      before ++ getSubstitution p before after r ++ after
  end.

(** WhiteSpace and LineTerminator code units: what [trim] strips and what
    [\s] matches. *)
Definition isSpace (c : N) : bool :=
  ((9 <=? c) && (c <=? 13)) || (c =? 32) || (c =? 160) || (c =? 5760)
  || ((8192 <=? c) && (c <=? 8202)) || (c =? 8232) || (c =? 8233)
  || (c =? 8239) || (c =? 8287) || (c =? 12288) || (c =? 65279).

Fixpoint dropWhile (f : N -> bool) (s : jsstring) : jsstring :=
  match s with
  | [] => []
  | c :: s' => if f c then dropWhile f s' else s
  end.

Fixpoint takeWhile (f : N -> bool) (s : jsstring) : jsstring :=
  match s with
  | [] => []
  | c :: s' => if f c then c :: takeWhile f s' else []
  end.

(** [s.trim()] *)
Definition trim (s : jsstring) : jsstring :=
  rev (dropWhile isSpace (rev (dropWhile isSpace s))).

(** [parts.join(sep)] *)
Fixpoint join (sep : jsstring) (parts : list jsstring) : jsstring :=
  match parts with
  | [] => []
  | [p] => p
  | p :: rest => p ++ sep ++ join sep rest
  end.

(** [s.split(/[\\/]/).pop()]: what follows the last slash or backslash. *)
Definition isSlash (c : N) : bool := (c =? 47) || (c =? 92).

Fixpoint lastSegment_aux (acc s : jsstring) : jsstring :=
  match s with
  | [] => acc
  | c :: s' => if isSlash c then lastSegment_aux [] s'
               else lastSegment_aux (acc ++ [c]) s'
  end.

Definition lastSegment (s : jsstring) : jsstring := lastSegment_aux [] s.

(** A number in a template-literal hole: decimal digits. *)
Fixpoint digits_aux (fuel : nat) (n : N) (acc : jsstring) : jsstring :=
  match fuel with
  | O => acc
  | S fuel' =>
      let acc' := (48 + n mod 10) :: acc in
      if n / 10 =? 0 then acc' else digits_aux fuel' (n / 10) acc'
  end.

Definition ofNumber (n : N) : jsstring :=
  digits_aux (S (N.to_nat (N.log2 n))) n [].

(** What a string becomes when it is written as UTF-8 and read back
    ([Buffer.from(s)] then [toString()]): a high surrogate followed by a low
    one is a character and is kept, any other surrogate comes back as
    U+FFFD. *)
Definition isHighSurrogate (c : N) : bool := (55296 <=? c) && (c <=? 56319).
Definition isLowSurrogate (c : N) : bool := (56320 <=? c) && (c <=? 57343).

Fixpoint toWellFormed (s : jsstring) : jsstring :=
  match s with
  | [] => []
  | c :: rest =>
      if isHighSurrogate c then
        match rest with
        | d :: rest' =>
            if isLowSurrogate d then c :: d :: toWellFormed rest'
            else 65533 :: toWellFormed rest
        | [] => [65533]
        end
      else if isLowSurrogate c then 65533 :: toWellFormed rest
      else c :: toWellFormed rest
  end.

End Js.

Import Js.

(** ** Data model *)

(** The [role] of an entry of [_messageHistory]. *)
Inductive Role := user | ai | error | loading | system.

Record Message := mkMessage { role : Role; content : jsstring }.

Definition Role_eqb (a b : Role) : bool :=
  match a, b with
  | user, user | ai, ai | error, error | loading, loading | system, system => true
  | _, _ => false
  end.

(** The predicate of [filter((msg) => msg.role !== 'loading')]. *)
Definition notLoading (m : Message) : bool := negb (Role_eqb (role m) loading).

(** A thrown [Error] object: its [name] and its [message]. *)
Record JsError := mkJsError { ename : jsstring; emessage : jsstring }.

(** [new Error(msg)] *)
Definition newError (msg : jsstring) : JsError :=
  {| ename := lit "Error"; emessage := msg |}.

(** The [TypeError] the engine raises. *)
Definition typeError (msg : jsstring) : JsError :=
  {| ename := lit "TypeError"; emessage := msg |}.

(** [err?.message || String(err)]; [String(err)] of an error without a
    message is its name. *)
Definition errText (e : JsError) : jsstring := orElse (emessage e) (ename e).

(** The result of a call: a value, or a thrown error. *)
Inductive Res (A : Type) : Type :=
| Ok (a : A)
| Throw (e : JsError).
Arguments Ok {A} a.
Arguments Throw {A} e.

(** A resolved reference, as pushed on [resolvedReferences].  A field the
    webview may leave out is an [option]. *)
Record ContextItem := mkItem {
  icon : jsstring;
  name : option jsstring;
  itemContent : option jsstring
}.

(** A context bubble of a [userMessage]. *)
Record Bubble := mkBubble {
  b_type : jsstring;
  b_path : option jsstring;
  b_icon : option jsstring;
  b_name : option jsstring;
  b_content : option jsstring
}.

(** [inlineRef.data] *)
Record RefData := mkRefData {
  d_icon : option jsstring;
  d_fileName : option jsstring;
  d_startLine : option N;
  d_endLine : option N;
  d_content : option jsstring
}.

Record InlineRef := mkInlineRef { reference : jsstring; data : RefData }.

(** The [userMessage] event. *)
Record UserMessage := mkUserMessage {
  text : jsstring;
  contextItems : option (list Bubble);
  inlineReferences : option (list InlineRef)
}.

(** ** Provider requests and responses *)

(** A value produced by [res.json()]. *)
Inductive Json :=
| JNull
| JBool (b : bool)
| JNum (n : Z)
| JStr (s : jsstring)
| JArr (items : list Json)
| JObj (fields : list (jsstring * Json)).

(** A JavaScript value reached from a parsed envelope: [None] is
    [undefined]. *)
Definition JsVal := option Json.

(** One element of [messages] (OpenAI, Grok, Claude) or of [contents]
    (Gemini, where [content] is the text of its single part). *)
Record ChatMsg := mkChatMsg { cm_role : jsstring; cm_content : jsstring }.

Inductive Body :=
| ChatBody (model : jsstring) (messages : list ChatMsg)
    (temperature_tenths : N) (stream : bool)
| ClaudeBody (model : jsstring) (max_tokens : N) (temperature_tenths : N)
    (messages : list ChatMsg)
| GeminiBody (contents : list ChatMsg) (temperature_tenths : N)
    (maxOutputTokens : N).

Record Request := mkRequest {
  url : jsstring;
  headers : list (jsstring * jsstring);
  body : Body
}.

(** What [fetch] resolves to: [ok], [text()] and [json()], which gives the
    parsed body or throws the error of the parser when the body does not
    parse. *)
Record Response := mkResponse {
  ok : bool;
  resText : jsstring;
  resJson : Res Json
}.

(** ** The editor host *)

Record Position := mkPosition { line : N; character : N }.

Definition Position_eqb (a b : Position) : bool :=
  (line a =? line b) && (character a =? character b).

Record Selection := mkSelection { sel_start : Position; sel_end : Position }.

Definition isEmpty (s : Selection) : bool :=
  Position_eqb (sel_start s) (sel_end s).

Record Document := mkDocument {
  fileName : jsstring;
  languageId : jsstring;
  getText : jsstring;
  lineCount : N;
  (** [vscode.workspace.getWorkspaceFolder(document.uri)?.name] *)
  folderName : option jsstring
}.

Record Editor := mkEditor {
  document : Document;
  selection : Selection;
  (** [document.getText(selection)] *)
  selectedText : jsstring
}.

Record Folder := mkFolder { folder_name : jsstring; fsPath : jsstring }.

(** What the controller reads from its surroundings and does not change
    itself. *)
Record Host := mkHost {
  activeTextEditor : option Editor;
  workspaceFolders : option (list Folder);
  (** a value the user has set in the configuration *)
  configuration : jsstring -> option jsstring;
  asRelativePath : jsstring -> jsstring;
  (** [require('path').resolve(root, p)] and [path.join(dir, file)] *)
  path_resolve : jsstring -> jsstring -> jsstring;
  path_join : jsstring -> jsstring -> jsstring;
  (** the error of reading a file that cannot be read, and of a refused
      write *)
  readError : jsstring -> JsError;
  writeError : jsstring -> option JsError;
  execSync : jsstring -> jsstring -> Res jsstring;
  readdirSync : jsstring -> Res (list jsstring);
  accessSync : jsstring -> bool;
  fetch : Request -> Res Response
}.

(** ** The controller's state

    [_view] and [_panel] tell whether the surface is live; what has been
    posted to each is kept, oldest first.  The file system is part of the
    state, with a log of the accesses made; a file is kept as the string that
    reading it gives. *)

Inductive Outbound :=
| history (h : list Message).

Inductive FsOp :=
| FsRead (path : jsstring)
| FsWrite (path : jsstring) (data : jsstring).

(** The [Range] of an edit: the selection, or the whole document given as
    [positionAt(0)] to [positionAt(len)]. *)
Inductive Range :=
| SelRange (s e : Position)
| WholeFile (len : nat).

(** [WorkspaceEdit.replace] followed by [applyEdit]: the range and the new
    text. *)
Record Edit := mkEdit { edit_range : Range; edit_text : jsstring }.

Record State := mkState {
  _view : bool;
  _panel : bool;
  _messageHistory : list Message;
  viewPosted : list Outbound;
  panelPosted : list Outbound;
  files : jsstring -> option jsstring;
  fsLog : list FsOp;
  fetched : list Request;
  applied : list Edit;
  (** the [undoHandler] closures registered so far, each with the edit it
      would apply *)
  undoHandlers : list Edit
}.

(** ** Handlers as state transformers that may throw *)

Definition M (A : Type) : Type := State -> Res A * State.

Definition ret {A} (a : A) : M A := fun st => (Ok a, st).

Definition throw {A} (e : JsError) : M A := fun st => (Throw e, st).

Definition bind {A B} (m : M A) (k : A -> M B) : M B :=
  fun st =>
    match m st with
    | (Ok a, st') => k a st'
    | (Throw e, st') => (Throw e, st')
    end.

(** [try { m } catch (err) { h err }] *)
Definition try_catch {A} (m : M A) (h : JsError -> M A) : M A :=
  fun st =>
    match m st with
    | (Ok a, st') => (Ok a, st')
    | (Throw e, st') => h e st'
    end.

(** The outcome of [m], reified. *)
Definition attempt {A} (m : M A) : M (Res A) :=
  fun st => let (r, st') := m st in (Ok r, st').

Definition liftRes {A} (r : Res A) : M A := fun st => (r, st).

Definition gets {A} (f : State -> A) : M A := fun st => (Ok (f st), st).

Definition modify (f : State -> State) : M unit := fun st => (Ok tt, f st).

Declare Scope js_scope.
Delimit Scope js_scope with js.
Notation "x <- m ;; k" := (bind m (fun x => k))
  (at level 61, m at next level, right associativity) : js_scope.
Notation "m ;;; k" := (bind m (fun _ => k))
  (at level 61, right associativity) : js_scope.
Local Open Scope js_scope.

(** Field updates of [State]. *)
Definition set_history (h : list Message) (st : State) : State :=
  mkState (_view st) (_panel st) h (viewPosted st) (panelPosted st)
          (files st) (fsLog st) (fetched st) (applied st) (undoHandlers st).

Definition post_view (o : Outbound) (st : State) : State :=
  mkState (_view st) (_panel st) (_messageHistory st) (viewPosted st ++ [o])
          (panelPosted st) (files st) (fsLog st) (fetched st) (applied st) (undoHandlers st).

Definition post_panel (o : Outbound) (st : State) : State :=
  mkState (_view st) (_panel st) (_messageHistory st) (viewPosted st)
          (panelPosted st ++ [o]) (files st) (fsLog st) (fetched st) (applied st) (undoHandlers st).

Definition log_fs (op : FsOp) (st : State) : State :=
  mkState (_view st) (_panel st) (_messageHistory st) (viewPosted st)
          (panelPosted st) (files st) (fsLog st ++ [op]) (fetched st) (applied st) (undoHandlers st).

Definition set_file (p data : jsstring) (st : State) : State :=
  mkState (_view st) (_panel st) (_messageHistory st) (viewPosted st)
          (panelPosted st)
          (fun q => if Js.eqb q p then Some data else files st q)
          (fsLog st) (fetched st) (applied st) (undoHandlers st).

Definition log_fetch (r : Request) (st : State) : State :=
  mkState (_view st) (_panel st) (_messageHistory st) (viewPosted st)
          (panelPosted st) (files st) (fsLog st) (fetched st ++ [r]) (applied st) (undoHandlers st).

Definition log_edit (e : Edit) (st : State) : State :=
  mkState (_view st) (_panel st) (_messageHistory st) (viewPosted st)
          (panelPosted st) (files st) (fsLog st) (fetched st) (applied st ++ [e]) (undoHandlers st).

Definition add_undoHandler (e : Edit) (st : State) : State :=
  mkState (_view st) (_panel st) (_messageHistory st) (viewPosted st)
          (panelPosted st) (files st) (fsLog st) (fetched st) (applied st)
          (undoHandlers st ++ [e]).

(** [this._messageHistory.push(m)] *)
Definition push (m : Message) : M unit :=
  modify (fun st => set_history (_messageHistory st ++ [m]) st).

(** ** Reading a parsed envelope *)

(** The last field named [k] of an object ([JSON.parse] keeps the last of
    duplicate keys). *)
Fixpoint field (k : jsstring) (fields : list (jsstring * Json)) : JsVal :=
  match fields with
  | [] => None
  | (k', v) :: rest =>
      match field k rest with
      | Some w => Some w
      | None => if Js.eqb k' k then Some v else None
      end
  end.

(** [v.k] for a value [v] that is neither [null] nor [undefined], and a
    name [k] the source reads ([choices], [candidates], [message],
    [content], [parts], [text]): none of them is a property of an array, a
    string, a number or a boolean. *)
Definition member (k : jsstring) (v : Json) : JsVal :=
  match v with
  | JObj fields => field k fields
  | _ => None
  end.

(** [v[0]] for a value [v] that is neither [null] nor [undefined]. *)
Definition index0 (v : Json) : JsVal :=
  match v with
  | JArr items => hd_error items
  | JStr (c :: _) => Some (JStr [c])
  | JObj fields => field (lit "0") fields
  | _ => None
  end.

(** [x?.k] and [x?.[0]] *)
Definition opt_member (k : jsstring) (x : JsVal) : JsVal :=
  match x with
  | None | Some JNull => None
  | Some v => member k v
  end.

Definition opt_index0 (x : JsVal) : JsVal :=
  match x with
  | None | Some JNull => None
  | Some v => index0 v
  end.

(** [data.k] where [data] is what [res.json()] gave: reading a property of
    [null] raises a [TypeError]. *)
Definition data_member (k : jsstring) (data : Json) : Res JsVal :=
  match data with
  | JNull =>
      Throw (typeError (lit "Cannot read properties of null (reading '"
                          ++ k ++ lit "')"))
  | v => Ok (member k v)
  end.

(** [x?.trim()]: [undefined] when [x] is [null] or [undefined], the trimmed
    string when [x] is a string; any other value has no callable [trim], and
    the call raises a [TypeError] that quotes the expression [callee] of the
    source. *)
Definition opt_trim (callee : jsstring) (x : JsVal) : Res (option jsstring) :=
  match x with
  | None | Some JNull => Ok None
  | Some (JStr s) => Ok (Some (trim s))
  | Some _ => Throw (typeError (callee ++ lit " is not a function"))
  end.

(** [x || '[No response]'] *)
Definition noResponse : jsstring := lit "[No response]".

Definition bindRes {A B} (r : Res A) (k : A -> Res B) : Res B :=
  match r with
  | Ok a => k a
  | Throw e => Throw e
  end.

(** [data.choices?.[0]?.message?.content?.trim() || '[No response]'] *)
Definition parseChoices (data : Json) : Res jsstring :=
  bindRes (data_member (lit "choices") data) (fun choices =>
  bindRes (opt_trim (lit "data.choices?.[0]?.message?.content?.trim")
                    (opt_member (lit "content")
                       (opt_member (lit "message") (opt_index0 choices))))
          (fun t => Ok (orDefault t noResponse))).

(** [data.content?.[0]?.text?.trim() || '[No response]'] *)
Definition parseClaude (data : Json) : Res jsstring :=
  bindRes (data_member (lit "content") data) (fun c =>
  bindRes (opt_trim (lit "data.content?.[0]?.text?.trim")
                    (opt_member (lit "text") (opt_index0 c)))
          (fun t => Ok (orDefault t noResponse))).

(** [data.candidates?.[0]?.content?.parts?.[0]?.text?.trim() || '[No response]'] *)
Definition parseGemini (data : Json) : Res jsstring :=
  bindRes (data_member (lit "candidates") data) (fun c =>
  bindRes (opt_trim (lit "data.candidates?.[0]?.content?.parts?.[0]?.text?.trim")
                    (opt_member (lit "text")
                       (opt_index0 (opt_member (lit "parts")
                          (opt_member (lit "content") (opt_index0 c))))))
          (fun t => Ok (orDefault t noResponse))).

(** ** [path.resolve] on POSIX

    Node's [path.resolve(root, p)]: arguments are taken from the right until
    an absolute one is met (the working directory comes last), empty ones
    are skipped, then [.] and [..] segments and repeated or trailing
    slashes are removed. *)

Module Posix.

Fixpoint split_aux (acc s : jsstring) : list jsstring :=
  match s with
  | [] => [acc]
  | c :: s' => if c =? 47 then acc :: split_aux [] s'
               else split_aux (acc ++ [c]) s'
  end.

Definition segments (s : jsstring) : list jsstring := split_aux [] s.

Definition normalize (segs : list jsstring) : list jsstring :=
  fold_left
    (fun acc seg =>
       if Js.eqb seg [] || Js.eqb seg (lit ".") then acc
       else if Js.eqb seg (lit "..") then removelast acc
       else acc ++ [seg])
    segs [].

Definition isAbsolute (p : jsstring) : bool := startsWith (lit "/") p.

Definition prepend (p acc : jsstring) : jsstring :=
  if truthy p then p ++ lit "/" ++ acc else acc.

Definition resolve (cwd root p : jsstring) : jsstring :=
  let joined :=
    if isAbsolute p then prepend p []
    else if isAbsolute root then prepend root (prepend p [])
    else prepend cwd (prepend root (prepend p [])) in
  lit "/" ++ join (lit "/") (normalize (segments joined)).

(** [path.join(dir, file)] for a non-empty absolute [dir]. *)
Definition pjoin (dir file : jsstring) : jsstring :=
  lit "/" ++ join (lit "/") (normalize (segments (dir ++ lit "/" ++ file))).

End Posix.

(** What it means for an absolute path to lie within a root directory: it
    is the root or continues it after a separator. *)
Definition withinRoot (root abs : jsstring) : bool :=
  Js.eqb abs root || startsWith (root ++ lit "/") abs.

(** ** The controller *)

(** Which of the two source files is embedded. *)
Inductive Variant :=
| AiCodingChat    (* src/src/extension.ts, configuration under aiCodingChat. *)
| Loja.           (* src/unnamed/part_000, configuration under loja. *)

Definition configPrefix (v : Variant) : jsstring :=
  match v with
  | AiCodingChat => lit "aiCodingChat."
  | Loja => lit "loja."
  end.

(** The four provider identifiers. *)
Inductive Provider := gpt | claude | grok | gemini.

Definition providerId (p : Provider) : jsstring :=
  match p with
  | gpt => lit "gpt"
  | claude => lit "claude"
  | grok => lit "grok"
  | gemini => lit "gemini"
  end.

(** The configuration key of a provider's credential, without the prefix. *)
Definition apiKeyName (p : Provider) : jsstring :=
  match p with
  | gpt => lit "gptApiKey"
  | claude => lit "claudeApiKey"
  | grok => lit "grokApiKey"
  | gemini => lit "geminiApiKey"
  end.

(** The name by which a provider's error messages call it. *)
Definition providerName (p : Provider) : jsstring :=
  match p with
  | gpt => lit "OpenAI"
  | claude => lit "Claude"
  | grok => lit "Grok"
  | gemini => lit "Gemini"
  end.

Definition fence : jsstring := lit "```".

(** The replacement of [[selection]] when nothing is selected
    (part_000 only). *)
Definition noSelectionText : jsstring :=
  lit "**No selection found** - Please select some text first, or use the "
  ++ [34] ++ lit "Add Selection to Chat" ++ [34]
  ++ lit " command from the right-click menu.".

(** The placeholder a turn appends while its call is pending. *)
Definition thinking : Message := mkMessage loading (lit "Thinking...").

Section Controller.

Variable variant : Variant.
Variable host : Host.

(** [config.get<string>(key, dflt)] *)
Definition config_get (key dflt : jsstring) : jsstring :=
  match configuration host (configPrefix variant ++ key) with
  | Some s => s
  | None => dflt
  end.

(** [_postMessageHistory]: the payload is serialised when it is posted, so
    the surface receives the history as it is at that moment. *)
Definition _postMessageHistory : M unit :=
  modify (fun st =>
    if _view st then post_view (history (_messageHistory st)) st else st).

Definition _postMessageHistoryToPanel : M unit :=
  modify (fun st =>
    if _panel st then post_panel (history (_messageHistory st)) st else st).

(** [(await vscode.workspace.fs.readFile(vscode.Uri.file(p))).toString()] *)
Definition readFile (p : jsstring) : M jsstring :=
  fun st =>
    let st' := log_fs (FsRead p) st in
    match files st p with
    | Some data => (Ok data, st')
    | None => (Throw (readError host p), st')
    end.

(** [await vscode.workspace.fs.writeFile(vscode.Uri.file(p), Buffer.from(data))]:
    the file holds the UTF-8 bytes of [data], so that what is read back from
    it is [toWellFormed data]. *)
Definition writeFile (p data : jsstring) : M unit :=
  fun st =>
    let st' := log_fs (FsWrite p data) st in
    match writeError host p with
    | Some e => (Throw e, st')
    | None => (Ok tt, set_file p (toWellFormed data) st')
    end.

(** [await fetch(url, {...})] *)
Definition doFetch (r : Request) : M Response :=
  fun st => (fetch host r, log_fetch r st).

(** [await res.json()] *)
Definition resJsonM (res : Response) : M Json := liftRes (resJson res).

(** The first workspace folder, when [workspaceFolders] is defined and not
    empty. *)
Definition firstFolder : option Folder :=
  match workspaceFolders host with
  | Some (f :: _) => Some f
  | _ => None
  end.

Definition lineRange (startLine endLine : N) : jsstring :=
  ofNumber startLine ++ lit "-" ++ ofNumber endLine.

(** [_getCurrentSelection]; the fields [type] and [fullName] of the
    returned object are read by nothing and left out. *)
Definition _getCurrentSelection : option ContextItem :=
  match activeTextEditor host with
  | None => None
  | Some editor =>
      if isEmpty (selection editor) then None
      else
        let baseName := orElse (lastSegment (fileName (document editor)))
                               (lit "unknown") in
        let startLine := line (sel_start (selection editor)) + 1 in
        let endLine := line (sel_end (selection editor)) + 1 in
        Some {| icon := icon_memo;
                name := Some (baseName ++ lit ":" ++ lineRange startLine endLine);
                itemContent := Some (selectedText editor) |}
  end.

(** [_getCurrentFile] *)
Definition _getCurrentFile : option ContextItem :=
  match activeTextEditor host with
  | None => None
  | Some editor =>
      let baseName := orElse (lastSegment (fileName (document editor)))
                             (lit "unknown") in
      Some {| icon := icon_page;
              name := Some baseName;
              itemContent := Some (getText (document editor)) |}
  end.

Definition findCommand (n : N) : jsstring :=
  lit "find . -type f -name " ++ [34] ++ lit "*.ts" ++ [34]
  ++ lit " -o -name " ++ [34] ++ lit "*.js" ++ [34]
  ++ lit " -o -name " ++ [34] ++ lit "*.json" ++ [34]
  ++ lit " -o -name " ++ [34] ++ lit "*.md" ++ [34]
  ++ lit " | head -" ++ ofNumber n.

(** The listing of the workspace: [execSync], and [readdirSync] when that
    throws. *)
Definition workspaceStructure (n : N) (workspacePath : jsstring) : Res jsstring :=
  match execSync host (findCommand n) workspacePath with
  | Ok out => Ok out
  | Throw _ =>
      match readdirSync host workspacePath with
      | Ok names => Ok (join NL (firstn (N.to_nat n) names))
      | Throw e => Throw e
      end
  end.

Definition existingFiles (workspacePath : jsstring) (projectFiles : list jsstring)
  : list jsstring :=
  filter (fun file => accessSync host (path_join host workspacePath file))
         projectFiles.

(** [_getWorkspaceInfo] *)
Definition _getWorkspaceInfo : option ContextItem :=
  match firstFolder with
  | None => None
  | Some workspaceFolder =>
      let workspaceName := folder_name workspaceFolder in
      let workspacePath := fsPath workspaceFolder in
      match workspaceStructure 10 workspacePath with
      | Throw _ => None
      | Ok structure =>
          let found := existingFiles workspacePath
                         [lit "package.json"; lit "tsconfig.json"; lit "README.md"] in
          let contextContent :=
            join NL [ lit "**Workspace: " ++ workspaceName ++ lit "**";
                      lit "Path: " ++ workspacePath;
                      lit "Project files: " ++ join (lit ", ") found;
                      [];
                      lit "**Structure:**";
                      trim structure ] in
          Some {| icon := icon_folder;
                  name := Some workspaceName;
                  itemContent := Some contextContent |}
      end
  end.

(** [_handleAddFileToContext]; the field [path] of the returned object is
    read by nothing and left out. *)
Definition _handleAddFileToContext (filePath : jsstring) : M (option ContextItem) :=
  try_catch
    (content <- readFile filePath ;;
     let baseName := orElse (lastSegment filePath) (lit "unknown") in
     ret (Some {| icon := icon_page;
                  name := Some baseName;
                  itemContent :=
                    Some (if (2000 <? length content)%nat
                          then substring0 2000 content ++ NL ++ lit "... (truncated)"
                          else content) |}))
    (fun _ => ret None).

(** [_handleReadFile] *)
Definition _handleReadFile (filePath : jsstring) : M jsstring :=
  match firstFolder with
  | None => ret (lit "No workspace folder open.")
  | Some f =>
      let root := fsPath f in
      let absPath := path_resolve host root filePath in
      if negb (startsWith root absPath)
      then ret (lit "Error: Can only read files within the workspace.")
      else
        try_catch
          (content <- readFile absPath ;;
           if (4000 <? length content)%nat
           then ret (lit "File is too large to display in chat (showing first 4000 chars):"
                       ++ NL ++ slice0 4000 content)
           else ret (fence ++ NL ++ content ++ NL ++ fence))
          (fun err => ret (lit "Error reading file: " ++ errText err))
  end.

(** [_handleEditFile] *)
Definition _handleEditFile (filePath newContent : jsstring) : M jsstring :=
  match firstFolder with
  | None => ret (lit "No workspace folder open.")
  | Some f =>
      let root := fsPath f in
      let absPath := path_resolve host root filePath in
      if negb (startsWith root absPath)
      then ret (lit "Error: Can only edit files within the workspace.")
      else
        try_catch
          (writeFile absPath newContent ;;;
           ret (lit "File " ++ filePath ++ lit " updated successfully."))
          (fun err => ret (lit "Error editing file: " ++ errText err))
  end.

(** [_getWorkspaceContext] *)
Definition _getWorkspaceContext : option jsstring :=
  match activeTextEditor host with
  | None => None
  | Some editor =>
      let doc := document editor in
      let baseName := lastSegment (fileName doc) in
      let relativePath := asRelativePath host (fileName doc) in
      let workspaceName :=
        match folderName doc with
        | Some n => n
        | None => lit "Unknown"
        end in
      let selectionInfo :=
        if negb (isEmpty (selection editor))
        then NL ++ lit "- Selected lines: "
                ++ lineRange (line (sel_start (selection editor)) + 1)
                             (line (sel_end (selection editor)) + 1)
        else [] in
      Some (join NL [ lit "**Current Context:**";
                      lit "- Workspace: " ++ workspaceName;
                      lit "- Current file: `" ++ baseName ++ lit "`";
                      lit "- File path: `" ++ relativePath ++ lit "`";
                      lit "- Language: " ++ languageId doc ++ selectionInfo;
                      [] ])
  end.

(** The earlier [user] and [ai] turns, in the provider's role vocabulary. *)
Definition priorTurns (assistant : jsstring) (h : list Message) : list ChatMsg :=
  map (fun m => mkChatMsg (if Role_eqb (role m) user then lit "user" else assistant)
                          (content m))
      (filter (fun m => Role_eqb (role m) user || Role_eqb (role m) ai) h).

Definition missingKey (p : Provider) : JsError :=
  newError (lit "No " ++ providerName p
              ++ lit " API key set. Please add it in the extension settings.").

(** The common tail of the four provider calls: send, fail on a result that
    is not [ok], parse. *)
Definition exchange (p : Provider) (req : Request) (parse : Json -> Res jsstring)
  : M jsstring :=
  res <- doFetch req ;;
  if negb (ok res)
  then throw (newError (providerName p ++ lit " API error: " ++ resText res))
  else data <- resJsonM res ;; liftRes (parse data).

Definition jsonHeader : jsstring * jsstring :=
  (lit "Content-Type", lit "application/json").

(** [_callOpenAIGPT] *)
Definition _callOpenAIGPT (userText : jsstring) : M jsstring :=
  let apiKey := config_get (apiKeyName gpt) [] in
  if negb (truthy apiKey) then throw (missingKey gpt)
  else
    h <- gets _messageHistory ;;
    exchange gpt
      {| url := lit "https://api.openai.com/v1/chat/completions";
         headers := [jsonHeader; (lit "Authorization", lit "Bearer " ++ apiKey)];
         body := ChatBody (lit "gpt-3.5-turbo")
                   (priorTurns (lit "assistant") h ++ [mkChatMsg (lit "user") userText])
                   7 false |}
      parseChoices.

(** [_callClaudeStub] *)
Definition _callClaudeStub (userText : jsstring) : M jsstring :=
  let apiKey := config_get (apiKeyName claude) [] in
  if negb (truthy apiKey) then throw (missingKey claude)
  else
    exchange claude
      {| url := lit "https://api.anthropic.com/v1/messages";
         headers := [jsonHeader; (lit "x-api-key", apiKey);
                     (lit "anthropic-version", lit "2023-06-01")];
         body := ClaudeBody (lit "claude-3-opus-20240229") 1024 7
                   [mkChatMsg (lit "user") userText] |}
      parseClaude.

(** [_callGrokStub] *)
Definition _callGrokStub (userText : jsstring) : M jsstring :=
  let apiKey := config_get (apiKeyName grok) [] in
  if negb (truthy apiKey) then throw (missingKey grok)
  else
    h <- gets _messageHistory ;;
    exchange grok
      {| url := lit "https://api.grok.x.ai/v1/chat/completions";
         headers := [jsonHeader; (lit "Authorization", lit "Bearer " ++ apiKey)];
         body := ChatBody (lit "grok-1")
                   (priorTurns (lit "assistant") h ++ [mkChatMsg (lit "user") userText])
                   7 false |}
      parseChoices.

(** [_callGeminiStub] *)
Definition _callGeminiStub (userText : jsstring) : M jsstring :=
  let apiKey := config_get (apiKeyName gemini) [] in
  if negb (truthy apiKey) then throw (missingKey gemini)
  else
    h <- gets _messageHistory ;;
    exchange gemini
      {| url := lit "https://generativelanguage.googleapis.com/v1beta/models/gemini-pro:generateContent?key="
                  ++ apiKey;
         headers := [jsonHeader];
         body := GeminiBody
                   (priorTurns (lit "model") h ++ [mkChatMsg (lit "user") userText])
                   7 1024 |}
      parseGemini.

(** The match of the regular expression of [/edit] (anchored at both ends:
    the word, [\s+], a group of [[^\s]+], [\s+], and a group taking
    everything left): after [/edit], a run
    of white space, a run of other characters (the path), a run of white
    space, and the rest (the content).  Each of the first three runs is not
    empty and, the quantifiers being greedy, as long as it can be; no
    shorter choice leads to a match. *)
Definition matchEdit (userText : jsstring) : option (jsstring * jsstring) :=
  if startsWith (lit "/edit") userText then
    let r0 := skipn 5 userText in
    let r1 := dropWhile isSpace r0 in
    let path := takeWhile (fun c => negb (isSpace c)) r1 in
    let r2 := dropWhile (fun c => negb (isSpace c)) r1 in
    let r3 := dropWhile isSpace r2 in
    if (length r1 <? length r0)%nat && truthy path && (length r3 <? length r2)%nat
    then Some (path, r3)
    else None
  else None.

(** [_callAI], the dispatcher. *)
Definition _callAI (userText : jsstring) (includeContext : bool) : M jsstring :=
  if startsWith (lit "/read ") userText then
    _handleReadFile (trim (replace (lit "/read ") [] userText))
  else if startsWith (lit "/edit ") userText then
    match matchEdit userText with
    | None => ret (lit "Usage: /edit <file> <new content>")
    | Some (filePath, newContent) => _handleEditFile filePath newContent
    end
  else
    let enhancedUserText :=
      if includeContext then
        match _getWorkspaceContext with
        | Some contextInfo =>
            contextInfo ++ NL ++ NL ++ lit "**User Question:**" ++ NL ++ userText
        | None => userText
        end
      else userText in
    let provider := config_get (lit "activeProvider") (lit "gpt") in
    if Js.eqb provider (lit "gpt") then _callOpenAIGPT enhancedUserText
    else if Js.eqb provider (lit "claude") then _callClaudeStub enhancedUserText
    else if Js.eqb provider (lit "grok") then _callGrokStub enhancedUserText
    else if Js.eqb provider (lit "gemini") then _callGeminiStub userText
    else throw (newError (lit "Unknown provider: " ++ provider)).

(** *** [_handleUserMessage] *)

(** [`**${icon} ${name}**`] *)
Definition label (i n : jsstring) : jsstring :=
  lit "**" ++ i ++ lit " " ++ n ++ lit "**".

(** What resolution carries along: [fullMessage] and
    [resolvedReferences]. *)
Definition Resolution : Type := jsstring * list ContextItem.

(** A marker whose source resolves is pushed and its first occurrence is
    replaced by the label; [otherwise] says what a miss does to
    [fullMessage]. *)
Definition resolveMarker (marker : jsstring) (source : option ContextItem)
    (otherwise : jsstring -> jsstring) (r : Resolution) : Resolution :=
  let (fullMessage, resolvedReferences) := r in
  if includes marker fullMessage then
    match source with
    | Some ctx =>
        (replace marker (label (icon ctx) (show (name ctx))) fullMessage,
         resolvedReferences ++ [ctx])
    | None => (otherwise fullMessage, resolvedReferences)
    end
  else r.

(** The [else] branch of the [[selection]] marker: present in part_000,
    absent from src/src/extension.ts. *)
Definition selectionMiss (fullMessage : jsstring) : jsstring :=
  match variant with
  | Loja => replace (lit "[selection]") noSelectionText fullMessage
  | AiCodingChat => fullMessage
  end.

Definition resolveMarkers (r : Resolution) : Resolution :=
  resolveMarker (lit "[workspace]") _getWorkspaceInfo (fun m => m)
    (resolveMarker (lit "[file]") _getCurrentFile (fun m => m)
       (resolveMarker (lit "[selection]") _getCurrentSelection selectionMiss r)).

(** The loop over [message.contextItems]. *)
Fixpoint resolveBubbles (items : list Bubble) (refs : list ContextItem)
  : M (list ContextItem) :=
  match items with
  | [] => ret refs
  | item :: rest =>
      if Js.eqb (b_type item) (lit "file") && truthy (orDefault (b_path item) [])
      then
        fileContext <- _handleAddFileToContext (orDefault (b_path item) []) ;;
        match fileContext with
        | Some ctx => resolveBubbles rest (refs ++ [ctx])
        | None => resolveBubbles rest refs
        end
      else if Js.eqb (b_type item) (lit "selection")
      then resolveBubbles rest
             (refs ++ [ {| icon := orDefault (b_icon item) icon_memo;
                           name := b_name item;
                           itemContent := b_content item |} ])
      else resolveBubbles rest refs
  end.

(** [`${refData.fileName}:${refData.startLine}-${refData.endLine}`] *)
Definition refName (d : RefData) : jsstring :=
  show (d_fileName d) ++ lit ":" ++ show (option_map ofNumber (d_startLine d))
  ++ lit "-" ++ show (option_map ofNumber (d_endLine d)).

(** The loop over [message.inlineReferences]. *)
Fixpoint resolveInline (refs : list InlineRef) (r : Resolution) : Resolution :=
  match refs with
  | [] => r
  | inlineRef :: rest =>
      let (fullMessage, resolvedReferences) := r in
      let refData := data inlineRef in
      resolveInline rest
        (replace (reference inlineRef)
                 (label (show (d_icon refData)) (refName refData))
                 fullMessage,
         resolvedReferences
           ++ [ {| icon := orDefault (d_icon refData) icon_memo;
                   name := Some (refName refData);
                   itemContent := d_content refData |} ])
  end.

Definition orNil {A} (l : option (list A)) : list A :=
  match l with Some x => x | None => [] end.

(** One entry of the context section. *)
Definition contextEntry (item : ContextItem) : jsstring :=
  lit "**" ++ icon item ++ lit " " ++ show (name item) ++ lit ":**" ++ NL
  ++ fence ++ NL ++ show (itemContent item) ++ NL ++ fence.

(** "Build final message with all context" *)
Definition finalMessage (message : UserMessage) (r : Resolution) : jsstring :=
  let (fullMessage, resolvedReferences) := r in
  match resolvedReferences with
  | [] => fullMessage
  | _ =>
      let contextContent := join (NL ++ NL) (map contextEntry resolvedReferences) in
      lit "**Context:**" ++ NL ++ contextContent ++ NL ++ NL
      ++ lit "**Question:**" ++ NL ++ text message
  end.

(** The whole of the resolution: markers, bubbles, inline references. *)
Definition resolve (message : UserMessage) : M Resolution :=
  let (fullMessage, refs) := resolveMarkers (text message, []) in
  refs' <- resolveBubbles (orNil (contextItems message)) refs ;;
  ret (resolveInline (orNil (inlineReferences message)) (fullMessage, refs')).

(** From the start of the handler to the call of [_callAI]: the message is
    resolved, the [user] entry and the [loading] entry are appended, each
    followed by a post to both surfaces. *)
Definition beginTurn (message : UserMessage) : M jsstring :=
  r <- resolve message ;;
  let fullMessage := finalMessage message r in
  push (mkMessage user fullMessage) ;;;
  _postMessageHistory ;;;
  _postMessageHistoryToPanel ;;;
  push thinking ;;;
  _postMessageHistory ;;;
  _postMessageHistoryToPanel ;;;
  ret fullMessage.

(** The entry a settled call leaves: the reply, or the caught error. *)
Definition terminalEntry (outcome : Res jsstring) : Message :=
  match outcome with
  | Ok aiResponse => mkMessage ai aiResponse
  | Throw err => mkMessage error (lit "Error: " ++ emessage err)
  end.

(** What follows the call, in the [try] as in the [catch]: the [loading]
    entries are filtered out, the terminal entry is appended, and the history
    is posted to both surfaces. *)
Definition settleTurn (outcome : Res jsstring) : M unit :=
  modify (fun st => set_history (filter notLoading (_messageHistory st)) st) ;;;
  push (terminalEntry outcome) ;;;
  _postMessageHistory ;;;
  _postMessageHistoryToPanel.

Definition _handleUserMessage (message : UserMessage) : M unit :=
  fullMessage <- beginTurn message ;;
  outcome <- attempt (_callAI fullMessage false) ;;
  settleTurn outcome.

(** *** Commands that do not go through a provider *)

(** [String(error)] *)
Definition errToString (e : JsError) : jsstring :=
  if truthy (ename e)
  then (if truthy (emessage e) then ename e ++ lit ": " ++ emessage e else ename e)
  else emessage e.

Definition notice (c : jsstring) : M unit :=
  push (mkMessage system c) ;;; _postMessageHistory.

Definition workspaceNameOf (doc : Document) : jsstring :=
  match folderName doc with
  | Some n => n
  | None => lit "Unknown"
  end.

(** [_handleSendCurrentFile] *)
Definition _handleSendCurrentFile : M unit :=
  match activeTextEditor host with
  | None => notice (lit "No file is currently open.")
  | Some editor =>
      let doc := document editor in
      let contextInfo :=
        join NL [ lit "**File Context:**";
                  lit "- File: `" ++ lastSegment (fileName doc) ++ lit "`";
                  lit "- Path: `" ++ asRelativePath host (fileName doc) ++ lit "`";
                  lit "- Language: " ++ languageId doc;
                  lit "- Lines: " ++ ofNumber (lineCount doc);
                  lit "- Workspace: " ++ workspaceNameOf doc;
                  [];
                  lit "**File Content:**" ] in
      push (mkMessage user
              (contextInfo ++ NL ++ NL ++ fence ++ languageId doc ++ NL
               ++ getText doc ++ fence)) ;;;
      _postMessageHistory
  end.

(** [_handleSendSelection] *)
Definition _handleSendSelection : M unit :=
  match activeTextEditor host with
  | None => notice (lit "No file is currently open.")
  | Some editor =>
      if negb (truthy (selectedText editor))
      then notice (lit "No text is selected.")
      else
        let doc := document editor in
        let sel := selection editor in
        let contextInfo :=
          join NL [ lit "**Selection Context:**";
                    lit "- File: `" ++ lastSegment (fileName doc) ++ lit "`";
                    lit "- Path: `" ++ asRelativePath host (fileName doc) ++ lit "`";
                    lit "- Language: " ++ languageId doc;
                    lit "- Lines: "
                      ++ lineRange (line (sel_start sel) + 1) (line (sel_end sel) + 1);
                    lit "- Characters: "
                      ++ lineRange (character (sel_start sel)) (character (sel_end sel));
                    lit "- Workspace: " ++ workspaceNameOf doc;
                    [];
                    lit "**Selected Content:**" ] in
        push (mkMessage user
                (contextInfo ++ NL ++ NL ++ fence ++ languageId doc ++ NL
                 ++ selectedText editor ++ fence)) ;;;
        _postMessageHistory
  end.

(** [_handleSendWorkspaceInfo] *)
Definition _handleSendWorkspaceInfo : M unit :=
  match firstFolder with
  | None => notice (lit "No workspace folder is open.")
  | Some workspaceFolder =>
      let workspacePath := fsPath workspaceFolder in
      match workspaceStructure 20 workspacePath with
      | Throw e =>
          notice (lit "Could not read workspace structure: " ++ errToString e)
      | Ok structure =>
          let found := existingFiles workspacePath
                         [lit "package.json"; lit "tsconfig.json"; lit "README.md";
                          lit ".gitignore"] in
          push (mkMessage user
                  (join NL [ lit "**Workspace Information:**";
                             lit "- Name: " ++ folder_name workspaceFolder;
                             lit "- Path: `" ++ workspacePath ++ lit "`";
                             lit "- Project files found: " ++ join (lit ", ") found;
                             [];
                             lit "**Directory Structure (sample):**";
                             fence;
                             trim structure;
                             fence ])) ;;;
          _postMessageHistory
      end
  end.

(** The button the user picks in [_showPreviewAndApply]; [None] when the
    notification is dismissed. *)
Inductive Choice := ShowDiff | Apply | Cancel.

(** [_showDiff], as far as the controller's state goes: the current content
    is read when the path passes the check; the two documents and the diff
    view are the editor's. *)
Definition _showDiff (filePath : jsstring) : M unit :=
  match firstFolder with
  | None => ret tt
  | Some f =>
      let absPath := path_resolve host (fsPath f) filePath in
      if negb (startsWith (fsPath f) absPath) then ret tt
      else try_catch (readFile absPath ;;; ret tt) (fun _ => ret tt)
  end.

(** [_showPreviewAndApply] once the user has answered. *)
Definition _showPreviewAndApply (filePath newContent : jsstring)
    (choice : option Choice) : M unit :=
  match choice with
  | Some ShowDiff => _showDiff filePath
  | Some Apply =>
      result <- _handleEditFile filePath newContent ;;
      push (mkMessage system result) ;;;
      _postMessageHistory
  | _ => ret tt
  end.

(** [_handleApplyInline]: the edit goes to the editor; the closure of
    [undoHandler], with the range and the old text, is registered on the
    side panel when there is one. *)
Definition _handleApplyInline (target : option jsstring) (codeBlock : jsstring)
  : M unit :=
  match activeTextEditor host with
  | None => notice (lit "No file is currently open.")
  | Some editor =>
      let onSelection :=
        match target with
        | Some t => Js.eqb t (lit "selection")
        | None => false
        end in
      let sel := selection editor in
      let '(range, oldText) :=
        if onSelection && negb (isEmpty sel)
        then (SelRange (sel_start sel) (sel_end sel), selectedText editor)
        else (WholeFile (length (getText (document editor))),
              getText (document editor)) in
      modify (log_edit (mkEdit range codeBlock)) ;;;
      push (mkMessage system
              (lit "Applied suggestion to "
               ++ (if onSelection then lit "selection" else lit "entire file")
               ++ lit ". [Undo]")) ;;;
      _postMessageHistory ;;;
      modify (fun st =>
        if _view st then add_undoHandler (mkEdit range oldText) st else st)
  end.

(** The welcome step of [resolveWebviewView]: src/src/extension.ts appends
    a [system] entry and posts the history; part_000 shows a notification
    and leaves the history alone. *)
Definition welcomeText : jsstring :=
  icon_wave
  ++ lit " Welcome! Type @ to add files, right-click code to add selections, or ask anything directly.".

Definition resolveWebviewView : M unit :=
  modify (fun st =>
    mkState true (_panel st) (_messageHistory st) (viewPosted st)
            (panelPosted st) (files st) (fsLog st) (fetched st) (applied st)
            (undoHandlers st)) ;;;
  match variant with
  | AiCodingChat => push (mkMessage system welcomeText) ;;; _postMessageHistory
  | Loja => ret tt
  end.

(** [openChatPanel] when no panel is open: the panel is created and the
    history is posted to it, twice. *)
Definition openChatPanel : M unit :=
  st <- gets (fun st => st) ;;
  if _panel st then ret tt
  else
    modify (fun st =>
      mkState (_view st) true (_messageHistory st) (viewPosted st)
              (panelPosted st) (files st) (fsLog st) (fetched st) (applied st)
              (undoHandlers st)) ;;;
    _postMessageHistoryToPanel ;;;
    _postMessageHistoryToPanel.

End Controller.

(** ** Running a handler *)

Definition result {A} (m : M A) (st : State) : Res A := fst (m st).
Definition after {A} (m : M A) (st : State) : State := snd (m st).

(** What the surfaces see and what they have been sent. *)
Definition sameSurfaces (a b : State) : Prop :=
  _view a = _view b /\ _panel a = _panel b
  /\ _messageHistory a = _messageHistory b
  /\ viewPosted a = viewPosted b /\ panelPosted a = panelPosted b.

(** ** The history invariant *)

Definition isLoading (m : Message) : bool := Role_eqb (role m) loading.

(** Two [loading] entries next to each other. *)
Fixpoint adjacentLoading (h : list Message) : bool :=
  match h with
  | [] => false
  | a :: t =>
      match t with
      | [] => false
      | b :: _ => (isLoading a && isLoading b) || adjacentLoading t
      end
  end.

Definition noLoading (h : list Message) : bool := forallb notLoading h.

(** The histories among the payloads posted to a surface. *)
Definition postedHistories (posted : list Outbound) : list (list Message) :=
  map (fun o => match o with history h => h end) posted.

(** ** The undo listener

    [_handleApplyInline] registers [undoHandler] on the side panel, next to
    the listener of [resolveWebviewView].  On a [userMessage] whose trimmed
    text is [undo] in any letter case, it puts the old text back and, once
    that edit is applied, appends a notice and posts the history to the side
    panel.  The state keeps every closure registered and the events below let
    any of them run at any later time, whatever the handler's last call,
    [onDidReceiveMessage(undefined)], does to the listeners. *)

(** [await vscode.workspace.applyEdit(undoEdit)] *)
Definition undoEdit (e : Edit) : M unit := modify (log_edit e).

(** What follows the edit. *)
Definition undoNotice : M unit :=
  push (mkMessage system (lit "Undo applied.")) ;;; _postMessageHistory.

(** [undoHandler], for the closure that holds the range and the old text of
    [e]; [toLowerCase] is the engine's. *)
Definition undoHandler (toLowerCase : jsstring -> jsstring) (e : Edit)
    (message : UserMessage) : M unit :=
  if Js.eqb (toLowerCase (trim (text message))) (lit "undo")
  then undoEdit e ;;; undoNotice
  else ret tt.

(** ** Events

    The controller is driven by events, one handler at a time.  A
    [userMessage] handler gives the control back while its provider call is
    pending, so the history may change between its two halves: the event of
    the first half, the call, and the event of the second half are separate
    steps.  The same holds for the undo listener, which awaits its edit
    before it appends its notice.  The host may differ from one step to the
    next.  The events are the handlers that change the history or post it;
    those that only send the page something else (file suggestions, context
    bubbles, the context menu) leave both as they are. *)

Inductive step (variant : Variant) : State -> State -> Prop :=
| step_begin host message st :
    step variant st (after (beginTurn variant host message) st)
| step_call host userText includeContext st :
    step variant st (after (_callAI variant host userText includeContext) st)
| step_settle outcome st :
    step variant st (after (settleTurn outcome) st)
| step_sendCurrentFile host st :
    step variant st (after (_handleSendCurrentFile host) st)
| step_sendSelection host st :
    step variant st (after (_handleSendSelection host) st)
| step_sendWorkspaceInfo host st :
    step variant st (after (_handleSendWorkspaceInfo host) st)
| step_previewEdit host filePath newContent choice st :
    step variant st (after (_showPreviewAndApply host filePath newContent choice) st)
| step_applyInline host target codeBlock st :
    step variant st (after (_handleApplyInline host target codeBlock) st)
| step_addFileToContext host filePath st :
    step variant st (after (_handleAddFileToContext host filePath) st)
| step_requestHistory st :
    step variant st (after _postMessageHistory st)
| step_requestHistoryPanel st :
    step variant st (after _postMessageHistoryToPanel st)
| step_resolveWebviewView st :
    step variant st (after (resolveWebviewView variant) st)
| step_openChatPanel st :
    step variant st (after openChatPanel st)
| step_undoEdit e st :
    In e (undoHandlers st) ->
    step variant st (after (undoEdit e) st)
| step_undoNotice st :
    step variant st (after undoNotice st)
| step_panelDisposed st :
    step variant st
      (mkState (_view st) false (_messageHistory st) (viewPosted st)
               (panelPosted st) (files st) (fsLog st) (fetched st) (applied st)
               (undoHandlers st)).

(** The controller as constructed: no surface, an empty history. *)
Definition initial (fs : jsstring -> option jsstring) : State :=
  mkState false false [] [] [] fs [] [] [] [].

Inductive reachable (variant : Variant) : State -> Prop :=
| reach_initial fs : reachable variant (initial fs)
| reach_step st st' :
    reachable variant st -> step variant st st' -> reachable variant st'.

(** ** The prompt template, in the words of the specification

    A [Context:] section listing every resolved item as a bolded icon and
    name followed by a fenced block of its content, the items joined by
    blank lines, then a [Question:] section with the user's text. *)

Definition blankLine : jsstring := NL ++ NL.

Definition fenced (block : jsstring) : jsstring :=
  fence ++ NL ++ block ++ NL ++ fence.

Definition template_item (item : ContextItem) : jsstring :=
  lit "**" ++ icon item ++ lit " " ++ show (name item) ++ lit ":**" ++ NL
  ++ fenced (show (itemContent item)).

Definition template (items : list ContextItem) (question : jsstring) : jsstring :=
  lit "**Context:**" ++ NL
  ++ join blankLine (map template_item items)
  ++ blankLine ++ lit "**Question:**" ++ NL ++ question.

(** The text a request carries for the new turn: the content of its last
    message. *)
Definition sentText (r : Request) : option jsstring :=
  match body r with
  | ChatBody _ messages _ _ => option_map cm_content (last (map Some messages) None)
  | ClaudeBody _ _ _ messages => option_map cm_content (last (map Some messages) None)
  | GeminiBody contents _ _ => option_map cm_content (last (map Some contents) None)
  end.

(** The notice that opens the reply to [/read] on a large file. *)
Definition tooLarge : jsstring :=
  lit "File is too large to display in chat (showing first 4000 chars):".

Definition readScopeError : jsstring :=
  lit "Error: Can only read files within the workspace.".

Definition editScopeError : jsstring :=
  lit "Error: Can only edit files within the workspace.".

(** ** A concrete host *)

Module Demo.

Definition doc : Document :=
  {| fileName := lit "/ws/demo.ts";
     languageId := lit "typescript";
     getText := lit "x=1";
     lineCount := 1;
     folderName := Some (lit "ws") |}.

(** An editor on [demo.ts] with nothing selected. *)
Definition editor : Editor :=
  {| document := doc;
     selection := mkSelection (mkPosition 2 0) (mkPosition 2 0);
     selectedText := [] |}.

(** The same editor with [x=1] selected on line 3. *)
Definition editorSel : Editor :=
  {| document := doc;
     selection := mkSelection (mkPosition 2 0) (mkPosition 2 3);
     selectedText := lit "x=1" |}.

(** A configuration given as a list of settings. *)
Fixpoint settings (l : list (jsstring * jsstring)) (key : jsstring)
  : option jsstring :=
  match l with
  | [] => None
  | (k, v) :: rest => if Js.eqb k key then Some v else settings rest key
  end.

(** A provider that answers every request with the same response. *)
Definition host (e : option Editor) (cfg : list (jsstring * jsstring))
    (answer : Res Response) : Host :=
  {| activeTextEditor := e;
     workspaceFolders := Some [mkFolder (lit "ws") (lit "/ws")];
     configuration := settings cfg;
     asRelativePath := fun p => if startsWith (lit "/ws/") p then skipn 4 p else p;
     path_resolve := Posix.resolve (lit "/home/user");
     path_join := Posix.pjoin;
     readError := fun p => newError (lit "ENOENT: no such file, open '" ++ p ++ lit "'");
     writeError := fun _ => None;
     execSync := fun _ _ => Ok (lit "./demo.ts" ++ NL);
     readdirSync := fun _ => Ok [lit "demo.ts"];
     accessSync := fun _ => false;
     fetch := fun _ => answer |}.

Definition reply (j : Json) : Res Response :=
  Ok {| ok := true; resText := []; resJson := Ok j |}.

Definition gptReply (s : jsstring) : Json :=
  JObj [(lit "choices",
         JArr [JObj [(lit "message", JObj [(lit "content", JStr s)])]])].

(** A file system with two files, one in the workspace and one next to
    it. *)
Definition disk (p : jsstring) : option jsstring :=
  if Js.eqb p (lit "/ws/notes.md") then Some (lit "hello")
  else if Js.eqb p (lit "/ws-evil/secret.txt") then Some (lit "top secret")
  else if Js.eqb p (lit "/ws/big.txt") then Some (repeat 97 4001)
  else None.

(** Both surfaces live, an empty history. *)
Definition bothLive : State :=
  mkState true true [] [] [] disk [] [] [] [].

Definition say (s : string) : UserMessage :=
  {| text := lit s; contextItems := None; inlineReferences := None |}.

End Demo.

(** A computation that leaves the surfaces as they are. *)
Definition quiet {A} (m : M A) : Prop :=
  forall st, sameSurfaces st (after m st).

(** Whether the last entry is a [loading] entry. *)
Definition lastIsLoading (h : list Message) : bool :=
  match rev h with
  | [] => false
  | m :: _ => isLoading m
  end.

(** The invariant of the history store: neither the history nor any history
    a surface has been sent holds two adjacent [loading] entries. *)
Definition wellFormed (st : State) : Prop :=
  adjacentLoading (_messageHistory st) = false
  /\ Forall (fun h => adjacentLoading h = false) (postedHistories (viewPosted st))
  /\ Forall (fun h => adjacentLoading h = false) (postedHistories (panelPosted st)).

(** A computation that keeps the invariant. *)
Definition preserves {A} (m : M A) : Prop :=
  forall st, wellFormed st -> wellFormed (after m st).

(** The content of a file attached as context, in the words of the
    specification: the first 2000 characters followed by a newline and the
    marker when the file is longer, the file itself otherwise. *)
Definition attachedContent (content : jsstring) : jsstring :=
  if (2000 <? length content)%nat
  then firstn 2000 content ++ NL ++ lit "... (truncated)"
  else content.

(** The item a readable file resolves to. *)
Definition fileItem (filePath content : jsstring) : ContextItem :=
  {| icon := icon_page;
     name := Some (orElse (lastSegment filePath) (lit "unknown"));
     itemContent := Some (attachedContent content) |}.

(** What the [user] entry of a turn shows when no context item was
    resolved: part_000 puts the notice in the place of the first
    [[selection]], src/src/extension.ts leaves the text as it came. *)
Definition shownUnresolved (v : Variant) (userText : jsstring) : jsstring :=
  match v with
  | Loja => replace (lit "[selection]") noSelectionText userText
  | AiCodingChat => userText
  end.

(** The Current Context block, in the words of the specification: the
    workspace name, the name and the path of the active file, the language
    id, and the range of the selected lines if there is a selection. *)
Definition currentContextBlock (host : Host) (editor : Editor) : jsstring :=
  let doc := document editor in
  let sel := selection editor in
  lit "**Current Context:**" ++ NL
  ++ lit "- Workspace: " ++ workspaceNameOf doc ++ NL
  ++ lit "- Current file: `" ++ lastSegment (fileName doc) ++ lit "`" ++ NL
  ++ lit "- File path: `" ++ asRelativePath host (fileName doc) ++ lit "`" ++ NL
  ++ lit "- Language: " ++ languageId doc
  ++ (if isEmpty sel then []
      else NL ++ lit "- Selected lines: "
           ++ lineRange (line (sel_start sel) + 1) (line (sel_end sel) + 1))
  ++ NL.

(** The text a provider is sent when the block is put before the
    question. *)
Definition withContext (block userText : jsstring) : jsstring :=
  block ++ NL ++ NL ++ lit "**User Question:**" ++ NL ++ userText.

(** Neither [/read ] nor [/edit ] opens the text. *)
Definition notCommand (userText : jsstring) : bool :=
  negb (startsWith (lit "/read ") userText)
  && negb (startsWith (lit "/edit ") userText).

(** A configuration that selects the provider [p] with the credential
    [key]. *)
Definition providerSettings (p : Provider) (key : jsstring)
  : list (jsstring * jsstring) :=
  [ (lit "loja.activeProvider", providerId p);
    (lit "loja." ++ apiKeyName p, key) ].

(** The call the dispatcher makes for a provider. *)
Definition providerCall (v : Variant) (host : Host) (p : Provider)
  : jsstring -> M jsstring :=
  match p with
  | gpt => _callOpenAIGPT v host
  | claude => _callClaudeStub v host
  | grok => _callGrokStub v host
  | gemini => _callGeminiStub v host
  end.

(** The parser of a provider's envelope. *)
Definition parseFor (p : Provider) : Json -> Res jsstring :=
  match p with
  | gpt | grok => parseChoices
  | claude => parseClaude
  | gemini => parseGemini
  end.

(** The first name a provider's parser reads from the envelope. *)
Definition envelopeKey (p : Provider) : jsstring :=
  match p with
  | gpt | grok => lit "choices"
  | claude => lit "content"
  | gemini => lit "candidates"
  end.

(** A computation that posts nothing to the detachable panel. *)
Definition panelSilent {A} (m : M A) : Prop :=
  forall st, panelPosted (after m st) = panelPosted st.

(** ** The chat view's script

    The script of the page ([_getHtmlForWebview]) renders the history and
    turns the first code block of an assistant message into actions.  The
    page is a template literal, in which an escaped backtick is a
    backtick. *)

Module Webview.

(** [s.indexOf(p, from)] *)
Definition indexOfFrom (p : jsstring) (from : nat) (s : jsstring) : option nat :=
  option_map (fun i => (Nat.min from (length s) + i)%nat)
             (indexOf p (skipn from s)).

(** [s.substring(a, b)]: the two bounds are put in order. *)
Definition substring (a b : nat) (s : jsstring) : jsstring :=
  firstn (Nat.max a b - Nat.min a b) (skipn (Nat.min a b) s).

(** [extractFirstCodeBlock]: [null] is [None], the object is the pair of
    [before] and [code]. *)
Definition extractFirstCodeBlock (text : jsstring) : option (jsstring * jsstring) :=
  match indexOf fence text with
  | None => None
  | Some start =>
      match indexOfFrom fence (start + 3) text with
      | None => None
      | Some end_ =>
          Some (substring 0 start text, substring (start + 3) end_ text)
      end
  end.

Section Actions.

(** [String.prototype.toLowerCase], the engine's. *)
Variable toLowerCase : jsstring -> jsstring.

(** The [target] of the apply-inline button, computed from the text before
    the code block. *)
Definition inlineTarget (before : jsstring) : option jsstring :=
  if truthy before then
    let lower := toLowerCase before in
    if includes (lit "selection") lower then Some (lit "selection")
    else if includes (lit "current file") lower then Some (lit "current file")
    else None
  else None.

(** The [applyInline] message the button of a rendered entry posts when it
    is clicked: its [target] and its [codeBlock]; [None] when the entry gets
    no such button. *)
Definition applyInlineAction (msg : Message) : option (option jsstring * jsstring) :=
  if Role_eqb (role msg) ai then
    match extractFirstCodeBlock (content msg) with
    | Some (before, code) =>
        if truthy code then Some (inlineTarget before, code) else None
    | None => None
    end
  else None.

End Actions.

(** Lower-casing of the letters A to Z, as [toLowerCase] does on text in
    ASCII. *)
Definition asciiLower (s : jsstring) : jsstring :=
  map (fun c => if (65 <=? c) && (c <=? 90) then c + 32 else c) s.

End Webview.

(** ** File suggestions *)

(** A [Uri] a search returns: its [path] and its [fsPath]. *)
Record Uri := mkUri { uri_path : jsstring; uri_fsPath : jsstring }.

Record Suggestion := mkSuggestion {
  sg_name : jsstring;
  sg_path : jsstring;
  sg_relativePath : jsstring
}.

(** The [showFileSuggestions] message. *)
Record Suggestions := mkSuggestions { sg_files : list Suggestion; sg_cursorPos : N }.

(** [s.split('/').pop()] *)
Fixpoint afterLastSlash_aux (acc s : jsstring) : jsstring :=
  match s with
  | [] => acc
  | c :: s' => if c =? 47 then afterLastSlash_aux [] s'
               else afterLastSlash_aux (acc ++ [c]) s'
  end.

Definition afterLastSlash (s : jsstring) : jsstring := afterLastSlash_aux [] s.

Section FileSuggestions.

Variable host : Host.

(** [vscode.workspace.findFiles(include, exclude, maxResults)] *)
Variable findFiles : jsstring -> jsstring -> N -> Res (list Uri).

(** The message [_handleFileSuggestions] builds; [None] when it returns
    without one (no workspace folder, or the search threw). *)
Definition fileSuggestions (query : jsstring) (cursorPos : N) : option Suggestions :=
  match firstFolder host with
  | None => None
  | Some _ =>
      let searchPattern :=
        if truthy query then lit "**/*" ++ query ++ lit "*" else lit "**/*" in
      match findFiles searchPattern (lit "**/node_modules/**")
                      (if truthy query then 20 else 50) with
      | Throw _ => None
      | Ok found =>
          Some {| sg_files :=
                    map (fun file =>
                           {| sg_name := orElse (afterLastSlash (uri_path file))
                                                (lit "unknown");
                              sg_path := uri_fsPath file;
                              sg_relativePath := asRelativePath host (uri_fsPath file) |})
                        found;
                  sg_cursorPos := cursorPos |}
      end
  end.

(** [_handleFileSuggestions]: what is posted to the side panel and what is
    posted to the detachable panel. *)
Definition _handleFileSuggestions (query : jsstring) (cursorPos : N) (st : State)
  : list Suggestions * list Suggestions :=
  match fileSuggestions query cursorPos with
  | None => ([], [])
  | Some message =>
      ((if _view st then [message] else []),
       (if _panel st then [message] else []))
  end.

End FileSuggestions.

(** ** Notions for the further properties *)

(** The messages a request carries. *)
Definition bodyMessages (r : Request) : list ChatMsg :=
  match body r with
  | ChatBody _ messages _ _ => messages
  | ClaudeBody _ _ _ messages => messages
  | GeminiBody contents _ _ => contents
  end.

(** The role a provider gives to the assistant's earlier turns. *)
Definition assistantRole (p : Provider) : jsstring :=
  match p with
  | gemini => lit "model"
  | _ => lit "assistant"
  end.

(** A success envelope that carries the text [s], as the providers word
    it: an object whose [choices] (OpenAI, Grok) begin with an object whose
    [message] has the string [s] as [content]; whose [content] (Claude)
    begins with an object whose [text] is [s]; whose [candidates] (Gemini)
    begin with an object whose [content] has [parts] that begin with an
    object whose [text] is [s].  Any other field may be there as well, at
    every level, and further choices, blocks, candidates and parts. *)
Definition carriesText (p : Provider) (data : Json) (s : jsstring) : Prop :=
  match p with
  | gpt | grok =>
      exists fields choice others message,
        data = JObj fields
        /\ field (lit "choices") fields = Some (JArr (JObj choice :: others))
        /\ field (lit "message") choice = Some (JObj message)
        /\ field (lit "content") message = Some (JStr s)
  | claude =>
      exists fields block others,
        data = JObj fields
        /\ field (lit "content") fields = Some (JArr (JObj block :: others))
        /\ field (lit "text") block = Some (JStr s)
  | gemini =>
      exists fields candidate others content part parts,
        data = JObj fields
        /\ field (lit "candidates") fields = Some (JArr (JObj candidate :: others))
        /\ field (lit "content") candidate = Some (JObj content)
        /\ field (lit "parts") content = Some (JArr (JObj part :: parts))
        /\ field (lit "text") part = Some (JStr s)
  end.

(** A reply of the shape the OpenAI API gives, with the text [s]. *)
Definition openaiReply (s : jsstring) : Json :=
  JObj [ (lit "id", JStr (lit "chatcmpl-1"));
         (lit "object", JStr (lit "chat.completion"));
         (lit "choices",
          JArr [JObj [ (lit "index", JNum 0);
                       (lit "message",
                        JObj [ (lit "role", JStr (lit "assistant"));
                               (lit "content", JStr s) ]);
                       (lit "finish_reason", JStr (lit "stop")) ]]);
         (lit "usage", JObj [(lit "total_tokens", JNum 12)]) ].

Definition usage : jsstring := lit "Usage: /edit <file> <new content>".

(** No white space in the string. *)
Definition noSpace (s : jsstring) : bool := forallb (fun c => negb (isSpace c)) s.

(** The provider identifier is one of the four. *)
Definition knownProvider (id : jsstring) : bool :=
  Js.eqb id (lit "gpt") || Js.eqb id (lit "claude")
  || Js.eqb id (lit "grok") || Js.eqb id (lit "gemini").

(** The entries that are not placeholders, which no handler removes. *)
Definition lasting (h : list Message) : list Message := filter notLoading h.

(** A computation that removes no entry other than placeholders, and puts
    nothing before the entries that were there. *)
Definition keeps {A} (m : M A) : Prop :=
  forall st, exists more,
    lasting (_messageHistory (after m st)) = lasting (_messageHistory st) ++ more.

(** The writes among the accesses to the file system. *)
Definition isWrite (op : FsOp) : bool :=
  match op with FsWrite _ _ => true | FsRead _ => false end.

(** No backtick in the string. *)
Definition noBacktick (s : jsstring) : bool := forallb (fun c => negb (c =? 96)) s.

(** * Theorems *)

Arguments lit : simpl never.

(** ** Strings *)

Lemma eqb_refl (s : jsstring) : Js.eqb s s = true.
Proof.
  induction s as [|c s IH]; simpl; [reflexivity|].
  now rewrite N.eqb_refl, IH.
Qed.

Lemma eqb_eq (a b : jsstring) : Js.eqb a b = true <-> a = b.
Proof.
  split.
  - revert b; induction a as [|x a IH]; intros [|y b] H; simpl in H;
      try discriminate; [reflexivity|].
    apply andb_true_iff in H as [Hx Hab].
    apply N.eqb_eq in Hx. f_equal; auto.
  - intros ->. apply eqb_refl.
Qed.

Lemma startsWith_app (p s : jsstring) : startsWith p (p ++ s) = true.
Proof.
  induction p as [|c p IH]; simpl; [reflexivity|].
  now rewrite N.eqb_refl, IH.
Qed.

Lemma startsWith_refl (p : jsstring) : startsWith p p = true.
Proof. rewrite <- (app_nil_r p) at 2. apply startsWith_app. Qed.

Lemma startsWith_trans (a b s : jsstring) :
  startsWith a b = true -> startsWith b s = true -> startsWith a s = true.
Proof.
  revert b s; induction a as [|x a IH]; intros [|y b] [|z s] Hab Hbs;
    simpl in *; try discriminate; try reflexivity.
  apply andb_true_iff in Hab as [Hxy Hab].
  apply andb_true_iff in Hbs as [Hyz Hbs].
  apply N.eqb_eq in Hxy, Hyz. subst.
  rewrite N.eqb_refl. simpl. eauto.
Qed.

(** A path within the root passes the test the handlers make. *)
Lemma withinRoot_startsWith (root abs : jsstring) :
  withinRoot root abs = true -> startsWith root abs = true.
Proof.
  unfold withinRoot. intros H. apply orb_true_iff in H as [H|H].
  - apply eqb_eq in H. subst. apply startsWith_refl.
  - eapply startsWith_trans; [|exact H]. apply startsWith_app.
Qed.

(** ** The monad *)

Lemma bind_ok {A B} (m : M A) (k : A -> M B) st a st' :
  m st = (Ok a, st') -> bind m k st = k a st'.
Proof. unfold bind. now intros ->. Qed.

Lemma bind_throw {A B} (m : M A) (k : A -> M B) st e st' :
  m st = (Throw e, st') -> bind m k st = (Throw e, st').
Proof. unfold bind. now intros ->. Qed.

Lemma sameSurfaces_refl st : sameSurfaces st st.
Proof. repeat split. Qed.

Lemma sameSurfaces_trans a b c :
  sameSurfaces a b -> sameSurfaces b c -> sameSurfaces a c.
Proof.
  unfold sameSurfaces. intros (?&?&?&?&?) (?&?&?&?&?).
  repeat split; congruence.
Qed.

Lemma quiet_ret {A} (a : A) : quiet (ret a).
Proof. intros st. apply sameSurfaces_refl. Qed.

Lemma quiet_throw {A} e : quiet (@throw A e).
Proof. intros st. apply sameSurfaces_refl. Qed.

Lemma quiet_liftRes {A} (r : Res A) : quiet (liftRes r).
Proof. intros st. apply sameSurfaces_refl. Qed.

Lemma quiet_gets {A} (f : State -> A) : quiet (gets f).
Proof. intros st. apply sameSurfaces_refl. Qed.

Lemma quiet_bind {A B} (m : M A) (k : A -> M B) :
  quiet m -> (forall a, quiet (k a)) -> quiet (bind m k).
Proof.
  intros Hm Hk st. unfold after, bind.
  specialize (Hm st). unfold after in Hm.
  destruct (m st) as [[a|e] st1]; simpl in *; [|assumption].
  eapply sameSurfaces_trans; [exact Hm|]. apply Hk.
Qed.

Lemma quiet_try_catch {A} (m : M A) (h : JsError -> M A) :
  quiet m -> (forall e, quiet (h e)) -> quiet (try_catch m h).
Proof.
  intros Hm Hh st. unfold after, try_catch.
  specialize (Hm st). unfold after in Hm.
  destruct (m st) as [[a|e] st1]; simpl in *; [assumption|].
  eapply sameSurfaces_trans; [exact Hm|]. apply Hh.
Qed.

Lemma quiet_attempt {A} (m : M A) : quiet m -> quiet (attempt m).
Proof.
  intros Hm st. specialize (Hm st). unfold after, attempt in *.
  now destruct (m st).
Qed.

Lemma quiet_readFile host p : quiet (readFile host p).
Proof.
  intros st. unfold after, readFile.
  destruct (files st p); simpl; repeat split.
Qed.

Lemma quiet_writeFile host p d : quiet (writeFile host p d).
Proof.
  intros st. unfold after, writeFile.
  destruct (writeError host p); simpl; repeat split.
Qed.

Lemma quiet_doFetch host r : quiet (doFetch host r).
Proof. intros st. repeat split. Qed.

Lemma quiet_resJsonM res : quiet (resJsonM res).
Proof. unfold resJsonM. destruct (resJson res); [apply quiet_ret|apply quiet_throw]. Qed.

Create HintDb quiet.
#[local] Hint Resolve quiet_ret quiet_throw quiet_liftRes quiet_gets
  quiet_readFile quiet_writeFile quiet_doFetch quiet_resJsonM : quiet.

(** Closes [quiet m] for an [m] built from the pieces above. *)
Ltac quiet_tac :=
  repeat first
    [ solve [auto with quiet]
    | apply quiet_bind; [|intros ?]
    | apply quiet_try_catch; [|intros ?]
    | apply quiet_attempt
    | match goal with
      | |- quiet (if ?b then _ else _) => destruct b
      | |- quiet (match ?x with _ => _ end) => destruct x
      | |- quiet (let (_, _) := ?x in _) => destruct x
      end ].

Lemma quiet_handleAddFileToContext host p : quiet (_handleAddFileToContext host p).
Proof. unfold _handleAddFileToContext. quiet_tac. Qed.

Lemma quiet_handleReadFile host p : quiet (_handleReadFile host p).
Proof. unfold _handleReadFile. quiet_tac. Qed.

Lemma quiet_handleEditFile host p c : quiet (_handleEditFile host p c).
Proof. unfold _handleEditFile. quiet_tac. Qed.

Lemma quiet_exchange host p req parse : quiet (exchange host p req parse).
Proof. unfold exchange. quiet_tac. Qed.

#[local] Hint Resolve quiet_handleAddFileToContext quiet_handleReadFile
  quiet_handleEditFile quiet_exchange : quiet.

(** The provider call changes nothing a surface can see. *)
Lemma quiet_callAI v host userText includeContext :
  quiet (_callAI v host userText includeContext).
Proof.
  unfold _callAI, _callOpenAIGPT, _callClaudeStub, _callGrokStub, _callGeminiStub.
  quiet_tac.
Qed.

(** ** The shape of a turn *)

Lemma total_handleAddFileToContext host p st :
  exists c, result (_handleAddFileToContext host p) st = Ok c.
Proof.
  unfold result, _handleAddFileToContext, try_catch, bind, readFile, ret.
  destruct (files st p); simpl; eauto.
Qed.

Lemma resolveBubbles_ok host items :
  forall refs st, exists refs' st1,
    resolveBubbles host items refs st = (Ok refs', st1) /\ sameSurfaces st st1.
Proof.
  induction items as [|item rest IH]; intros refs st; simpl.
  - exists refs, st. split; [reflexivity|apply sameSurfaces_refl].
  - destruct (Js.eqb (b_type item) (lit "file") && truthy (orDefault (b_path item) [])).
    + pose proof (total_handleAddFileToContext host (orDefault (b_path item) []) st) as [c Hc].
      pose proof (quiet_handleAddFileToContext host (orDefault (b_path item) []) st) as Hq.
      unfold result, after in *.
      destruct (_handleAddFileToContext host (orDefault (b_path item) []) st)
        as [r st0] eqn:E.
      simpl in Hc, Hq. subst r.
      unfold bind. rewrite E.
      destruct c as [ctx|].
      * destruct (IH (refs ++ [ctx]) st0) as (refs'&st1&H1&H2).
        exists refs', st1. split; [exact H1|].
        eapply sameSurfaces_trans; eauto.
      * destruct (IH refs st0) as (refs'&st1&H1&H2).
        exists refs', st1. split; [exact H1|].
        eapply sameSurfaces_trans; eauto.
    + destruct (Js.eqb (b_type item) (lit "selection")); apply IH.
Qed.

(** Resolution always returns, and shows nothing to the surfaces. *)
Lemma resolve_ok v host message st :
  exists r st1,
    resolve v host message st = (Ok r, st1) /\ sameSurfaces st st1.
Proof.
  unfold resolve.
  destruct (resolveMarkers v host (text message, [])) as [fullMessage refs].
  destruct (resolveBubbles_ok host (orNil (contextItems message)) refs st)
    as (refs'&st1&H1&H2).
  exists (resolveInline (orNil (inlineReferences message)) (fullMessage, refs')), st1.
  split; [|exact H2].
  unfold bind. now rewrite H1.
Qed.

(** The first half of a turn: the [user] entry and the [loading] entry are
    appended, and the history is posted after each. *)
Lemma beginTurn_shape v host message st r st1 :
  resolve v host message st = (Ok r, st1) ->
  sameSurfaces st st1 ->
  let u := mkMessage user (finalMessage message r) in
  let h := _messageHistory st in
  exists st2,
    beginTurn v host message st = (Ok (finalMessage message r), st2)
    /\ _view st2 = _view st /\ _panel st2 = _panel st
    /\ _messageHistory st2 = h ++ [u; thinking]
    /\ viewPosted st2 =
         viewPosted st
         ++ (if _view st then [history (h ++ [u]); history (h ++ [u; thinking])] else [])
    /\ panelPosted st2 =
         panelPosted st
         ++ (if _panel st then [history (h ++ [u]); history (h ++ [u; thinking])] else [])
    /\ fetched st2 = fetched st1 /\ fsLog st2 = fsLog st1 /\ files st2 = files st1.
Proof.
  intros Hr (Hv&Hp&Hh&Hvp&Hpp). cbv zeta.
  unfold beginTurn.
  rewrite (bind_ok _ _ _ _ _ Hr).
  unfold bind, push, _postMessageHistory, _postMessageHistoryToPanel, modify, ret.
  rewrite Hv, Hp, Hh, Hvp, Hpp.
  destruct st1 as [view1 panel1 h1 vp1 pp1 fs1 log1 net1 ed1 un1].
  destruct view1, panel1; simpl; eexists; (split; [reflexivity|]); simpl;
    rewrite <- ?app_assoc; simpl; rewrite ?app_nil_r; repeat split; reflexivity.
Qed.

Lemma filter_notLoading_turn h u :
  role u = user ->
  filter notLoading (h ++ [u; thinking]) = filter notLoading h ++ [u].
Proof.
  intros Hu. rewrite filter_app. f_equal. simpl.
  unfold notLoading at 1. rewrite Hu. reflexivity.
Qed.

(** The second half of a turn. *)
Lemma settleTurn_shape outcome st :
  let h := filter notLoading (_messageHistory st) ++ [terminalEntry outcome] in
  exists st',
    settleTurn outcome st = (Ok tt, st')
    /\ _view st' = _view st /\ _panel st' = _panel st
    /\ _messageHistory st' = h
    /\ viewPosted st' = viewPosted st ++ (if _view st then [history h] else [])
    /\ panelPosted st' = panelPosted st ++ (if _panel st then [history h] else [])
    /\ fetched st' = fetched st /\ fsLog st' = fsLog st /\ files st' = files st.
Proof.
  cbv zeta. unfold settleTurn.
  unfold bind, push, _postMessageHistory, _postMessageHistoryToPanel, modify, ret.
  destruct st as [view0 panel0 h0 vp0 pp0 fs0 log0 net0 ed0 un0].
  destruct view0, panel0; simpl; eexists; (split; [reflexivity|]); simpl;
    rewrite ?app_nil_r; repeat split; reflexivity.
Qed.

(** A whole turn, from the event to the terminal entry: what the handler
    returns, what the history becomes, and what each surface is sent. *)
Lemma turn_shape v host message st :
  exists r st1 st2 outcome st3 st',
    resolve v host message st = (Ok r, st1)
    /\ sameSurfaces st st1
    /\ beginTurn v host message st = (Ok (finalMessage message r), st2)
    /\ _callAI v host (finalMessage message r) false st2 = (outcome, st3)
    /\ _handleUserMessage v host message st = (Ok tt, st')
    /\ let u := mkMessage user (finalMessage message r) in
       let t := terminalEntry outcome in
       let h := _messageHistory st in
       let h' := filter notLoading h ++ [u; t] in
       _view st' = _view st /\ _panel st' = _panel st
       /\ _messageHistory st' = h'
       /\ viewPosted st' =
            viewPosted st
            ++ (if _view st
                then [history (h ++ [u]); history (h ++ [u; thinking]); history h']
                else [])
       /\ panelPosted st' =
            panelPosted st
            ++ (if _panel st
                then [history (h ++ [u]); history (h ++ [u; thinking]); history h']
                else [])
       /\ fetched st' = fetched st3 /\ fsLog st' = fsLog st3
       /\ files st' = files st3.
Proof.
  destruct (resolve_ok v host message st) as (r&st1&Hr&Hs).
  destruct (beginTurn_shape v host message st r st1 Hr Hs)
    as (st2&Eb&Hv&Hp&Hh&Hvp&Hpp&_).
  destruct (_callAI v host (finalMessage message r) false st2) as [o st3] eqn:Ec.
  pose proof (quiet_callAI v host (finalMessage message r) false st2) as Hq.
  unfold after in Hq. rewrite Ec in Hq. destruct Hq as (Hv3&Hp3&Hh3&Hvp3&Hpp3).
  cbn [snd] in *.
  destruct (settleTurn_shape o st3) as (st'&Es&Sv&Sp&Sh&Svp&Spp&Sf&Sl&Sd).
  exists r, st1, st2, o, st3, st'.
  do 4 (split; [assumption || reflexivity|]).
  split.
  { unfold _handleUserMessage. rewrite (bind_ok _ _ _ _ _ Eb).
    unfold bind, attempt. rewrite Ec. exact Es. }
  cbv zeta.
  assert (Hf : filter notLoading (_messageHistory st3)
               = filter notLoading (_messageHistory st)
                 ++ [mkMessage user (finalMessage message r)]).
  { rewrite <- Hh3, Hh. now apply filter_notLoading_turn. }
  rewrite Hf in Sh, Svp, Spp. rewrite <- app_assoc in Sh, Svp, Spp.
  cbn [app] in Sh, Svp, Spp.
  repeat split; try congruence.
  - rewrite Svp, <- Hvp3, Hvp, <- Hv3, Hv.
    destruct (_view st); cbn [app]; rewrite <- ?app_assoc; reflexivity.
  - rewrite Spp, <- Hpp3, Hpp, <- Hp3, Hp.
    destruct (_panel st); cbn [app]; rewrite <- ?app_assoc; reflexivity.
Qed.

(** ** No two adjacent [loading] entries *)

Lemma adjacentLoading_cons a h :
  adjacentLoading (a :: h)
  = (isLoading a && match h with [] => false | b :: _ => isLoading b end)
    || adjacentLoading h.
Proof. destruct h; simpl; [now rewrite andb_false_r|reflexivity]. Qed.

Lemma adjacentLoading_snoc h m :
  adjacentLoading (h ++ [m])
  = adjacentLoading h || (lastIsLoading h && isLoading m).
Proof.
  induction h as [|a h IH].
  - reflexivity.
  - cbn [app]. rewrite !adjacentLoading_cons, IH.
    unfold lastIsLoading. cbn [rev].
    destruct h as [|b h].
    + cbn. now rewrite !andb_false_r, orb_false_r.
    + cbn [app]. cbn [rev].
      destruct (rev h ++ [b]) as [|x l] eqn:E.
      * now destruct (rev h).
      * cbn [app]. now rewrite orb_assoc.
Qed.

Lemma lastIsLoading_snoc h m : lastIsLoading (h ++ [m]) = isLoading m.
Proof. unfold lastIsLoading. now rewrite rev_app_distr. Qed.

(** Appending an entry that is not [loading] keeps the invariant. *)
Lemma adjacentLoading_push h m :
  isLoading m = false -> adjacentLoading h = false ->
  adjacentLoading (h ++ [m]) = false.
Proof.
  intros Hm Hh. rewrite adjacentLoading_snoc, Hm, Hh.
  now rewrite andb_false_r.
Qed.

(** Appending a [user] entry and the placeholder keeps it too. *)
Lemma adjacentLoading_turn h u :
  role u = user -> adjacentLoading h = false ->
  adjacentLoading (h ++ [u; thinking]) = false.
Proof.
  intros Hu Hh.
  change (h ++ [u; thinking]) with (h ++ [u] ++ [thinking]).
  rewrite app_assoc, adjacentLoading_snoc, lastIsLoading_snoc.
  rewrite adjacentLoading_push; auto.
  - unfold isLoading at 1. now rewrite Hu.
  - unfold isLoading. now rewrite Hu.
Qed.

Lemma isLoading_notLoading m : isLoading m = negb (notLoading m).
Proof. unfold notLoading, isLoading. now rewrite negb_involutive. Qed.

Lemma noLoading_filter h : noLoading (filter notLoading h) = true.
Proof.
  unfold noLoading. apply forallb_forall. intros m Hm.
  now apply filter_In in Hm.
Qed.

Lemma noLoading_app a b : noLoading (a ++ b) = noLoading a && noLoading b.
Proof. apply forallb_app. Qed.

(** A history without [loading] entries has no two of them adjacent. *)
Lemma noLoading_adjacent h : noLoading h = true -> adjacentLoading h = false.
Proof.
  induction h as [|a h IH]; [reflexivity|].
  cbn [noLoading forallb]. intros H. apply andb_true_iff in H as [Ha Hh].
  rewrite adjacentLoading_cons, isLoading_notLoading, Ha. cbn.
  now apply IH.
Qed.

Lemma terminalEntry_role outcome :
  role (terminalEntry outcome) = ai \/ role (terminalEntry outcome) = error.
Proof. destruct outcome; [left|right]; reflexivity. Qed.

Lemma terminalEntry_notLoading outcome : notLoading (terminalEntry outcome) = true.
Proof. now destruct outcome. Qed.

(** The history a settled turn leaves holds no [loading] entry. *)
Lemma noLoading_settled h u outcome :
  role u = user ->
  noLoading (filter notLoading h ++ [u; terminalEntry outcome]) = true.
Proof.
  intros Hu. rewrite noLoading_app, noLoading_filter. cbn.
  unfold notLoading at 1. rewrite Hu, terminalEntry_notLoading. reflexivity.
Qed.

(** ** The invariant along every run *)

Lemma wellFormed_sameSurfaces a b :
  sameSurfaces a b -> wellFormed a -> wellFormed b.
Proof.
  intros (_&_&Hh&Hv&Hp) (H1&H2&H3). unfold wellFormed.
  now rewrite <- Hh, <- Hv, <- Hp.
Qed.

Lemma preserves_quiet {A} (m : M A) : quiet m -> preserves m.
Proof. intros Hq st. apply wellFormed_sameSurfaces, Hq. Qed.

Lemma preserves_bind {A B} (m : M A) (k : A -> M B) :
  preserves m -> (forall a, preserves (k a)) -> preserves (bind m k).
Proof.
  intros Hm Hk st Hst. unfold after, bind.
  specialize (Hm st Hst). unfold after in Hm.
  destruct (m st) as [[a|e] st1]; cbn [snd] in *; [|assumption].
  now apply Hk.
Qed.

Lemma preserves_push m : isLoading m = false -> preserves (push m).
Proof.
  intros Hm st (H1&H2&H3). unfold after, push, modify, wellFormed.
  destruct st; cbn in *. repeat split; auto using adjacentLoading_push.
Qed.

Lemma Forall_posted h posted :
  adjacentLoading h = false ->
  Forall (fun h => adjacentLoading h = false) (postedHistories posted) ->
  Forall (fun h => adjacentLoading h = false) (postedHistories (posted ++ [history h])).
Proof.
  intros Hh Hp. unfold postedHistories. rewrite map_app.
  apply Forall_app. split; [exact Hp|]. now constructor.
Qed.

Lemma preserves_postMessageHistory : preserves _postMessageHistory.
Proof.
  intros st (H1&H2&H3). unfold after, _postMessageHistory, modify, wellFormed.
  destruct st as [view0 ? ? ? ? ? ? ? ? ?]; destruct view0; cbn in *;
    repeat split; auto using Forall_posted.
Qed.

Lemma preserves_postMessageHistoryToPanel : preserves _postMessageHistoryToPanel.
Proof.
  intros st (H1&H2&H3). unfold after, _postMessageHistoryToPanel, modify, wellFormed.
  destruct st as [? panel0 ? ? ? ? ? ? ? ?]; destruct panel0; cbn in *;
    repeat split; auto using Forall_posted.
Qed.

Lemma preserves_notice c : preserves (notice c).
Proof.
  unfold notice. apply preserves_bind; [now apply preserves_push|].
  intros _. apply preserves_postMessageHistory.
Qed.

(** An entry of role [user] or [system] followed by a post to the side
    panel. *)
Lemma preserves_push_post m :
  isLoading m = false -> preserves (push m ;;; _postMessageHistory).
Proof.
  intros Hm. apply preserves_bind; [now apply preserves_push|].
  intros _. apply preserves_postMessageHistory.
Qed.

Lemma preserves_beginTurn v host message : preserves (beginTurn v host message).
Proof.
  intros st (H1&H2&H3).
  destruct (resolve_ok v host message st) as (r&st1&Hr&Hs).
  destruct (beginTurn_shape v host message st r st1 Hr Hs)
    as (st2&Eb&Hv&Hp&Hh&Hvp&Hpp&_).
  unfold after. rewrite Eb. cbn [snd]. unfold wellFormed.
  assert (Ha : adjacentLoading
                 (_messageHistory st ++ [mkMessage user (finalMessage message r)]) = false)
    by now apply adjacentLoading_push.
  assert (Hb : adjacentLoading
                 (_messageHistory st ++ [mkMessage user (finalMessage message r); thinking])
               = false)
    by now apply adjacentLoading_turn.
  rewrite Hh, Hvp, Hpp. split; [exact Hb|].
  unfold postedHistories in *. rewrite !map_app.
  split; apply Forall_app; (split; [assumption|]).
  - destruct (_view st); cbn; auto.
  - destruct (_panel st); cbn; auto.
Qed.

Lemma preserves_settleTurn outcome : preserves (settleTurn outcome).
Proof.
  intros st (H1&H2&H3).
  destruct (settleTurn_shape outcome st) as (st'&Es&Sv&Sp&Sh&Svp&Spp&_).
  unfold after. rewrite Es. cbn [snd]. unfold wellFormed.
  assert (Ha : adjacentLoading
                 (filter notLoading (_messageHistory st) ++ [terminalEntry outcome])
               = false).
  { apply noLoading_adjacent. rewrite noLoading_app, noLoading_filter. cbn.
    now rewrite terminalEntry_notLoading. }
  rewrite Sh, Svp, Spp. split; [exact Ha|].
  unfold postedHistories in *. rewrite !map_app.
  split; apply Forall_app; (split; [assumption|]).
  - destruct (_view st); cbn; auto.
  - destruct (_panel st); cbn; auto.
Qed.

Lemma preserves_sendCurrentFile host : preserves (_handleSendCurrentFile host).
Proof.
  unfold _handleSendCurrentFile.
  destruct (activeTextEditor host); [now apply preserves_push_post|].
  apply preserves_notice.
Qed.

Lemma preserves_sendSelection host : preserves (_handleSendSelection host).
Proof.
  unfold _handleSendSelection.
  destruct (activeTextEditor host); [|apply preserves_notice].
  destruct (negb _); [apply preserves_notice|now apply preserves_push_post].
Qed.

Lemma preserves_sendWorkspaceInfo host : preserves (_handleSendWorkspaceInfo host).
Proof.
  unfold _handleSendWorkspaceInfo.
  destruct (firstFolder host); [|apply preserves_notice].
  destruct (workspaceStructure _ _ _);
    [now apply preserves_push_post|apply preserves_notice].
Qed.

Lemma preserves_previewEdit host filePath newContent choice :
  preserves (_showPreviewAndApply host filePath newContent choice).
Proof.
  unfold _showPreviewAndApply, _showDiff.
  destruct choice as [[| |]|]; try solve [apply preserves_quiet; quiet_tac].
  apply preserves_bind; [apply preserves_quiet; quiet_tac|].
  intros result. now apply preserves_push_post.
Qed.

Lemma quiet_modify_log_edit e : quiet (modify (log_edit e)).
Proof. intros st. repeat split. Qed.

Lemma quiet_register e :
  quiet (modify (fun st => if _view st then add_undoHandler e st else st)).
Proof.
  intros st. unfold after, modify. cbn [snd].
  destruct (_view st) eqn:E; repeat split.
Qed.

Lemma preserves_applyInline host target codeBlock :
  preserves (_handleApplyInline host target codeBlock).
Proof.
  unfold _handleApplyInline.
  destruct (activeTextEditor host); [|apply preserves_notice].
  match goal with
  | |- preserves (let '(_, _) := ?p in _) => destruct p as [range oldText]
  end.
  apply preserves_bind; [apply preserves_quiet, quiet_modify_log_edit|intros _].
  apply preserves_bind; [now apply preserves_push|intros _].
  apply preserves_bind; [apply preserves_postMessageHistory|intros _].
  apply preserves_quiet, quiet_register.
Qed.

Lemma preserves_resolveWebviewView v : preserves (resolveWebviewView v).
Proof.
  unfold resolveWebviewView.
  apply preserves_bind.
  - intros st H. exact H.
  - intros _. destruct v; [now apply preserves_push_post|].
    apply preserves_quiet, quiet_ret.
Qed.

Lemma preserves_openChatPanel : preserves openChatPanel.
Proof.
  unfold openChatPanel. apply preserves_bind; [apply preserves_quiet, quiet_gets|].
  intros st0. destruct (_panel st0); [apply preserves_quiet, quiet_ret|].
  apply preserves_bind; [intros st H; exact H|intros _].
  apply preserves_bind; [apply preserves_postMessageHistoryToPanel|intros _].
  apply preserves_postMessageHistoryToPanel.
Qed.

(** Every step keeps the invariant. *)
Lemma step_wellFormed v st st' : step v st st' -> wellFormed st -> wellFormed st'.
Proof.
  intros Hstep. destruct Hstep.
  - apply preserves_beginTurn.
  - apply preserves_quiet, quiet_callAI.
  - apply preserves_settleTurn.
  - apply preserves_sendCurrentFile.
  - apply preserves_sendSelection.
  - apply preserves_sendWorkspaceInfo.
  - apply preserves_previewEdit.
  - apply preserves_applyInline.
  - apply preserves_quiet, quiet_handleAddFileToContext.
  - apply preserves_postMessageHistory.
  - apply preserves_postMessageHistoryToPanel.
  - apply preserves_resolveWebviewView.
  - apply preserves_openChatPanel.
  - apply preserves_quiet, quiet_modify_log_edit.
  - now apply preserves_push_post.
  - intros Hst. exact Hst.
Qed.

(** However the events interleave, the history never holds two adjacent
    [loading] entries, and no surface is ever sent a history that does. *)
Lemma reachable_wellFormed v st : reachable v st -> wellFormed st.
Proof.
  induction 1 as [fs|st st' _ IH Hstep].
  - repeat split; constructor.
  - eapply step_wellFormed; eauto.
Qed.

(** The handler of [userMessage] is the three steps taken one after the
    other. *)
Lemma handleUserMessage_steps v host message st :
  exists st2 st3,
    step v st st2 /\ step v st2 st3
    /\ step v st3 (after (_handleUserMessage v host message) st).
Proof.
  destruct (turn_shape v host message st)
    as (r&st1&st2&o&st3&st'&Hr&Hs&Eb&Ec&Eh&_).
  exists st2, st3. repeat split.
  - replace st2 with (after (beginTurn v host message) st)
      by (unfold after; now rewrite Eb).
    constructor.
  - replace st3 with (after (_callAI v host (finalMessage message r) false) st2)
      by (unfold after; now rewrite Ec).
    constructor.
  - replace (after (_handleUserMessage v host message) st)
      with (after (settleTurn o) st3).
    + constructor.
    + unfold after, _handleUserMessage.
      rewrite (bind_ok _ _ _ _ _ Eb). unfold bind, attempt. now rewrite Ec.
Qed.

(** The undo listener, on any message: nothing, or its two steps. *)
Lemma undoHandler_steps v toLowerCase e message st :
  In e (undoHandlers st) ->
  after (undoHandler toLowerCase e message) st = st
  \/ exists st1,
       step v st st1 /\ step v st1 (after (undoHandler toLowerCase e message) st).
Proof.
  intros Hin. unfold undoHandler.
  destruct (Js.eqb (toLowerCase (trim (text message))) (lit "undo"));
    [right|left; reflexivity].
  exists (after (undoEdit e) st). split; [now apply step_undoEdit|].
  replace (after (undoEdit e ;;; undoNotice) st)
    with (after undoNotice (after (undoEdit e) st)) by reflexivity.
  apply step_undoNotice.
Qed.

(** A turn whose three steps follow one another with no other event in
    between, started from a history without two adjacent [loading] entries:
    the handler returns; the history goes through [h ++ [u]],
    [h ++ [u; loading]] and a final history obtained from the second by
    removing the [loading] entries and appending exactly one entry [t] of
    role [ai] or [error]; these are the histories sent to each live surface,
    in this order; none of them holds two adjacent [loading] entries, and the
    final one holds no [loading] entry at all. *)
Lemma turn_alone v host message st :
  adjacentLoading (_messageHistory st) = false ->
  exists full t st',
    _handleUserMessage v host message st = (Ok tt, st')
    /\ (role t = ai \/ role t = error)
    /\ let h := _messageHistory st in
       let u := mkMessage user full in
       let h1 := h ++ [u] in
       let h2 := h ++ [u; thinking] in
       let h3 := filter notLoading h2 ++ [t] in
       _messageHistory st' = h3
       /\ viewPosted st' =
            viewPosted st ++ (if _view st then map history [h1; h2; h3] else [])
       /\ panelPosted st' =
            panelPosted st ++ (if _panel st then map history [h1; h2; h3] else [])
       /\ adjacentLoading h1 = false
       /\ adjacentLoading h2 = false
       /\ adjacentLoading h3 = false
       /\ noLoading h3 = true.
Proof.
  intros Hinv.
  destruct (turn_shape v host message st)
    as (r&st1&st2&o&st3&st'&Hr&Hs&Eb&Ec&Eh&Hv&Hp&Hh&Hvp&Hpp&_).
  exists (finalMessage message r), (terminalEntry o), st'.
  split; [exact Eh|]. split; [apply terminalEntry_role|].
  cbv zeta. rewrite filter_notLoading_turn by reflexivity.
  rewrite <- app_assoc. cbn [app map].
  assert (Hn : noLoading (filter notLoading (_messageHistory st)
                 ++ [mkMessage user (finalMessage message r); terminalEntry o]) = true)
    by now apply noLoading_settled.
  repeat split; auto using adjacentLoading_push, adjacentLoading_turn,
    noLoading_adjacent.
Qed.

(** The first half of a turn in any state: the handler gets as far as the
    call, and the history has gained the [user] entry and the placeholder. *)
Lemma beginTurn_history v host message st :
  exists full st1,
    beginTurn v host message st = (Ok full, st1)
    /\ _messageHistory st1 = _messageHistory st ++ [mkMessage user full; thinking].
Proof.
  destruct (resolve_ok v host message st) as (r&s1&Hr&Hs).
  destruct (beginTurn_shape v host message st r s1 Hr Hs) as (st1&E&_&_&H&_).
  now exists (finalMessage message r), st1.
Qed.

(** The second half of a turn in any state. *)
Lemma settleTurn_history outcome st :
  exists st',
    settleTurn outcome st = (Ok tt, st')
    /\ _messageHistory st'
       = filter notLoading (_messageHistory st) ++ [terminalEntry outcome]
    /\ noLoading (_messageHistory st') = true.
Proof.
  destruct (settleTurn_shape outcome st) as (st'&E&_&_&H&_).
  exists st'. split; [exact E|]. split; [exact H|].
  rewrite H, noLoading_app, noLoading_filter. cbn.
  now rewrite terminalEntry_notLoading.
Qed.

(** C1 — The placeholder of a turn, with the provider call as the point at
    which other events come in.  (1) Along every sequence of events from the
    controller as constructed, the history never holds two adjacent
    [loading] entries.  (2) The first half of a turn always gets as far as the
    call and appends a [user] entry followed by the placeholder; (3) the call
    leaves the history as it is; (4) when a call settles, in whatever state
    and with a reply as with an error, the handler removes every [loading]
    entry the history holds, its own or not, and appends exactly one entry of
    role [ai] or [error], so that the history then holds no [loading] entry.
    (5) A turn that nothing interrupts goes through [h ++ [u]],
    [h ++ [u; loading]] and the second without its [loading] entries followed
    by its terminal entry.  (6) Nothing holds a second turn back until the
    first has settled: a turn that begins while another is pending appends its
    placeholder after the pending one, and the history holds both. *)
Theorem C1_loading_discipline v :
  (forall st, reachable v st -> adjacentLoading (_messageHistory st) = false)
  /\ (forall host message st, exists full st1,
         beginTurn v host message st = (Ok full, st1)
         /\ _messageHistory st1
            = _messageHistory st ++ [mkMessage user full; thinking])
  /\ (forall host userText st,
         _messageHistory (after (_callAI v host userText false) st)
         = _messageHistory st)
  /\ (forall outcome st, exists t st',
         settleTurn outcome st = (Ok tt, st')
         /\ (role t = ai \/ role t = error)
         /\ _messageHistory st' = filter notLoading (_messageHistory st) ++ [t]
         /\ noLoading (_messageHistory st') = true)
  /\ (forall host message st,
         adjacentLoading (_messageHistory st) = false ->
         exists full t st',
           _handleUserMessage v host message st = (Ok tt, st')
           /\ (role t = ai \/ role t = error)
           /\ let h := _messageHistory st in
              let u := mkMessage user full in
              let h1 := h ++ [u] in
              let h2 := h ++ [u; thinking] in
              let h3 := filter notLoading h2 ++ [t] in
              _messageHistory st' = h3
              /\ viewPosted st' =
                   viewPosted st
                   ++ (if _view st then map history [h1; h2; h3] else [])
              /\ panelPosted st' =
                   panelPosted st
                   ++ (if _panel st then map history [h1; h2; h3] else [])
              /\ adjacentLoading h1 = false
              /\ adjacentLoading h2 = false
              /\ adjacentLoading h3 = false
              /\ noLoading h3 = true)
  /\ (forall host1 message1 host2 message2 st, exists full1 full2,
         _messageHistory
           (after (beginTurn v host2 message2)
                  (after (beginTurn v host1 message1) st))
         = _messageHistory st
           ++ [mkMessage user full1; thinking; mkMessage user full2; thinking]).
Proof.
  split; [|split; [|split; [|split; [|split]]]].
  - intros st Hr. now destruct (reachable_wellFormed v st Hr).
  - apply beginTurn_history.
  - intros host userText st.
    destruct (quiet_callAI v host userText false st) as (_&_&H&_).
    now rewrite H.
  - intros outcome st.
    destruct (settleTurn_history outcome st) as (st'&E&H&Hn).
    exists (terminalEntry outcome), st'.
    split; [exact E|]. split; [apply terminalEntry_role|]. now split.
  - apply turn_alone.
  - intros host1 message1 host2 message2 st.
    destruct (beginTurn_history v host1 message1 st) as (full1&st1&E1&H1).
    destruct (beginTurn_history v host2 message2 st1) as (full2&st2&E2&H2).
    exists full1, full2.
    replace (after (beginTurn v host1 message1) st) with st1
      by (unfold after; now rewrite E1).
    replace (after (beginTurn v host2 message2) st1) with st2
      by (unfold after; now rewrite E2).
    rewrite H2, H1, <- app_assoc. reflexivity.
Qed.

(** The side panel opens and two messages arrive; the first call settles
    while the second is pending: the history of that state holds no two
    adjacent [loading] entries.  And a turn alone on an empty history with
    both surfaces live returns and leaves no [loading] entry. *)
Lemma C1_loading_discipline_witness :
  let host := Demo.host None [] (Demo.reply JNull) in
  let st :=
    after (settleTurn (Ok (lit "first")))
      (after (beginTurn Loja host (Demo.say "two"))
         (after (beginTurn Loja host (Demo.say "one"))
            (after (resolveWebviewView Loja) (initial Demo.disk)))) in
  adjacentLoading (_messageHistory st) = false
  /\ exists st',
       _handleUserMessage Loja host (Demo.say "hi") Demo.bothLive = (Ok tt, st')
       /\ noLoading (_messageHistory st') = true.
Proof.
  cbv zeta.
  destruct (C1_loading_discipline Loja) as (Hrun&_&_&_&Halone&_).
  split.
  - apply Hrun.
    eapply reach_step; [eapply reach_step; [eapply reach_step; [eapply reach_step|]|]|].
    + apply reach_initial.
    + apply step_resolveWebviewView.
    + apply step_begin.
    + apply step_begin.
    + exact (step_settle Loja (Ok (lit "first")) _).
  - destruct (Halone (Demo.host None [] (Demo.reply JNull)) (Demo.say "hi")
                Demo.bothLive eq_refl)
      as (full&t&st'&E&_&Hh&_&_&_&_&_&Hn).
    exists st'. split; [exact E|]. rewrite Hh. exact Hn.
Defined.

(** C1, as stated, fails — The side panel is open and a message arrives; its
    placeholder is appended and its call is pending.  A second message
    arrives: its placeholder is appended while the first is still in the
    history, which then holds two [loading] entries and is sent so to the
    side panel.  When the first call settles, both placeholders are removed
    and one [ai] entry is appended: the second turn's placeholder is gone
    though its call is still pending.  When the second call settles, a second
    terminal entry is appended and nothing is removed. *)
Lemma C1_counterexample :
  let host := Demo.host None [] (Demo.reply JNull) in
  let st0 := after (resolveWebviewView Loja) (initial Demo.disk) in
  let st1 := after (beginTurn Loja host (Demo.say "one")) st0 in
  let st2 := after (beginTurn Loja host (Demo.say "two")) st1 in
  let st3 := after (settleTurn (Ok (lit "first"))) st2 in
  let st4 := after (settleTurn (Ok (lit "second"))) st3 in
  reachable Loja st4
  /\ step Loja st0 st1 /\ step Loja st1 st2 /\ step Loja st2 st3
  /\ step Loja st3 st4
  /\ map role (_messageHistory st0) = []
  /\ map role (_messageHistory st1) = [user; loading]
  /\ map role (_messageHistory st2) = [user; loading; user; loading]
  /\ last (viewPosted st2) (history []) = history (_messageHistory st2)
  /\ _messageHistory st3
     = [mkMessage user (lit "one"); mkMessage user (lit "two");
        mkMessage ai (lit "first")]
  /\ _messageHistory st4
     = [mkMessage user (lit "one"); mkMessage user (lit "two");
        mkMessage ai (lit "first"); mkMessage ai (lit "second")].
Proof.
  cbv zeta.
  set (host := Demo.host None [] (Demo.reply JNull)).
  set (st0 := after (resolveWebviewView Loja) (initial Demo.disk)).
  set (st1 := after (beginTurn Loja host (Demo.say "one")) st0).
  set (st2 := after (beginTurn Loja host (Demo.say "two")) st1).
  set (st3 := after (settleTurn (Ok (lit "first"))) st2).
  assert (S0 : step Loja (initial Demo.disk) st0)
    by exact (step_resolveWebviewView Loja (initial Demo.disk)).
  assert (S1 : step Loja st0 st1) by exact (step_begin Loja host (Demo.say "one") st0).
  assert (S2 : step Loja st1 st2) by exact (step_begin Loja host (Demo.say "two") st1).
  assert (S3 : step Loja st2 st3) by exact (step_settle Loja (Ok (lit "first")) st2).
  assert (S4 : step Loja st3 (after (settleTurn (Ok (lit "second"))) st3))
    by exact (step_settle Loja (Ok (lit "second")) st3).
  split.
  { eapply reach_step; [|exact S4]. eapply reach_step; [|exact S3].
    eapply reach_step; [|exact S2]. eapply reach_step; [|exact S1].
    eapply reach_step; [|exact S0]. apply reach_initial. }
  repeat (split; [assumption|]).
  repeat split; vm_compute; reflexivity.
Qed.

(** ** The stored prompt *)

Lemma finalMessage_template message fullMessage refs :
  refs <> [] ->
  finalMessage message (fullMessage, refs) = template refs (text message).
Proof.
  intros Hne. unfold finalMessage, template, blankLine.
  destruct refs as [|item refs]; [congruence|].
  rewrite <- !app_assoc. reflexivity.
Qed.

(** C4 — When the resolution of a [userMessage] yields at least one context
    item, the [user] entry the turn leaves in the history is the template:
    the [Context:] section with every resolved item as a bolded icon and name
    followed by the fenced block of its content, joined by blank lines, then
    the [Question:] section with the text of the message as it was received
    (not the text in which markers were replaced). *)
Theorem C4_history_holds_template v host message st fullMessage refs st1 :
  resolve v host message st = (Ok (fullMessage, refs), st1) ->
  refs <> [] ->
  exists t st',
    _handleUserMessage v host message st = (Ok tt, st')
    /\ _messageHistory st' =
         filter notLoading (_messageHistory st)
         ++ [mkMessage user (template refs (text message)); t].
Proof.
  intros Hres Hne.
  destruct (turn_shape v host message st)
    as (r&st1'&st2&o&st3&st'&Hr&_&_&_&Eh&_&_&Hh&_).
  rewrite Hres in Hr. injection Hr as <- <-.
  exists (terminalEntry o), st'. split; [exact Eh|].
  rewrite Hh. now rewrite finalMessage_template.
Qed.

(** "fix [selection]" with [x=1] selected on line 3 of demo.ts. *)
Lemma C4_history_holds_template_witness :
  exists t st',
    _handleUserMessage Loja (Demo.host (Some Demo.editorSel) [] (Demo.reply JNull))
      (Demo.say "fix [selection]") Demo.bothLive = (Ok tt, st')
    /\ _messageHistory st' =
         [mkMessage user
            (template [mkItem icon_memo (Some (lit "demo.ts:3-3")) (Some (lit "x=1"))]
                      (lit "fix [selection]")); t].
Proof.
  apply (C4_history_holds_template Loja
           (Demo.host (Some Demo.editorSel) [] (Demo.reply JNull))
           (Demo.say "fix [selection]") Demo.bothLive
           (lit "fix **" ++ icon_memo ++ lit " demo.ts:3-3**")
           [mkItem icon_memo (Some (lit "demo.ts:3-3")) (Some (lit "x=1"))]
           Demo.bothLive).
  - vm_compute. reflexivity.
  - discriminate.
Defined.

(** ** Markers that do not resolve *)

Lemma indexOf_app_some p a b : exists i, indexOf p (a ++ p ++ b) = Some i.
Proof.
  induction a as [|c a [i IH]].
  - cbn [app]. destruct (p ++ b) eqn:E; cbn [indexOf];
      rewrite <- E, startsWith_app; eauto.
  - cbn [app indexOf]. destruct (startsWith p (c :: a ++ p ++ b)); eauto.
    rewrite IH. cbn. eauto.
Qed.

Lemma includes_app p a b : includes p (a ++ p ++ b) = true.
Proof. unfold includes. now destruct (indexOf_app_some p a b) as [i ->]. Qed.

Lemma replace_absent p r s : includes p s = false -> replace p r s = s.
Proof. unfold includes, replace. now destruct (indexOf p s). Qed.

(** The notice holds no [$], so it is inserted as it is. *)
Lemma noSelectionText_plain matched before after :
  getSubstitution matched before after noSelectionText = noSelectionText.
Proof. reflexivity. Qed.

Lemma replace_noSelection s :
  includes (lit "[selection]") s = true ->
  includes noSelectionText (replace (lit "[selection]") noSelectionText s) = true.
Proof.
  unfold includes at 1, replace.
  destruct (indexOf (lit "[selection]") s); [|discriminate].
  intros _. rewrite noSelectionText_plain. apply includes_app.
Qed.

Lemma resolveMarker_refs marker source otherwise full refs :
  snd (resolveMarker marker source otherwise (full, refs)) = []
  -> refs = []
     /\ fst (resolveMarker marker source otherwise (full, refs))
        = if includes marker full then otherwise full else full.
Proof.
  unfold resolveMarker. destruct (includes marker full);
    [destruct source|]; cbn [fst snd]; intros H; auto.
  now apply app_eq_nil in H as [_ H].
Qed.

Lemma resolveBubbles_refs host items :
  forall refs st refs' st1,
    resolveBubbles host items refs st = (Ok refs', st1) ->
    exists more, refs' = refs ++ more.
Proof.
  induction items as [|item rest IH]; intros refs st refs' st1; cbn [resolveBubbles].
  - intros [= <- _]. exists []. now rewrite app_nil_r.
  - destruct (Js.eqb (b_type item) (lit "file") && truthy (orDefault (b_path item) [])).
    + unfold bind.
      destruct (_handleAddFileToContext host (orDefault (b_path item) []) st)
        as [[[ctx|]|e] st0]; try discriminate.
      * intros H. apply IH in H as [more ->]. exists (ctx :: more).
        now rewrite <- app_assoc.
      * apply IH.
    + destruct (Js.eqb (b_type item) (lit "selection")); [|apply IH].
      intros H. apply IH in H as [more ->]. eexists.
      rewrite <- app_assoc. reflexivity.
Qed.

Lemma resolveInline_nil_refs refs :
  forall full items, snd (resolveInline refs (full, items)) = [] -> items = [].
Proof.
  induction refs as [|inlineRef rest IH]; [now intros full items H|].
  intros full items. cbn [resolveInline]. intros H.
  apply IH in H. now apply app_eq_nil in H as [H _].
Qed.

Lemma resolveInline_refs refs full items :
  snd (resolveInline refs (full, items)) = [] -> refs = [].
Proof.
  destruct refs as [|inlineRef rest]; [reflexivity|].
  cbn [resolveInline]. intros H.
  apply resolveInline_nil_refs in H. now apply app_eq_nil in H as [_ H].
Qed.

(** When nothing was resolved, the message is the text after the step of
    the [[selection]] marker, the other two markers left in place. *)
Lemma resolve_unresolved v host message st r st1 :
  resolve v host message st = (Ok r, st1) ->
  snd r = [] ->
  fst r = shownUnresolved v (text message).
Proof.
  unfold resolve, resolveMarkers.
  destruct (resolveMarker (lit "[selection]") (_getCurrentSelection host)
              (selectionMiss v) (text message, [])) as [m1 r1] eqn:E1.
  destruct (resolveMarker (lit "[file]") (_getCurrentFile host)
              (fun m => m) (m1, r1)) as [m2 r2] eqn:E2.
  destruct (resolveMarker (lit "[workspace]") (_getWorkspaceInfo host)
              (fun m => m) (m2, r2)) as [m3 r3] eqn:E3.
  unfold bind.
  destruct (resolveBubbles host (orNil (contextItems message)) r3 st)
    as [[refs'|e] st0] eqn:Eb; [|discriminate].
  intros [= <- _] Hnil.
  pose proof (resolveInline_refs _ _ _ Hnil) as Hin.
  pose proof (resolveInline_nil_refs _ _ _ Hnil) as Hrefs'.
  rewrite Hin. cbn [resolveInline fst].
  apply resolveBubbles_refs in Eb as [more Hmore].
  rewrite Hrefs' in Hmore. symmetry in Hmore.
  apply app_eq_nil in Hmore as [Hr3 _]. subst r3.
  pose proof (resolveMarker_refs (lit "[workspace]") (_getWorkspaceInfo host)
                (fun m => m) m2 r2) as H3.
  rewrite E3 in H3. destruct (H3 eq_refl) as [Hr2 Hm3]. cbn [fst] in Hm3.
  subst r2.
  pose proof (resolveMarker_refs (lit "[file]") (_getCurrentFile host)
                (fun m => m) m1 r1) as H2.
  rewrite E2 in H2. destruct (H2 eq_refl) as [Hr1 Hm2]. cbn [fst] in Hm2.
  subst r1.
  pose proof (resolveMarker_refs (lit "[selection]") (_getCurrentSelection host)
                (selectionMiss v) (text message) []) as H1.
  rewrite E1 in H1. destruct (H1 eq_refl) as [_ Hm1]. cbn [fst] in Hm1.
  assert (Hsame : forall (b : bool) (x : jsstring), (if b then x else x) = x)
    by now intros [|].
  rewrite Hm3, Hsame, Hm2, Hsame, Hm1.
  unfold shownUnresolved, selectionMiss. destruct v;
    destruct (includes (lit "[selection]") (text message)) eqn:Es;
    try reflexivity. now rewrite replace_absent.
Qed.

(** C3, as amended — The [user] entry a turn leaves in the history.  When
    the turn resolves no context item, it is: in part_000, the text with the
    first [[selection]] marker replaced by the notice that nothing is
    selected; in src/src/extension.ts, the text as it was received.  In both,
    a [[file]] or [[workspace]] marker that does not resolve stays in place
    and nothing is put in for it.  When the turn resolves an item, the entry
    is the context template around the text as received, so that it holds no
    notice either. *)
Theorem C3_unresolved_markers v host message st fullMessage refs st1 :
  resolve v host message st = (Ok (fullMessage, refs), st1) ->
  exists t st',
    _handleUserMessage v host message st = (Ok tt, st')
    /\ _messageHistory st' =
         filter notLoading (_messageHistory st)
         ++ [mkMessage user
               (match refs with
                | [] => shownUnresolved v (text message)
                | _ => template refs (text message)
                end); t]
    /\ (v = Loja ->
        includes (lit "[selection]") (text message) = true ->
        includes noSelectionText (shownUnresolved v (text message)) = true)
    /\ (v = AiCodingChat \/ includes (lit "[selection]") (text message) = false ->
        shownUnresolved v (text message) = text message).
Proof.
  intros Hres.
  destruct (turn_shape v host message st)
    as (r'&st1'&st2&o&st3&st'&Hr&_&_&_&Eh&_&_&Hh&_).
  rewrite Hres in Hr. injection Hr as <- <-.
  exists (terminalEntry o), st'. split; [exact Eh|].
  split.
  - rewrite Hh. destruct refs as [|item refs].
    + pose proof (resolve_unresolved v host message st _ _ Hres eq_refl) as Hfull.
      cbn [fst] in Hfull. unfold finalMessage. now rewrite Hfull.
    + now rewrite finalMessage_template.
  - split.
    + intros -> Hin. now apply replace_noSelection.
    + intros [->|Hout]; [reflexivity|].
      destruct v; [reflexivity|]. now apply replace_absent.
Qed.

(** "fix [selection] in [file]" with no editor open, in part_000. *)
Lemma C3_unresolved_markers_witness :
  exists t st',
    _handleUserMessage Loja (Demo.host None [] (Demo.reply JNull))
      (Demo.say "fix [selection] in [file]") Demo.bothLive = (Ok tt, st')
    /\ _messageHistory st' =
         [mkMessage user (lit "fix " ++ noSelectionText ++ lit " in [file]"); t].
Proof.
  destruct (C3_unresolved_markers Loja (Demo.host None [] (Demo.reply JNull))
              (Demo.say "fix [selection] in [file]") Demo.bothLive
              (lit "fix " ++ noSelectionText ++ lit " in [file]") []
              Demo.bothLive)
    as (t&st'&E&Hh&_).
  - vm_compute. reflexivity.
  - exists t, st'. split; [exact E|]. exact Hh.
Defined.

(** C3, as stated, fails — In part_000, with an editor open on demo.ts and
    nothing selected, the text "[selection] [file]" holds the marker and no
    selection resolves; the [user] entry left in the history does not hold the
    notice, and still holds the marker: the [[file]] marker resolved, so the
    entry is the template around the text as received. *)
Lemma C3_counterexample :
  let host := Demo.host (Some Demo.editor) [] (Demo.reply JNull) in
  let message := Demo.say "[selection] [file]" in
  includes (lit "[selection]") (text message) = true
  /\ _getCurrentSelection host = None
  /\ exists u t,
       _messageHistory (after (_handleUserMessage Loja host message) Demo.bothLive)
       = [u; t]
       /\ role u = user
       /\ includes noSelectionText (content u) = false
       /\ includes (lit "[selection]") (content u) = true.
Proof.
  cbv zeta. split; [reflexivity|]. split; [reflexivity|].
  eexists. eexists. split; [vm_compute; reflexivity|].
  split; [reflexivity|]. split; vm_compute; reflexivity.
Qed.

(** In src/src/extension.ts nothing is put in the place of an unresolved
    [[selection]]: the entry is the text as received. *)
Example selection_marker_left_in_place :
  _messageHistory
    (after (_handleUserMessage AiCodingChat (Demo.host None [] (Demo.reply JNull))
                               (Demo.say "fix [selection]"))
           Demo.bothLive)
  = [mkMessage user (lit "fix [selection]");
     mkMessage error
       (lit "Error: No OpenAI API key set. Please add it in the extension settings.")].
Proof. vm_compute. reflexivity. Qed.

(** ** Files attached as context *)

Lemma handleAddFileToContext_run host filePath st :
  _handleAddFileToContext host filePath st
  = (Ok (option_map (fileItem filePath) (files st filePath)),
     log_fs (FsRead filePath) st).
Proof.
  unfold _handleAddFileToContext, try_catch, bind, readFile, ret.
  destruct (files st filePath); reflexivity.
Qed.

(** C10 — [_handleAddFileToContext] returns, for a file that can be read,
    an item whose content is the first 2000 characters followed by a newline
    and [... (truncated)] when the file holds more than 2000 characters, and
    the whole content otherwise; for a file that cannot be read it returns
    [null].  A file bubble of a [userMessage] goes through the same function,
    and contributes nothing to the resolved items when it returns [null]. *)
Theorem C10_attached_file_truncated host filePath st :
  result (_handleAddFileToContext host filePath) st
  = Ok (match files st filePath with
        | Some content =>
            Some {| icon := icon_page;
                    name := Some (orElse (lastSegment filePath) (lit "unknown"));
                    itemContent :=
                      Some (if (2000 <? length content)%nat
                            then firstn 2000 content ++ NL ++ lit "... (truncated)"
                            else content) |}
        | None => None
        end)
  /\ forall bubble rest refs,
       b_type bubble = lit "file" ->
       b_path bubble = Some filePath ->
       truthy filePath = true ->
       resolveBubbles host (bubble :: rest) refs st
       = resolveBubbles host rest
           (match files st filePath with
            | Some content => refs ++ [fileItem filePath content]
            | None => refs
            end)
           (log_fs (FsRead filePath) st).
Proof.
  split.
  - unfold result. rewrite handleAddFileToContext_run. cbn [fst].
    now destruct (files st filePath).
  - intros bubble rest refs Ht Hp Hnz. cbn [resolveBubbles].
    assert (Hp' : orDefault (b_path bubble) [] = filePath).
    { rewrite Hp. cbn [orDefault]. unfold orElse. now rewrite Hnz. }
    rewrite Ht, Hp', Hnz, eqb_refl. cbn [andb]. unfold bind.
    rewrite handleAddFileToContext_run.
    now destruct (files st filePath).
Qed.

(** A bubble for a file that is not on the disk leaves the resolved items
    as they were. *)
Lemma C10_attached_file_truncated_witness :
  resolveBubbles (Demo.host None [] (Demo.reply JNull))
    [mkBubble (lit "file") (Some (lit "/ws/missing.ts")) None None None]
    [] Demo.bothLive
  = (Ok [], log_fs (FsRead (lit "/ws/missing.ts")) Demo.bothLive).
Proof.
  destruct (C10_attached_file_truncated (Demo.host None [] (Demo.reply JNull))
              (lit "/ws/missing.ts") Demo.bothLive) as [_ H].
  rewrite (H (mkBubble (lit "file") (Some (lit "/ws/missing.ts")) None None None)
             [] [] eq_refl eq_refl eq_refl).
  reflexivity.
Defined.

(** A file of 2001 characters is cut to 2000 and marked. *)
Example attached_file_cut :
  result (_handleAddFileToContext (Demo.host None [] (Demo.reply JNull))
                                  (lit "/ws/big.txt")) Demo.bothLive
  = Ok (Some (mkItem icon_page (Some (lit "big.txt"))
                (Some (repeat 97 2000 ++ NL ++ lit "... (truncated)")))).
Proof. vm_compute. reflexivity. Qed.

(** ** The commands [/read] and [/edit] *)

Lemma indexOf_prefix p s : indexOf p (p ++ s) = Some 0%nat.
Proof. destruct (p ++ s) eqn:E; cbn [indexOf]; now rewrite <- E, startsWith_app. Qed.

(** Removing the command word leaves its argument. *)
Lemma replace_prefix p s : replace p [] (p ++ s) = s.
Proof.
  unfold replace. rewrite indexOf_prefix. cbn [firstn getSubstitution app Nat.add].
  induction p as [|c p IH]; [reflexivity|exact IH].
Qed.

(** A path that fails the test is answered by the scoping error, and
    nothing is read. *)
Lemma handleReadFile_refused host filePath f st :
  firstFolder host = Some f ->
  startsWith (fsPath f) (path_resolve host (fsPath f) filePath) = false ->
  _handleReadFile host filePath st = (Ok readScopeError, st).
Proof. intros Hf Hs. unfold _handleReadFile. now rewrite Hf, Hs. Qed.

(** A path that fails the test is answered by the scoping error, and
    nothing is written. *)
Lemma handleEditFile_refused host filePath newContent f st :
  firstFolder host = Some f ->
  startsWith (fsPath f) (path_resolve host (fsPath f) filePath) = false ->
  _handleEditFile host filePath newContent st = (Ok editScopeError, st).
Proof. intros Hf Hs. unfold _handleEditFile. now rewrite Hf, Hs. Qed.

Lemma handleReadFile_run host filePath f content st :
  firstFolder host = Some f ->
  startsWith (fsPath f) (path_resolve host (fsPath f) filePath) = true ->
  files st (path_resolve host (fsPath f) filePath) = Some content ->
  _handleReadFile host filePath st
  = (Ok (if (4000 <? length content)%nat
         then tooLarge ++ NL ++ firstn 4000 content
         else fenced content),
     log_fs (FsRead (path_resolve host (fsPath f) filePath)) st).
Proof.
  intros Hf Hs Hc. unfold _handleReadFile. rewrite Hf, Hs. cbn [negb].
  unfold try_catch, bind, readFile. rewrite Hc.
  destruct (4000 <? length content)%nat; reflexivity.
Qed.

(** The spec's example: [/read ../outside.txt] with the workspace at [/ws]
    is refused, and the file system is not touched. *)
Example read_outside_refused :
  _callAI Loja (Demo.host None [] (Demo.reply JNull))
          (lit "/read ../outside.txt") false Demo.bothLive
  = (Ok readScopeError, Demo.bothLive).
Proof. reflexivity. Qed.

(** The spec's example: [/edit notes.md New content]. *)
Example edit_notes :
  let st' := after (_callAI Loja (Demo.host None [] (Demo.reply JNull))
                            (lit "/edit notes.md New content") false)
                   Demo.bothLive in
  files st' (lit "/ws/notes.md") = Some (lit "New content")
  /\ fsLog st' = [FsWrite (lit "/ws/notes.md") (lit "New content")].
Proof. split; reflexivity. Qed.

(** C2, on the code — With the workspace at [/ws], the path
    [../ws-evil/secret.txt] resolves to [/ws-evil/secret.txt], which is not
    within [/ws]; it starts with the characters [/ws], so the test of the
    handlers lets it through: [/read] reads the file and returns its
    content, [/edit] writes it. *)
Theorem C2_sibling_directory_escapes :
  let host := Demo.host None [] (Demo.reply JNull) in
  let abs := path_resolve host (lit "/ws") (lit "../ws-evil/secret.txt") in
  abs = lit "/ws-evil/secret.txt"
  /\ withinRoot (lit "/ws") abs = false
  /\ _callAI Loja host (lit "/read ../ws-evil/secret.txt") false Demo.bothLive
     = (Ok (fenced (lit "top secret")), log_fs (FsRead abs) Demo.bothLive)
  /\ _callAI Loja host (lit "/edit ../ws-evil/secret.txt x") false Demo.bothLive
     = (Ok (lit "File ../ws-evil/secret.txt updated successfully."),
        set_file abs (lit "x") (log_fs (FsWrite abs (lit "x")) Demo.bothLive)).
Proof. cbv zeta. repeat split; reflexivity. Qed.

(** A path within the root is never answered by the scoping error. *)
Lemma within_root_not_refused host filePath f st :
  firstFolder host = Some f ->
  withinRoot (fsPath f) (path_resolve host (fsPath f) filePath) = true ->
  result (_handleReadFile host filePath) st <> Ok readScopeError.
Proof.
  intros Hf Hw. apply withinRoot_startsWith in Hw.
  unfold result, _handleReadFile. rewrite Hf, Hw. cbn [negb].
  unfold try_catch, bind, readFile.
  destruct (files st _) as [content|]; cbn [fst].
  - destruct (4000 <? length content)%nat; cbn [fst]; intros [=].
  - intros [=].
Qed.

(** C7, as amended — [/read <path>] on a file of the workspace that can be
    read returns the content between two fences when it holds at most 4000
    characters, and otherwise the notice that the file is too large followed
    by a newline and the first 4000 characters, with no fence around them.
    The file is read once, and no request is sent to a provider. *)
Theorem C7_read_command v host st path f content includeContext :
  let absPath := path_resolve host (fsPath f) (trim path) in
  firstFolder host = Some f ->
  withinRoot (fsPath f) absPath = true ->
  files st absPath = Some content ->
  exists st',
    _callAI v host (lit "/read " ++ path) includeContext st
    = (Ok (if (4000 <? length content)%nat
           then tooLarge ++ NL ++ firstn 4000 content
           else fence ++ NL ++ content ++ NL ++ fence),
       st')
    /\ fsLog st' = fsLog st ++ [FsRead absPath]
    /\ fetched st' = fetched st.
Proof.
  cbv zeta. intros Hf Hw Hc. apply withinRoot_startsWith in Hw.
  exists (log_fs (FsRead (path_resolve host (fsPath f) (trim path))) st).
  split; [|split; reflexivity].
  unfold _callAI. rewrite startsWith_app, replace_prefix.
  now rewrite (handleReadFile_run host (trim path) f content st Hf Hw Hc).
Qed.

(** [/read notes.md] in the workspace [/ws]. *)
Lemma C7_read_command_witness :
  exists st',
    _callAI Loja (Demo.host None [] (Demo.reply JNull)) (lit "/read notes.md")
            false Demo.bothLive
    = (Ok (fence ++ NL ++ lit "hello" ++ NL ++ fence), st')
    /\ fsLog st' = [FsRead (lit "/ws/notes.md")]
    /\ fetched st' = [].
Proof.
  exact (C7_read_command Loja (Demo.host None [] (Demo.reply JNull)) Demo.bothLive
           (lit "notes.md") (mkFolder (lit "ws") (lit "/ws")) (lit "hello") false
           eq_refl eq_refl eq_refl).
Defined.

(** C7, as stated, fails — [/read big.txt] on a file of 4001 characters:
    the reply is the notice followed by the first 4000 characters, and it is
    not wrapped in a fenced block. *)
Lemma C7_counterexample :
  let reply := tooLarge ++ NL ++ repeat 97 4000 in
  result (_callAI Loja (Demo.host None [] (Demo.reply JNull)) (lit "/read big.txt") false)
         Demo.bothLive
  = Ok reply
  /\ ~ exists block, reply = fenced block.
Proof.
  cbv zeta. split; [vm_compute; reflexivity|].
  intros [block H]. discriminate H.
Qed.

(** ** The dispatcher *)

Lemma last_snoc_some {A} (l : list A) (x : A) :
  last (map Some (l ++ [x])) None = Some x.
Proof.
  induction l as [|a l IH]; [reflexivity|].
  cbn [app map]. cbn [last].
  destruct (map Some (l ++ [x])) eqn:E; [|exact IH].
  now destruct l.
Qed.

Lemma getWorkspaceContext_block host editor :
  activeTextEditor host = Some editor ->
  _getWorkspaceContext host = Some (currentContextBlock host editor).
Proof.
  intros He. unfold _getWorkspaceContext, currentContextBlock, workspaceNameOf.
  rewrite He. f_equal. cbn [join].
  destruct (isEmpty (selection editor)); cbn [negb];
    rewrite <- ?app_assoc; reflexivity.
Qed.

(** The provider the configuration names is the one the dispatcher calls;
    [gemini] is handed the text as it came. *)
Lemma callAI_dispatch v host userText includeContext p :
  notCommand userText = true ->
  config_get v host (lit "activeProvider") (lit "gpt") = providerId p ->
  _callAI v host userText includeContext
  = providerCall v host p
      (match p with
       | gemini => userText
       | _ =>
           if includeContext
           then match _getWorkspaceContext host with
                | Some block => withContext block userText
                | None => userText
                end
           else userText
       end).
Proof.
  unfold notCommand. intros Hn Hp.
  apply andb_true_iff in Hn as [Hr He].
  apply negb_true_iff in Hr, He.
  unfold _callAI. rewrite Hr, He, Hp. now destruct p.
Qed.

(** Without a credential a provider call throws before it does anything. *)
Lemma provider_missing_key v host p userText st :
  truthy (config_get v host (apiKeyName p) []) = false ->
  providerCall v host p userText st = (Throw (missingKey p), st).
Proof.
  intros Hk.
  destruct p; unfold providerCall, _callOpenAIGPT, _callClaudeStub, _callGrokStub,
    _callGeminiStub; rewrite Hk; reflexivity.
Qed.

(** With a credential, a provider call sends exactly one request, whose
    last message carries the text it was handed. *)
Lemma provider_sends v host p userText st :
  truthy (config_get v host (apiKeyName p) []) = true ->
  exists req,
    fetched (after (providerCall v host p userText) st) = fetched st ++ [req]
    /\ sentText req = Some userText.
Proof.
  intros Hk.
  destruct p;
    unfold providerCall, _callOpenAIGPT, _callClaudeStub, _callGrokStub,
      _callGeminiStub; rewrite Hk; cbn [negb];
    unfold exchange, after, bind, gets, doFetch;
    (eexists; split;
     [ match goal with
       | |- context [fetch host ?r] =>
           destruct (fetch host r) as [res|e]; cbn [snd];
           [destruct (negb (ok res)); cbn [snd];
            [reflexivity|
             unfold resJsonM; destruct (resJson res); cbn [snd];
             [unfold liftRes; cbn [snd]|]; reflexivity]
           |reflexivity]
       end
     | unfold sentText; cbn [body]; try apply (f_equal (option_map cm_content));
       try (rewrite last_snoc_some; reflexivity); reflexivity ]).
Qed.

(** C6, as amended — For a provider call with [includeContext] set and the
    provider [gpt], [claude] or [grok]: when an editor is active, the text
    sent is the Current Context block (workspace name, name and path of the
    active file, language id, and the range of selected lines if any),
    followed by the heading [**User Question:**] and the user's text; when no
    editor is active, the text sent is the user's text alone. *)
Theorem C6_context_block_prepended v host st userText p :
  p <> gemini ->
  notCommand userText = true ->
  config_get v host (lit "activeProvider") (lit "gpt") = providerId p ->
  truthy (config_get v host (apiKeyName p) []) = true ->
  exists req,
    fetched (after (_callAI v host userText true) st) = fetched st ++ [req]
    /\ sentText req
       = Some (match activeTextEditor host with
               | Some editor => withContext (currentContextBlock host editor) userText
               | None => userText
               end).
Proof.
  intros Hp Hn Hc Hk.
  rewrite (callAI_dispatch v host userText true p Hn Hc).
  destruct (activeTextEditor host) as [editor|] eqn:He.
  - rewrite (getWorkspaceContext_block host editor He).
    destruct (provider_sends v host p
                (withContext (currentContextBlock host editor) userText) st Hk)
      as (req&Hf&Hs).
    exists req. split; [|exact Hs]. destruct p; first [exact Hf | congruence].
  - unfold _getWorkspaceContext. rewrite He.
    destruct (provider_sends v host p userText st Hk) as (req&Hf&Hs).
    exists req. split; [|exact Hs]. destruct p; first [exact Hf | congruence].
Qed.

(** A question put to [claude] with [x=1] selected in demo.ts. *)
Lemma C6_context_block_prepended_witness :
  exists req,
    fetched (after (_callAI Loja
                      (Demo.host (Some Demo.editorSel)
                                 (providerSettings claude (lit "k"))
                                 (Demo.reply JNull))
                      (lit "hello") true) Demo.bothLive) = [req]
    /\ sentText req
       = Some (withContext
                 (currentContextBlock
                    (Demo.host (Some Demo.editorSel)
                               (providerSettings claude (lit "k"))
                               (Demo.reply JNull))
                    Demo.editorSel)
                 (lit "hello")).
Proof.
  apply (C6_context_block_prepended Loja
           (Demo.host (Some Demo.editorSel) (providerSettings claude (lit "k"))
                      (Demo.reply JNull))
           Demo.bothLive (lit "hello") claude).
  - discriminate.
  - reflexivity.
  - reflexivity.
  - reflexivity.
Defined.

(** C6, as stated, fails — With no editor open, a call to [gpt] that does
    not suppress the context sends the user's text alone: there is no
    Current Context block before it. *)
Lemma C6_counterexample :
  let host := Demo.host None (providerSettings gpt (lit "k")) (Demo.reply JNull) in
  exists req,
    fetched (after (_callAI Loja host (lit "hello") true) Demo.bothLive) = [req]
    /\ sentText req = Some (lit "hello")
    /\ includes (lit "**Current Context:**") (lit "hello") = false.
Proof.
  cbv zeta. eexists. split; [vm_compute; reflexivity|].
  split; reflexivity.
Qed.

(** The call to [gemini] is handed the user's text, not the enhanced one:
    with an editor open and the context not suppressed, no block is sent. *)
Example gemini_sent_without_block :
  let host := Demo.host (Some Demo.editorSel) (providerSettings gemini (lit "k"))
                        (Demo.reply JNull) in
  exists req,
    fetched (after (_callAI Loja host (lit "hello") true) Demo.bothLive) = [req]
    /\ sentText req = Some (lit "hello").
Proof. cbv zeta. eexists. split; [vm_compute; reflexivity|reflexivity]. Qed.

(** ** A missing credential *)

Lemma resolveBubbles_fetched host items :
  forall refs st r st1,
    resolveBubbles host items refs st = (r, st1) -> fetched st1 = fetched st.
Proof.
  induction items as [|item rest IH]; intros refs st r st1; cbn [resolveBubbles].
  - now intros [= _ <-].
  - destruct (Js.eqb (b_type item) (lit "file") && truthy (orDefault (b_path item) [])).
    + unfold bind. rewrite handleAddFileToContext_run.
      destruct (option_map _ _); intros H; apply IH in H; exact H.
    + destruct (Js.eqb (b_type item) (lit "selection")); apply IH.
Qed.

Lemma resolve_fetched v host message st r st1 :
  resolve v host message st = (r, st1) -> fetched st1 = fetched st.
Proof.
  unfold resolve. destruct (resolveMarkers v host (text message, [])) as [full refs].
  unfold bind.
  destruct (resolveBubbles host (orNil (contextItems message)) refs st)
    as [[refs'|e] st0] eqn:E; intros [= _ <-];
    eapply resolveBubbles_fetched; eauto.
Qed.

(** C8 — For each of the four providers: when the configuration selects it
    and its credential is empty or absent, a turn whose prompt is not a
    [/read] or [/edit] command ends normally; the call has thrown the error
    that names the provider, the history ends with the [user] entry and one
    [error] entry carrying that message, and no request has been sent. *)
Theorem C8_missing_credential v host message st p full :
  config_get v host (lit "activeProvider") (lit "gpt") = providerId p ->
  truthy (config_get v host (apiKeyName p) []) = false ->
  result (beginTurn v host message) st = Ok full ->
  notCommand full = true ->
  exists st',
    _handleUserMessage v host message st = (Ok tt, st')
    /\ _messageHistory st' =
         filter notLoading (_messageHistory st)
         ++ [ mkMessage user full;
              mkMessage error
                (lit "Error: No " ++ providerName p
                 ++ lit " API key set. Please add it in the extension settings.") ]
    /\ fetched st' = fetched st.
Proof.
  intros Hc Hk Hb Hn.
  destruct (turn_shape v host message st)
    as (r&st1&st2&o&st3&st'&Hr&_&Eb&Ec&Eh&_&_&Hh&_&_&Hf&_).
  unfold result in Hb. rewrite Eb in Hb. injection Hb as Hb. rewrite Hb in *.
  rewrite (callAI_dispatch v host full false p Hn Hc) in Ec.
  replace (match p with gemini => full | _ => full end) with full in Ec
    by now destruct p.
  rewrite (provider_missing_key v host p full st2 Hk) in Ec.
  injection Ec as <- <-.
  exists st'. split; [exact Eh|]. split; [exact Hh|].
  rewrite Hf.
  destruct (beginTurn_shape v host message st r st1 Hr)
    as (st2'&Eb'&_&_&_&_&_&Hf2&_).
  { destruct (resolve_ok v host message st) as (r'&st1'&Hr'&Hs').
    rewrite Hr in Hr'. now injection Hr' as <- <-. }
  rewrite Hb in Eb'. rewrite Eb in Eb'. injection Eb' as <-.
  rewrite Hf2. eapply resolve_fetched; eauto.
Qed.

(** "hi" with [claude] selected and no credential set. *)
Lemma C8_missing_credential_witness :
  exists st',
    _handleUserMessage Loja
      (Demo.host None [(lit "loja.activeProvider", lit "claude")] (Demo.reply JNull))
      (Demo.say "hi") Demo.bothLive = (Ok tt, st')
    /\ _messageHistory st' =
         [ mkMessage user (lit "hi");
           mkMessage error
             (lit "Error: No Claude API key set. Please add it in the extension settings.") ]
    /\ fetched st' = [].
Proof.
  exact (C8_missing_credential Loja
           (Demo.host None [(lit "loja.activeProvider", lit "claude")] (Demo.reply JNull))
           (Demo.say "hi") Demo.bothLive claude (lit "hi")
           eq_refl eq_refl eq_refl eq_refl).
Defined.

(** ** What the detachable panel is told *)

Lemma panelSilent_quiet {A} (m : M A) : quiet m -> panelSilent m.
Proof. intros Hq st. destruct (Hq st) as (_&_&_&_&H). now rewrite H. Qed.

Lemma panelSilent_bind {A B} (m : M A) (k : A -> M B) :
  panelSilent m -> (forall a, panelSilent (k a)) -> panelSilent (bind m k).
Proof.
  intros Hm Hk st. unfold after, bind.
  specialize (Hm st). unfold after in Hm.
  destruct (m st) as [[a|e] st1]; cbn [snd] in *; [|assumption].
  rewrite <- Hm. apply Hk.
Qed.

Lemma panelSilent_push m : panelSilent (push m).
Proof. intros st. reflexivity. Qed.

Lemma panelSilent_postMessageHistory : panelSilent _postMessageHistory.
Proof.
  intros st. unfold after, _postMessageHistory, modify. cbn [snd].
  now destruct (_view st).
Qed.

Lemma panelSilent_push_post m : panelSilent (push m ;;; _postMessageHistory).
Proof.
  apply panelSilent_bind; [apply panelSilent_push|].
  intros _. apply panelSilent_postMessageHistory.
Qed.

Lemma panelSilent_notice c : panelSilent (notice c).
Proof. apply panelSilent_push_post. Qed.

Lemma panelSilent_sendCurrentFile host : panelSilent (_handleSendCurrentFile host).
Proof.
  unfold _handleSendCurrentFile.
  destruct (activeTextEditor host);
    [apply panelSilent_push_post|apply panelSilent_notice].
Qed.

Lemma panelSilent_sendSelection host : panelSilent (_handleSendSelection host).
Proof.
  unfold _handleSendSelection.
  destruct (activeTextEditor host); [|apply panelSilent_notice].
  destruct (negb _); [apply panelSilent_notice|apply panelSilent_push_post].
Qed.

Lemma panelSilent_sendWorkspaceInfo host : panelSilent (_handleSendWorkspaceInfo host).
Proof.
  unfold _handleSendWorkspaceInfo.
  destruct (firstFolder host); [|apply panelSilent_notice].
  destruct (workspaceStructure _ _ _);
    [apply panelSilent_push_post|apply panelSilent_notice].
Qed.

Lemma panelSilent_applyInline host target codeBlock :
  panelSilent (_handleApplyInline host target codeBlock).
Proof.
  unfold _handleApplyInline.
  destruct (activeTextEditor host); [|apply panelSilent_notice].
  match goal with
  | |- panelSilent (let '(_, _) := ?p in _) => destruct p as [range oldText]
  end.
  apply panelSilent_bind; [apply panelSilent_quiet, quiet_modify_log_edit|intros _].
  apply panelSilent_bind; [apply panelSilent_push|intros _].
  apply panelSilent_bind; [apply panelSilent_postMessageHistory|intros _].
  apply panelSilent_quiet, quiet_register.
Qed.

Lemma panelSilent_previewEdit host filePath newContent choice :
  panelSilent (_showPreviewAndApply host filePath newContent choice).
Proof.
  unfold _showPreviewAndApply, _showDiff.
  destruct choice as [[| |]|]; try solve [apply panelSilent_quiet; quiet_tac].
  apply panelSilent_bind; [apply panelSilent_quiet; quiet_tac|].
  intros result. apply panelSilent_push_post.
Qed.

(** C5, on the code — The handlers of [sendCurrentFile], [sendSelection],
    [sendWorkspaceInfo], [applyInline] and of the preview's Apply append to
    the history and post it to the side panel only: whatever the state, the
    detachable panel is sent nothing.  With both surfaces live and demo.ts
    open, [sendCurrentFile] appends a [user] entry, the side panel is sent
    the new history, and the detachable panel is sent nothing. *)
Theorem C5_panel_not_told :
  (forall host st,
      panelPosted (after (_handleSendCurrentFile host) st) = panelPosted st
      /\ panelPosted (after (_handleSendSelection host) st) = panelPosted st
      /\ panelPosted (after (_handleSendWorkspaceInfo host) st) = panelPosted st)
  /\ (forall host target codeBlock st,
         panelPosted (after (_handleApplyInline host target codeBlock) st)
         = panelPosted st)
  /\ (forall host filePath newContent choice st,
         panelPosted (after (_showPreviewAndApply host filePath newContent choice) st)
         = panelPosted st)
  /\ let st' := after (_handleSendCurrentFile
                         (Demo.host (Some Demo.editor) [] (Demo.reply JNull)))
                      Demo.bothLive in
     _panel st' = true
     /\ length (_messageHistory st') = 1%nat
     /\ viewPosted st' = [history (_messageHistory st')]
     /\ panelPosted st' = [].
Proof.
  split; [|split; [|split]].
  - intros host st. repeat split.
    + apply panelSilent_sendCurrentFile.
    + apply panelSilent_sendSelection.
    + apply panelSilent_sendWorkspaceInfo.
  - intros. apply panelSilent_applyInline.
  - intros. apply panelSilent_previewEdit.
  - cbv zeta. repeat split; reflexivity.
Qed.

(** The handler of [userMessage] does what the others leave out: with the
    panel live, every history of the turn reaches it. *)
Example userMessage_tells_panel :
  length (panelPosted
            (after (_handleUserMessage Loja (Demo.host None [] (Demo.reply JNull))
                                       (Demo.say "hi")) Demo.bothLive)) = 3%nat.
Proof. reflexivity. Qed.

(** ** Envelopes without the text *)

(** An object without the first field the parser reads gives the
    fallback. *)
Lemma parse_missing_field p fields :
  field (envelopeKey p) fields = None ->
  parseFor p (JObj fields) = Ok noResponse.
Proof.
  intros H.
  destruct p; unfold parseFor, parseChoices, parseClaude, parseGemini, data_member,
    member, envelopeKey in *; rewrite H; reflexivity.
Qed.

(** What a parser returns is never the empty string. *)
Lemma parse_never_empty p data s : parseFor p data = Ok s -> truthy s = true.
Proof.
  assert (Hor : forall t, truthy (orDefault t noResponse) = true).
  { intros [t|]; [|reflexivity]. unfold orDefault, orElse.
    destruct (truthy t) eqn:E; [exact E|reflexivity]. }
  destruct p; unfold parseFor, parseChoices, parseClaude, parseGemini, bindRes;
    (destruct (data_member _ data) as [x|]; [|discriminate]);
    (destruct (opt_trim _) as [t|]; [|discriminate]);
    intros [= <-]; apply Hor.
Qed.

(** A text that is empty once trimmed gives the fallback. *)
Example blank_text_gives_fallback :
  parseFor gpt (Demo.gptReply (lit "   ")) = Ok noResponse
  /\ parseFor gpt (JObj [(lit "choices", JArr [])]) = Ok noResponse
  /\ parseFor claude (JObj [(lit "content", JArr [JObj [(lit "text", JNull)]])])
     = Ok noResponse
  /\ parseFor gemini (JObj []) = Ok noResponse.
Proof. repeat split; reflexivity. Qed.

(** C9, on the code — For each of the four providers, a response with
    [ok] set whose body parses to [null] holds no text field; the parser
    reads its first property off [null], which raises a [TypeError]: the call
    throws instead of returning [[No response]], and the turn ends with an
    [error] entry.  The same happens to [gpt] when the field is a number. *)
Theorem C9_null_envelope_raises p :
  let host := Demo.host None (providerSettings p (lit "k")) (Demo.reply JNull) in
  result (_callAI Loja host (lit "hi") false) Demo.bothLive
  = Throw (typeError (lit "Cannot read properties of null (reading '"
                        ++ envelopeKey p ++ lit "')"))
  /\ _messageHistory (after (_handleUserMessage Loja host (Demo.say "hi")) Demo.bothLive)
     = [ mkMessage user (lit "hi");
         mkMessage error (lit "Error: Cannot read properties of null (reading '"
                            ++ envelopeKey p ++ lit "')") ]
  /\ parseFor gpt
       (JObj [(lit "choices",
               JArr [JObj [(lit "message", JObj [(lit "content", JNum 42)])]])])
     = Throw (typeError
                (lit "data.choices?.[0]?.message?.content?.trim is not a function")).
Proof. cbv zeta. destruct p; repeat split; vm_compute; reflexivity. Qed.

(** ** The string functions on examples *)

Example lit_ok : lit "[file]" = [91; 102; 105; 108; 101; 93].
Proof. reflexivity. Qed.

Example replace_first_only :
  replace (lit "[file]") (lit "X") (lit "a [file] b [file]") = lit "a X b [file]".
Proof. reflexivity. Qed.

Example replace_dollar :
  replace (lit "b") (lit "<$&$$$`$'$1>") (lit "abc") = lit "a<b$ac$1>c".
Proof. reflexivity. Qed.

Example trim_ok : trim (lit "  a b ") = lit "a b".
Proof. reflexivity. Qed.

Example ofNumber_ok : ofNumber 0 = lit "0" /\ ofNumber 120 = lit "120" /\ ofNumber 9 = lit "9".
Proof. repeat split; reflexivity. Qed.

Example posix_resolve_examples :
  Posix.resolve (lit "/home") (lit "/ws") (lit "a/./b/../c.txt") = lit "/ws/a/c.txt"
  /\ Posix.resolve (lit "/home") (lit "/ws") (lit "../outside.txt") = lit "/outside.txt"
  /\ Posix.resolve (lit "/home") (lit "/ws") (lit "/etc/passwd") = lit "/etc/passwd"
  /\ Posix.resolve (lit "/home") (lit "/ws") (lit "../../..") = lit "/"
  /\ Posix.resolve (lit "/home") (lit "/ws/") [] = lit "/ws".
Proof. repeat split; reflexivity. Qed.

Example parseChoices_ok :
  parseChoices (JObj [(lit "choices",
     JArr [JObj [(lit "message", JObj [(lit "content", JStr (lit " hi "))])]])])
  = Ok (lit "hi").
Proof. reflexivity. Qed.

Example lastSegment_ok :
  lastSegment (lit "/ws/src/demo.ts") = lit "demo.ts" /\ lastSegment (lit "/ws/") = [].
Proof. split; reflexivity. Qed.

(** * Further properties *)

(** ** What the history keeps *)

Lemma keeps_quiet {A} (m : M A) : quiet m -> keeps m.
Proof.
  intros Hq st. destruct (Hq st) as (_&_&Hh&_). exists [].
  now rewrite <- Hh, app_nil_r.
Qed.

Lemma keeps_bind {A B} (m : M A) (k : A -> M B) :
  keeps m -> (forall a, keeps (k a)) -> keeps (bind m k).
Proof.
  intros Hm Hk st. unfold after, bind.
  destruct (Hm st) as [l1 H1]. unfold after in H1.
  destruct (m st) as [[a|e] st1]; cbn [snd] in *; [|now exists l1].
  destruct (Hk a st1) as [l2 H2]. unfold after in H2.
  exists (l1 ++ l2). now rewrite H2, H1, app_assoc.
Qed.

Lemma keeps_push m : keeps (push m).
Proof.
  intros st. exists (lasting [m]). unfold after, push, modify, lasting.
  cbn [snd]. destruct st; cbn. apply filter_app.
Qed.

Lemma keeps_postMessageHistory : keeps _postMessageHistory.
Proof.
  intros st. exists []. unfold after, _postMessageHistory, modify. cbn [snd].
  rewrite app_nil_r. now destruct st as [[|] ? ? ? ? ? ? ? ? ?].
Qed.

Lemma keeps_postMessageHistoryToPanel : keeps _postMessageHistoryToPanel.
Proof.
  intros st. exists []. unfold after, _postMessageHistoryToPanel, modify. cbn [snd].
  rewrite app_nil_r. now destruct st as [? [|] ? ? ? ? ? ? ? ?].
Qed.

Lemma keeps_push_post m : keeps (push m ;;; _postMessageHistory).
Proof.
  apply keeps_bind; [apply keeps_push|]. intros _. apply keeps_postMessageHistory.
Qed.

Lemma keeps_same {A} (m : M A) :
  (forall st, _messageHistory (after m st) = _messageHistory st) -> keeps m.
Proof. intros H st. exists []. now rewrite H, app_nil_r. Qed.

Lemma keeps_beginTurn v host message : keeps (beginTurn v host message).
Proof.
  intros st.
  destruct (resolve_ok v host message st) as (r&st1&Hr&Hs).
  destruct (beginTurn_shape v host message st r st1 Hr Hs)
    as (st2&Eb&_&_&Hh&_).
  unfold after. rewrite Eb. cbn [snd]. rewrite Hh.
  exists [mkMessage user (finalMessage message r)].
  unfold lasting. now apply filter_notLoading_turn.
Qed.

Lemma lasting_lasting h : lasting (lasting h) = lasting h.
Proof.
  unfold lasting. induction h as [|m h IH]; [reflexivity|].
  cbn [filter]. destruct (notLoading m) eqn:E; [|exact IH].
  cbn [filter]. now rewrite E, IH.
Qed.

Lemma keeps_settleTurn outcome : keeps (settleTurn outcome).
Proof.
  intros st.
  destruct (settleTurn_shape outcome st) as (st'&Es&_&_&Sh&_).
  unfold after. rewrite Es. cbn [snd]. rewrite Sh.
  exists [terminalEntry outcome].
  unfold lasting at 1. rewrite filter_app. fold (lasting (_messageHistory st)).
  fold (lasting (lasting (_messageHistory st))). rewrite lasting_lasting.
  f_equal. cbn [filter]. now rewrite terminalEntry_notLoading.
Qed.

Lemma keeps_step v st st' :
  step v st st' ->
  exists more, lasting (_messageHistory st') = lasting (_messageHistory st) ++ more.
Proof.
  intros Hstep. destruct Hstep.
  - apply keeps_beginTurn.
  - apply keeps_quiet, quiet_callAI.
  - apply keeps_settleTurn.
  - unfold _handleSendCurrentFile.
    destruct (activeTextEditor host); apply keeps_push_post.
  - unfold _handleSendSelection.
    destruct (activeTextEditor host); [|apply keeps_push_post].
    destruct (negb _); apply keeps_push_post.
  - unfold _handleSendWorkspaceInfo.
    destruct (firstFolder host); [|apply keeps_push_post].
    destruct (workspaceStructure _ _ _); apply keeps_push_post.
  - unfold _showPreviewAndApply, _showDiff.
    destruct choice as [[| |]|]; try solve [apply keeps_quiet; quiet_tac].
    apply keeps_bind; [apply keeps_quiet; quiet_tac|].
    intros result. apply keeps_push_post.
  - unfold _handleApplyInline.
    destruct (activeTextEditor host); [|apply keeps_push_post].
    match goal with
    | |- context [let '(_, _) := ?p in _] => destruct p as [range oldText]
    end.
    apply keeps_bind; [apply keeps_quiet, quiet_modify_log_edit|intros _].
    apply keeps_bind; [apply keeps_push|intros _].
    apply keeps_bind; [apply keeps_postMessageHistory|intros _].
    apply keeps_quiet, quiet_register.
  - apply keeps_quiet, quiet_handleAddFileToContext.
  - apply keeps_postMessageHistory.
  - apply keeps_postMessageHistoryToPanel.
  - unfold resolveWebviewView. apply keeps_bind.
    + apply keeps_same. reflexivity.
    + intros _. destruct v; [apply keeps_push_post|apply keeps_quiet, quiet_ret].
  - unfold openChatPanel. apply keeps_bind; [apply keeps_quiet, quiet_gets|].
    intros st0. destruct (_panel st0); [apply keeps_quiet, quiet_ret|].
    apply keeps_bind; [apply keeps_same; reflexivity|intros _].
    apply keeps_bind; [apply keeps_postMessageHistoryToPanel|intros _].
    apply keeps_postMessageHistoryToPanel.
  - apply keeps_quiet, quiet_modify_log_edit.
  - apply keeps_push_post.
  - exists []. now rewrite app_nil_r.
Qed.

(** X1 — Whatever handler runs, the undo listener included, the entries of
    the history that are not [loading] placeholders stay, in their order and
    at the front: a step only ever adds entries after them.  Only
    placeholders are ever removed. *)
Theorem history_only_loses_placeholders v st st' :
  step v st st' ->
  exists more,
    filter notLoading (_messageHistory st')
    = filter notLoading (_messageHistory st) ++ more.
Proof. apply keeps_step. Qed.

(** The settling of a turn on a history with a [system] entry and a
    placeholder. *)
Lemma history_only_loses_placeholders_witness :
  exists more,
    filter notLoading
      (_messageHistory
         (after (settleTurn (Ok (lit "done")))
                (set_history [mkMessage system (lit "hello"); thinking] Demo.bothLive)))
    = [mkMessage system (lit "hello")] ++ more.
Proof.
  exact (history_only_loses_placeholders Loja _ _
           (step_settle Loja (Ok (lit "done"))
              (set_history [mkMessage system (lit "hello"); thinking] Demo.bothLive))).
Defined.

(** ** The commands, whatever happens *)

(** [_handleReadFile] always returns a text; it shows nothing to the
    surfaces, sends no request and writes no file. *)
Lemma handleReadFile_returns host filePath st :
  exists reply st1,
    _handleReadFile host filePath st = (Ok reply, st1)
    /\ sameSurfaces st st1 /\ fetched st1 = fetched st /\ files st1 = files st.
Proof.
  unfold _handleReadFile.
  destruct (firstFolder host) as [f|];
    [|do 2 eexists; split; [reflexivity|]; repeat split].
  destruct (negb _); [do 2 eexists; split; [reflexivity|]; repeat split|].
  unfold try_catch, bind, readFile, ret.
  destruct (files st _) as [content|] eqn:E.
  - destruct (4000 <? length content)%nat;
      do 2 eexists; (split; [reflexivity|]); repeat split.
  - do 2 eexists. split; [reflexivity|]. repeat split.
Qed.

(** [_handleEditFile] always returns a text; it shows nothing to the
    surfaces and sends no request. *)
Lemma handleEditFile_returns host filePath newContent st :
  exists reply st1,
    _handleEditFile host filePath newContent st = (Ok reply, st1)
    /\ sameSurfaces st st1 /\ fetched st1 = fetched st.
Proof.
  unfold _handleEditFile.
  destruct (firstFolder host) as [f|];
    [|do 2 eexists; split; [reflexivity|]; repeat split].
  destruct (negb _); [do 2 eexists; split; [reflexivity|]; repeat split|].
  unfold try_catch, bind, writeFile, ret.
  destruct (writeError host _) as [e|];
    do 2 eexists; (split; [reflexivity|]); repeat split.
Qed.

Lemma push_post_one m st :
  _messageHistory (after (push m ;;; _postMessageHistory) st)
  = _messageHistory st ++ [m].
Proof.
  unfold after, bind, push, _postMessageHistory, modify.
  destruct st as [[|] ? ? ? ? ? ? ? ? ?]; reflexivity.
Qed.

(** X2 — The commands that answer without a provider each append exactly
    one entry to the history, in every state of the editor.
    [sendCurrentFile] appends a [user] entry when an editor is open and the
    notice [No file is currently open.] otherwise; [sendSelection] appends a
    [user] entry when an editor is open and the selected text is not empty,
    and otherwise the notice that no file is open or that no text is
    selected; [sendWorkspaceInfo] appends a [user] entry when a workspace is
    open and its files can be listed, and otherwise a notice.  Applying a
    suggestion and applying a previewed edit each append one [system]
    entry. *)
Theorem side_commands_append_one_entry host st :
  (exists m,
      _messageHistory (after (_handleSendCurrentFile host) st)
      = _messageHistory st ++ [m]
      /\ match activeTextEditor host with
         | Some _ => role m = user
         | None => m = mkMessage system (lit "No file is currently open.")
         end)
  /\ (exists m,
         _messageHistory (after (_handleSendSelection host) st)
         = _messageHistory st ++ [m]
         /\ match activeTextEditor host with
            | Some editor =>
                if truthy (selectedText editor) then role m = user
                else m = mkMessage system (lit "No text is selected.")
            | None => m = mkMessage system (lit "No file is currently open.")
            end)
  /\ (exists m,
         _messageHistory (after (_handleSendWorkspaceInfo host) st)
         = _messageHistory st ++ [m]
         /\ match firstFolder host with
            | Some folder =>
                match workspaceStructure host 20 (fsPath folder) with
                | Ok _ => role m = user
                | Throw e =>
                    m = mkMessage system
                          (lit "Could not read workspace structure: " ++ errToString e)
                end
            | None => m = mkMessage system (lit "No workspace folder is open.")
            end)
  /\ (forall target codeBlock, exists m,
         _messageHistory (after (_handleApplyInline host target codeBlock) st)
         = _messageHistory st ++ [m]
         /\ role m = system)
  /\ (forall filePath newContent, exists m,
         _messageHistory
           (after (_showPreviewAndApply host filePath newContent (Some Apply)) st)
         = _messageHistory st ++ [m]
         /\ m = mkMessage system
                  (match result (_handleEditFile host filePath newContent) st with
                   | Ok reply => reply
                   | Throw _ => []
                   end)).
Proof.
  split; [|split; [|split; [|split]]].
  - unfold _handleSendCurrentFile, notice.
    destruct (activeTextEditor host); eexists;
      (split; [apply push_post_one|reflexivity]).
  - unfold _handleSendSelection, notice.
    destruct (activeTextEditor host) as [editor|];
      [destruct (truthy (selectedText editor)); cbn [negb]|];
      eexists; (split; [apply push_post_one|reflexivity]).
  - unfold _handleSendWorkspaceInfo, notice.
    destruct (firstFolder host) as [folder|];
      [destruct (workspaceStructure host 20 (fsPath folder))|];
      eexists; (split; [apply push_post_one|reflexivity]).
  - intros target codeBlock. unfold _handleApplyInline, notice.
    destruct (activeTextEditor host) as [editor|];
      [|eexists; split; [apply push_post_one|reflexivity]].
    match goal with
    | |- context [let '(_, _) := ?p in _] => destruct p as [range oldText]
    end.
    eexists. split;
      [ unfold after, bind, push, _postMessageHistory, modify;
        destruct st as [[|] ? ? ? ? ? ? ? ? ?]; reflexivity
      | reflexivity ].
  - intros filePath newContent. unfold _showPreviewAndApply.
    destruct (handleEditFile_returns host filePath newContent st)
      as (reply&st1&E&(_&_&Hh&_)&_).
    exists (mkMessage system reply). split.
    + unfold after. rewrite (bind_ok _ _ _ _ _ E).
      fold (after (push (mkMessage system reply) ;;; _postMessageHistory) st1).
      now rewrite push_post_one, Hh.
    + unfold result. now rewrite E.
Qed.

(** ** Turns that overlap *)

(** X3 — Two turns in flight at once.  A [userMessage] arrives and its call
    starts; a second one arrives and its call starts while the first is
    pending; then the first call settles, then the second.  When the first
    settles, both placeholders go, though the second call is still pending;
    the two terminal entries come after both questions, in the order in which
    the calls settled. *)
Theorem overlapping_turns v host1 host2 message1 message2 text1 text2
    outcome1 outcome2 st :
  let st1 := after (_callAI v host1 text1 false)
                   (after (beginTurn v host1 message1) st) in
  let st2 := after (_callAI v host2 text2 false)
                   (after (beginTurn v host2 message2) st1) in
  let st3 := after (settleTurn outcome1) st2 in
  let st4 := after (settleTurn outcome2) st3 in
  exists u1 u2,
    role u1 = user /\ role u2 = user
    /\ _messageHistory st2 = _messageHistory st ++ [u1; thinking; u2; thinking]
    /\ _messageHistory st3
       = filter notLoading (_messageHistory st) ++ [u1; u2; terminalEntry outcome1]
    /\ _messageHistory st4
       = filter notLoading (_messageHistory st)
         ++ [u1; u2; terminalEntry outcome1; terminalEntry outcome2].
Proof.
  cbv zeta.
  destruct (resolve_ok v host1 message1 st) as (r1&s1&Hr1&Hs1).
  destruct (beginTurn_shape v host1 message1 st r1 s1 Hr1 Hs1)
    as (st1&E1&_&_&H1&_).
  replace (after (beginTurn v host1 message1) st) with st1
    by (unfold after; now rewrite E1).
  destruct (quiet_callAI v host1 text1 false st1) as (_&_&C1&_).
  remember (after (_callAI v host1 text1 false) st1) as st1c.
  destruct (resolve_ok v host2 message2 st1c) as (r2&s2&Hr2&Hs2).
  destruct (beginTurn_shape v host2 message2 st1c r2 s2 Hr2 Hs2)
    as (st2&E2&_&_&H2&_).
  replace (after (beginTurn v host2 message2) st1c) with st2
    by (unfold after; now rewrite E2).
  destruct (quiet_callAI v host2 text2 false st2) as (_&_&C2&_).
  remember (after (_callAI v host2 text2 false) st2) as st2c.
  destruct (settleTurn_shape outcome1 st2c) as (st3&E3&_&_&H3&_).
  replace (after (settleTurn outcome1) st2c) with st3
    by (unfold after; now rewrite E3).
  destruct (settleTurn_shape outcome2 st3) as (st4&E4&_&_&H4&_).
  replace (after (settleTurn outcome2) st3) with st4
    by (unfold after; now rewrite E4).
  exists (mkMessage user (finalMessage message1 r1)),
         (mkMessage user (finalMessage message2 r2)).
  assert (F2 : _messageHistory st2c
               = _messageHistory st
                 ++ [mkMessage user (finalMessage message1 r1); thinking;
                     mkMessage user (finalMessage message2 r2); thinking]).
  { rewrite <- C2, H2, <- C1, H1, <- app_assoc. reflexivity. }
  assert (F3 : _messageHistory st3
               = filter notLoading (_messageHistory st)
                 ++ [mkMessage user (finalMessage message1 r1);
                     mkMessage user (finalMessage message2 r2);
                     terminalEntry outcome1]).
  { rewrite H3, F2, filter_app, <- app_assoc. reflexivity. }
  repeat split; auto.
  rewrite H4, F3, filter_app.
  fold (lasting (_messageHistory st)). fold (lasting (lasting (_messageHistory st))).
  rewrite lasting_lasting, <- app_assoc. f_equal.
  cbn [filter]. unfold notLoading at 1 2. cbn [role Role_eqb negb].
  now rewrite terminalEntry_notLoading.
Qed.

(** X4 — From the controller as constructed, along any sequence of events
    (turns that begin, calls, turns that settle in any order, commands, the
    undo listener, surfaces that open and close), the history never holds
    two adjacent [loading] entries, and neither does any history that was
    sent to the side panel or to the detachable panel. *)
Theorem no_adjacent_loading_ever v st :
  reachable v st ->
  adjacentLoading (_messageHistory st) = false
  /\ (forall h, In (history h) (viewPosted st) -> adjacentLoading h = false)
  /\ (forall h, In (history h) (panelPosted st) -> adjacentLoading h = false).
Proof.
  intros Hr. destruct (reachable_wellFormed v st Hr) as (H1&H2&H3).
  split; [exact H1|].
  rewrite Forall_forall in H2, H3. unfold postedHistories in *.
  split; intros h Hin.
  - apply H2. change h with ((fun o => match o with history h => h end) (history h)).
    now apply in_map.
  - apply H3. change h with ((fun o => match o with history h => h end) (history h)).
    now apply in_map.
Qed.

(** The side panel opens, a message arrives, and a second one arrives before
    the first call has settled. *)
Lemma no_adjacent_loading_ever_witness :
  let host := Demo.host None [] (Demo.reply JNull) in
  let st :=
    after (beginTurn Loja host (Demo.say "two"))
      (after (beginTurn Loja host (Demo.say "one"))
         (after (resolveWebviewView Loja) (initial Demo.disk))) in
  adjacentLoading (_messageHistory st) = false
  /\ (forall h, In (history h) (viewPosted st) -> adjacentLoading h = false)
  /\ (forall h, In (history h) (panelPosted st) -> adjacentLoading h = false).
Proof.
  cbv zeta. apply (no_adjacent_loading_ever Loja).
  eapply reach_step; [eapply reach_step; [eapply reach_step|]|].
  - apply reach_initial.
  - apply step_resolveWebviewView.
  - apply step_begin.
  - apply step_begin.
Defined.

(** ** Turns and the provider *)

(** A turn, around its call: the state in which the call is made, its
    outcome, and what the turn leaves. *)
Lemma turn_outcome v host message st full :
  result (beginTurn v host message) st = Ok full ->
  exists st2 outcome st3 st',
    beginTurn v host message st = (Ok full, st2)
    /\ _messageHistory st2 = _messageHistory st ++ [mkMessage user full; thinking]
    /\ fetched st2 = fetched st
    /\ _callAI v host full false st2 = (outcome, st3)
    /\ _handleUserMessage v host message st = (Ok tt, st')
    /\ _messageHistory st' =
         filter notLoading (_messageHistory st)
         ++ [mkMessage user full; terminalEntry outcome]
    /\ fetched st' = fetched st3 /\ fsLog st' = fsLog st3 /\ files st' = files st3.
Proof.
  intros Hb.
  destruct (turn_shape v host message st)
    as (r&st1&st2&o&st3&st'&Hr&Hs&Eb&Ec&Eh&_&_&Hh&_&_&Hf&Hl&Hd).
  unfold result in Hb. rewrite Eb in Hb. injection Hb as Hb. rewrite Hb in *.
  destruct (beginTurn_shape v host message st r st1 Hr Hs)
    as (st2'&Eb'&_&_&Hh2&_&_&Hf2&_).
  rewrite Hb in Eb', Hh2. rewrite Eb in Eb'. injection Eb' as <-.
  exists st2, o, st3, st'. repeat split; auto.
  rewrite Hf2. eapply resolve_fetched; eauto.
Qed.

(** A command is answered by a text, and no request is sent. *)
Lemma callAI_command v host userText includeContext st :
  notCommand userText = false ->
  exists reply st1,
    _callAI v host userText includeContext st = (Ok reply, st1)
    /\ fetched st1 = fetched st.
Proof.
  unfold notCommand, _callAI. intros Hc.
  destruct (startsWith (lit "/read ") userText).
  - destruct (handleReadFile_returns host
                (trim (replace (lit "/read ") [] userText)) st)
      as (reply&st1&E&_&Hf&_).
    now exists reply, st1.
  - destruct (startsWith (lit "/edit ") userText); [|discriminate].
    destruct (matchEdit userText) as [[filePath newContent]|].
    + destruct (handleEditFile_returns host filePath newContent st)
        as (reply&st1&E&_&Hf).
      now exists reply, st1.
    + now exists (lit "Usage: /edit <file> <new content>"), st.
Qed.

(** X5 — A turn whose prompt is a [/read] or [/edit] command always ends
    with an [ai] entry and never with an [error] entry, also when the path is
    refused, the file cannot be read or written, no workspace is open or the
    command is malformed: the failure is the text of the reply.  No request
    is sent to a provider. *)
Theorem command_turn_ends_with_ai v host message st full :
  result (beginTurn v host message) st = Ok full ->
  notCommand full = false ->
  exists reply st',
    _handleUserMessage v host message st = (Ok tt, st')
    /\ _messageHistory st' =
         filter notLoading (_messageHistory st)
         ++ [mkMessage user full; mkMessage ai reply]
    /\ fetched st' = fetched st.
Proof.
  intros Hb Hc.
  destruct (turn_outcome v host message st full Hb)
    as (st2&o&st3&st'&_&_&Hf2&Ec&Eh&Hh&Hf&_).
  destruct (callAI_command v host full false st2 Hc) as (reply&st3'&Ec'&Hf3).
  rewrite Ec in Ec'. injection Ec' as -> <-.
  exists reply, st'. split; [exact Eh|]. split; [exact Hh|]. congruence.
Qed.

(** [/read missing.txt], a file that is not on the disk. *)
Lemma command_turn_ends_with_ai_witness :
  exists reply st',
    _handleUserMessage Loja (Demo.host None [] (Demo.reply JNull))
      (Demo.say "/read missing.txt") Demo.bothLive = (Ok tt, st')
    /\ _messageHistory st' =
         [mkMessage user (lit "/read missing.txt"); mkMessage ai reply]
    /\ fetched st' = [].
Proof.
  exact (command_turn_ends_with_ai Loja (Demo.host None [] (Demo.reply JNull))
           (Demo.say "/read missing.txt") Demo.bothLive (lit "/read missing.txt")
           eq_refl eq_refl).
Defined.

Lemma priorTurns_app a h1 h2 :
  priorTurns a (h1 ++ h2) = priorTurns a h1 ++ priorTurns a h2.
Proof. unfold priorTurns. now rewrite filter_app, map_app. Qed.

(** What a provider call does when the credential is set: one request, to
    which the answer decides the outcome; the file system is left alone. *)
Lemma provider_request v host p userText st :
  truthy (config_get v host (apiKeyName p) []) = true ->
  exists req,
    bodyMessages req
    = match p with
      | claude => []
      | _ => priorTurns (assistantRole p) (_messageHistory st)
      end ++ [mkChatMsg (lit "user") userText]
    /\ fetched (after (providerCall v host p userText) st) = fetched st ++ [req]
    /\ fsLog (after (providerCall v host p userText) st) = fsLog st
    /\ files (after (providerCall v host p userText) st) = files st
    /\ result (providerCall v host p userText) st
       = match fetch host req with
         | Throw e => Throw e
         | Ok res =>
             if negb (ok res)
             then Throw (newError (providerName p ++ lit " API error: " ++ resText res))
             else match resJson res with
                  | Ok data => parseFor p data
                  | Throw e => Throw e
                  end
         end.
Proof.
  intros Hk.
  destruct p;
    unfold providerCall, _callOpenAIGPT, _callClaudeStub, _callGrokStub,
      _callGeminiStub; rewrite Hk; cbn [negb];
    unfold exchange, after, result, bind, gets, doFetch; cbv beta iota;
    match goal with
    | |- context [fetch host ?r] => exists r
    end;
    (split; [reflexivity|]);
    match goal with
    | |- context [fetch host ?r] =>
        destruct (fetch host r) as [res|e]; cbn [fst snd];
        [ destruct (negb (ok res)); cbn [fst snd];
          [ repeat split
          | unfold resJsonM; destruct (resJson res); cbn [fst snd];
            repeat split ]
        | repeat split ]
    end.
Qed.

(** X6 — Once a context item has been resolved, the prompt is the context
    template and is not read as a command, even when the user's text is a
    [/read] or [/edit] command: no file is read or written for it, and the
    template is sent to the configured provider. *)
Theorem context_turns_are_not_commands v host message st fullMessage refs st1 p :
  resolve v host message st = (Ok (fullMessage, refs), st1) ->
  refs <> [] ->
  config_get v host (lit "activeProvider") (lit "gpt") = providerId p ->
  truthy (config_get v host (apiKeyName p) []) = true ->
  exists req st',
    _handleUserMessage v host message st = (Ok tt, st')
    /\ fetched st' = fetched st ++ [req]
    /\ sentText req = Some (template refs (text message))
    /\ fsLog st' = fsLog st1
    /\ files st' = files st1.
Proof.
  intros Hres Hne Hc Hk.
  destruct (turn_shape v host message st)
    as (r&st1'&st2&o&st3&st'&Hr&Hs&Eb&Ec&Eh&_&_&_&_&_&Hf&Hl&Hd).
  rewrite Hres in Hr. injection Hr as <- <-.
  rewrite (finalMessage_template message fullMessage refs Hne) in *.
  destruct (beginTurn_shape v host message st (fullMessage, refs) st1 Hres Hs)
    as (st2'&Eb'&_&_&_&_&_&Hf2&Hl2&Hd2).
  rewrite (finalMessage_template message fullMessage refs Hne) in Eb'.
  rewrite Eb in Eb'. injection Eb' as <-.
  assert (Hn : notCommand (template refs (text message)) = true) by reflexivity.
  rewrite (callAI_dispatch v host _ false p Hn Hc) in Ec.
  replace (match p with gemini => template refs (text message)
                   | _ => template refs (text message) end)
    with (template refs (text message)) in Ec by now destruct p.
  destruct (provider_sends v host p (template refs (text message)) st2 Hk)
    as (req&Hq&Hsent).
  destruct (provider_request v host p (template refs (text message)) st2 Hk)
    as (req'&_&_&Hql&Hqd&_).
  unfold after in Hq, Hql, Hqd. rewrite Ec in Hq, Hql, Hqd. cbn [snd] in *.
  exists req, st'. split; [exact Eh|].
  split; [rewrite Hf, Hq, Hf2; f_equal; eapply resolve_fetched; eauto|].
  split; [exact Hsent|]. split; congruence.
Qed.

(** [/read notes.md] sent together with a selection bubble. *)
Lemma context_turns_are_not_commands_witness :
  let item := mkItem icon_memo (Some (lit "a.ts:1-1")) (Some (lit "x")) in
  exists req st',
    _handleUserMessage Loja
      (Demo.host None (providerSettings gpt (lit "k")) (Demo.reply JNull))
      (mkUserMessage (lit "/read notes.md")
         (Some [mkBubble (lit "selection") None None (Some (lit "a.ts:1-1"))
                         (Some (lit "x"))])
         None)
      Demo.bothLive = (Ok tt, st')
    /\ fetched st' = [req]
    /\ sentText req = Some (template [item] (lit "/read notes.md"))
    /\ fsLog st' = []
    /\ files st' = Demo.disk.
Proof.
  cbv zeta.
  apply (context_turns_are_not_commands Loja
           (Demo.host None (providerSettings gpt (lit "k")) (Demo.reply JNull))
           (mkUserMessage (lit "/read notes.md")
              (Some [mkBubble (lit "selection") None None (Some (lit "a.ts:1-1"))
                              (Some (lit "x"))])
              None)
           Demo.bothLive (lit "/read notes.md")
           [mkItem icon_memo (Some (lit "a.ts:1-1")) (Some (lit "x"))]
           Demo.bothLive gpt).
  - reflexivity.
  - discriminate.
  - reflexivity.
  - reflexivity.
Defined.

Lemma priorTurns_turn a h full :
  priorTurns a (h ++ [mkMessage user full; thinking])
  = priorTurns a h ++ [mkChatMsg (lit "user") full].
Proof. now rewrite priorTurns_app. Qed.

(** A turn whose prompt goes to a provider with its credential set. *)
Lemma provider_turn v host message st full p :
  result (beginTurn v host message) st = Ok full ->
  notCommand full = true ->
  config_get v host (lit "activeProvider") (lit "gpt") = providerId p ->
  truthy (config_get v host (apiKeyName p) []) = true ->
  exists req st2 st',
    _messageHistory st2 = _messageHistory st ++ [mkMessage user full; thinking]
    /\ bodyMessages req
       = match p with
         | claude => []
         | _ => priorTurns (assistantRole p) (_messageHistory st2)
         end ++ [mkChatMsg (lit "user") full]
    /\ _handleUserMessage v host message st = (Ok tt, st')
    /\ _messageHistory st' =
         filter notLoading (_messageHistory st)
         ++ [mkMessage user full;
             terminalEntry (result (providerCall v host p full) st2)]
    /\ fetched st' = fetched st ++ [req]
    /\ result (providerCall v host p full) st2
       = match fetch host req with
         | Throw e => Throw e
         | Ok res =>
             if negb (ok res)
             then Throw (newError (providerName p ++ lit " API error: " ++ resText res))
             else match resJson res with
                  | Ok data => parseFor p data
                  | Throw e => Throw e
                  end
         end.
Proof.
  intros Hb Hn Hc Hk.
  destruct (turn_outcome v host message st full Hb)
    as (st2&o&st3&st'&_&Hh2&Hf2&Ec&Eh&Hh&Hf&_).
  rewrite (callAI_dispatch v host full false p Hn Hc) in Ec.
  replace (match p with gemini => full | _ => full end) with full in Ec
    by now destruct p.
  destruct (provider_request v host p full st2 Hk) as (req&Hm&Hq&_&_&Hr).
  exists req, st2, st'.
  unfold after in Hq. unfold result in Hr |- *. rewrite Ec in Hq, Hr |- *.
  cbn [fst snd] in *.
  repeat split; auto. congruence.
Qed.

(** X7 — What a turn sends.  The request carries the earlier [user] and
    [ai] entries in order, in the provider's role vocabulary, never a
    [loading], [system] or [error] entry, and then the prompt; as the prompt
    was appended to the history before the call, [gpt], [grok] and [gemini]
    are sent it twice, as the last of the earlier turns and as the new
    message.  [claude] is sent the prompt alone, without the earlier
    turns. *)
Theorem turn_request_messages v host message st full p :
  result (beginTurn v host message) st = Ok full ->
  notCommand full = true ->
  config_get v host (lit "activeProvider") (lit "gpt") = providerId p ->
  truthy (config_get v host (apiKeyName p) []) = true ->
  exists req st',
    _handleUserMessage v host message st = (Ok tt, st')
    /\ fetched st' = fetched st ++ [req]
    /\ bodyMessages req
       = match p with
         | claude => [mkChatMsg (lit "user") full]
         | _ =>
             map (fun m => mkChatMsg (if Role_eqb (role m) user then lit "user"
                                      else assistantRole p)
                                     (content m))
                 (filter (fun m => Role_eqb (role m) user || Role_eqb (role m) ai)
                         (_messageHistory st))
             ++ [mkChatMsg (lit "user") full; mkChatMsg (lit "user") full]
         end.
Proof.
  intros Hb Hn Hc Hk.
  destruct (provider_turn v host message st full p Hb Hn Hc Hk)
    as (req&st2&st'&Hh2&Hm&Eh&_&Hf&_).
  exists req, st'. split; [exact Eh|]. split; [exact Hf|].
  rewrite Hm, Hh2.
  destruct p; try reflexivity; rewrite priorTurns_turn, <- app_assoc; reflexivity.
Qed.

(** "hi" sent to [gpt] from a history that holds a notice, a question and
    its answer. *)
Lemma turn_request_messages_witness :
  exists req st',
    _handleUserMessage Loja
      (Demo.host None (providerSettings gpt (lit "k")) (Demo.reply JNull))
      (Demo.say "hi")
      (set_history [mkMessage system (lit "Undo applied.");
                    mkMessage user (lit "q"); mkMessage ai (lit "a")]
                   Demo.bothLive)
    = (Ok tt, st')
    /\ fetched st' = [req]
    /\ bodyMessages req
       = [mkChatMsg (lit "user") (lit "q"); mkChatMsg (lit "assistant") (lit "a");
          mkChatMsg (lit "user") (lit "hi"); mkChatMsg (lit "user") (lit "hi")].
Proof.
  exact (turn_request_messages Loja
           (Demo.host None (providerSettings gpt (lit "k")) (Demo.reply JNull))
           (Demo.say "hi")
           (set_history [mkMessage system (lit "Undo applied.");
                         mkMessage user (lit "q"); mkMessage ai (lit "a")]
                        Demo.bothLive)
           (lit "hi") gpt eq_refl eq_refl eq_refl eq_refl).
Defined.

(** X8 — A transport result that is not [ok]: the turn ends with exactly
    one [error] entry, which carries the provider's name and the body of the
    response as it came; one request was sent, and none after it. *)
Theorem transport_failure_surfaces v host message st full p res :
  result (beginTurn v host message) st = Ok full ->
  notCommand full = true ->
  config_get v host (lit "activeProvider") (lit "gpt") = providerId p ->
  truthy (config_get v host (apiKeyName p) []) = true ->
  (forall req, fetch host req = Ok res) ->
  ok res = false ->
  exists req st',
    _handleUserMessage v host message st = (Ok tt, st')
    /\ _messageHistory st' =
         filter notLoading (_messageHistory st)
         ++ [mkMessage user full;
             mkMessage error (lit "Error: " ++ providerName p ++ lit " API error: "
                              ++ resText res)]
    /\ fetched st' = fetched st ++ [req].
Proof.
  intros Hb Hn Hc Hk Hfetch Hok.
  destruct (provider_turn v host message st full p Hb Hn Hc Hk)
    as (req&st2&st'&_&_&Eh&Hh&Hf&Hr).
  rewrite Hfetch, Hok in Hr. cbn [negb] in Hr. rewrite Hr in Hh.
  exists req, st'. repeat split; assumption.
Qed.

(** A 401 from the provider. *)
Lemma transport_failure_surfaces_witness :
  exists req st',
    _handleUserMessage Loja
      (Demo.host None (providerSettings grok (lit "k"))
                 (Ok (mkResponse false (lit "Unauthorized") (Ok JNull))))
      (Demo.say "hi") Demo.bothLive
    = (Ok tt, st')
    /\ _messageHistory st' =
         [mkMessage user (lit "hi");
          mkMessage error (lit "Error: Grok API error: Unauthorized")]
    /\ fetched st' = [req].
Proof.
  exact (transport_failure_surfaces Loja
           (Demo.host None (providerSettings grok (lit "k"))
                      (Ok (mkResponse false (lit "Unauthorized") (Ok JNull))))
           (Demo.say "hi") Demo.bothLive (lit "hi") grok
           (mkResponse false (lit "Unauthorized") (Ok JNull))
           eq_refl eq_refl eq_refl eq_refl (fun _ => eq_refl) eq_refl).
Defined.

Lemma parse_carried_text p data s :
  carriesText p data s ->
  parseFor p data = Ok (if truthy (trim s) then trim s else lit "[No response]").
Proof.
  destruct p; cbn [carriesText].
  - intros (fields&choice&others&message&->&Hc&Hm&Ht).
    unfold parseFor, parseChoices, data_member, member, bindRes.
    rewrite Hc. cbn [opt_index0 index0 hd_error opt_member member].
    rewrite Hm. cbn [opt_member member]. rewrite Ht. reflexivity.
  - intros (fields&block&others&->&Hc&Ht).
    unfold parseFor, parseClaude, data_member, member, bindRes.
    rewrite Hc. cbn [opt_index0 index0 hd_error opt_member member].
    rewrite Ht. reflexivity.
  - intros (fields&choice&others&message&->&Hc&Hm&Ht).
    unfold parseFor, parseChoices, data_member, member, bindRes.
    rewrite Hc. cbn [opt_index0 index0 hd_error opt_member member].
    rewrite Hm. cbn [opt_member member]. rewrite Ht. reflexivity.
  - intros (fields&candidate&others&content&part&parts&->&Hc&Hn&Hp&Ht).
    unfold parseFor, parseGemini, data_member, member, bindRes.
    rewrite Hc. cbn [opt_index0 index0 hd_error opt_member member].
    rewrite Hn. cbn [opt_member member]. rewrite Hp.
    cbn [opt_index0 index0 hd_error opt_member member]. rewrite Ht. reflexivity.
Qed.

(** X9 — A success envelope that carries a text, whatever else it holds:
    the turn ends with one [ai] entry whose content is the text trimmed of
    the white space around it, or [[No response]] when nothing is left of
    it. *)
Theorem reply_is_trimmed v host message st full p res data s :
  result (beginTurn v host message) st = Ok full ->
  notCommand full = true ->
  config_get v host (lit "activeProvider") (lit "gpt") = providerId p ->
  truthy (config_get v host (apiKeyName p) []) = true ->
  (forall req, fetch host req = Ok res) ->
  ok res = true ->
  resJson res = Ok data ->
  carriesText p data s ->
  exists st',
    _handleUserMessage v host message st = (Ok tt, st')
    /\ _messageHistory st' =
         filter notLoading (_messageHistory st)
         ++ [mkMessage user full;
             mkMessage ai (if truthy (trim s) then trim s else lit "[No response]")].
Proof.
  intros Hb Hn Hc Hk Hfetch Hok Hjson Htext.
  destruct (provider_turn v host message st full p Hb Hn Hc Hk)
    as (req&st2&st'&_&_&Eh&Hh&_&Hr).
  rewrite Hfetch, Hok, Hjson in Hr. cbn [negb] in Hr.
  rewrite (parse_carried_text p data s Htext) in Hr. rewrite Hr in Hh.
  exists st'. split; assumption.
Qed.

(** An answer of [gpt] in the shape of the API, with white space around
    the text. *)
Lemma reply_is_trimmed_witness :
  exists st',
    _handleUserMessage Loja
      (Demo.host None (providerSettings gpt (lit "k"))
                 (Demo.reply (openaiReply (lit "  42 " ++ NL))))
      (Demo.say "hi") Demo.bothLive
    = (Ok tt, st')
    /\ _messageHistory st' = [mkMessage user (lit "hi"); mkMessage ai (lit "42")].
Proof.
  apply (reply_is_trimmed Loja
           (Demo.host None (providerSettings gpt (lit "k"))
                      (Demo.reply (openaiReply (lit "  42 " ++ NL))))
           (Demo.say "hi") Demo.bothLive (lit "hi") gpt
           {| ok := true; resText := [];
              resJson := Ok (openaiReply (lit "  42 " ++ NL)) |}
           (openaiReply (lit "  42 " ++ NL))
           (lit "  42 " ++ NL));
    try reflexivity.
  do 4 eexists. repeat split; reflexivity.
Defined.

(** X10 — A provider identifier that is none of the four: the turn ends
    with one [error] entry naming the identifier, and no request is sent. *)
Theorem unknown_provider_is_an_error v host message st full :
  result (beginTurn v host message) st = Ok full ->
  notCommand full = true ->
  knownProvider (config_get v host (lit "activeProvider") (lit "gpt")) = false ->
  exists st',
    _handleUserMessage v host message st = (Ok tt, st')
    /\ _messageHistory st' =
         filter notLoading (_messageHistory st)
         ++ [mkMessage user full;
             mkMessage error
               (lit "Error: Unknown provider: "
                ++ config_get v host (lit "activeProvider") (lit "gpt"))]
    /\ fetched st' = fetched st.
Proof.
  intros Hb Hn Hu.
  destruct (turn_outcome v host message st full Hb)
    as (st2&o&st3&st'&_&_&Hf2&Ec&Eh&Hh&Hf&_).
  unfold notCommand in Hn. apply andb_true_iff in Hn as [Hr He].
  apply negb_true_iff in Hr, He.
  unfold knownProvider in Hu.
  apply orb_false_iff in Hu as [Hu H4]. apply orb_false_iff in Hu as [Hu H3].
  apply orb_false_iff in Hu as [H1 H2].
  unfold _callAI in Ec. rewrite Hr, He, H1, H2, H3, H4 in Ec.
  injection Ec as <- <-.
  exists st'. split; [exact Eh|]. split; [exact Hh|]. congruence.
Qed.

(** The provider set to [llama]. *)
Lemma unknown_provider_is_an_error_witness :
  exists st',
    _handleUserMessage Loja
      (Demo.host None [(lit "loja.activeProvider", lit "llama")] (Demo.reply JNull))
      (Demo.say "hi") Demo.bothLive
    = (Ok tt, st')
    /\ _messageHistory st' =
         [mkMessage user (lit "hi");
          mkMessage error (lit "Error: Unknown provider: llama")]
    /\ fetched st' = [].
Proof.
  exact (unknown_provider_is_an_error Loja
           (Demo.host None [(lit "loja.activeProvider", lit "llama")] (Demo.reply JNull))
           (Demo.say "hi") Demo.bothLive (lit "hi") eq_refl eq_refl eq_refl).
Defined.

(** ** [/edit] and [/read] together *)

Lemma dropWhile_head f c s : f c = false -> dropWhile f (c :: s) = c :: s.
Proof. intros H. cbn. now rewrite H. Qed.

Lemma dropWhile_noSpace s : noSpace s = true -> dropWhile isSpace s = s.
Proof.
  destruct s as [|c s]; [reflexivity|]. cbn [noSpace forallb].
  intros H. apply andb_true_iff in H as [H _]. apply negb_true_iff in H.
  now apply dropWhile_head.
Qed.

Lemma noSpace_rev s : noSpace (rev s) = noSpace s.
Proof.
  unfold noSpace. destruct (forallb _ s) eqn:E.
  - apply forallb_forall. intros c Hc. apply in_rev in Hc.
    rewrite forallb_forall in E. now apply E.
  - destruct (forallb _ (rev s)) eqn:E'; [|reflexivity].
    rewrite <- E. symmetry. apply forallb_forall. intros c Hc.
    rewrite forallb_forall in E'. apply E'. now apply in_rev in Hc.
Qed.

(** A path without white space is its own trimmed form. *)
Lemma trim_noSpace s : noSpace s = true -> trim s = s.
Proof.
  intros H. unfold trim. rewrite (dropWhile_noSpace s H).
  rewrite dropWhile_noSpace by now rewrite noSpace_rev.
  apply rev_involutive.
Qed.

Lemma takeWhile_path path rest :
  noSpace path = true ->
  takeWhile (fun c => negb (isSpace c)) (path ++ 32 :: rest) = path
  /\ dropWhile (fun c => negb (isSpace c)) (path ++ 32 :: rest) = 32 :: rest.
Proof.
  induction path as [|c path IH]; intros H; [split; reflexivity|].
  cbn [noSpace forallb] in H. apply andb_true_iff in H as [Hc H].
  cbn [app takeWhile dropWhile]. rewrite Hc.
  destruct (IH H) as [-> ->]. split; reflexivity.
Qed.

(** How [/edit <path> <content>] is read: the path is the word after the
    command, the content is what follows with the white space before it cut
    off. *)
Lemma matchEdit_parts path content :
  truthy path = true ->
  noSpace path = true ->
  matchEdit (lit "/edit " ++ path ++ lit " " ++ content)
  = Some (path, dropWhile isSpace content).
Proof.
  intros Hne Hns. unfold matchEdit.
  destruct path as [|c path]; [discriminate|].
  assert (Hc : isSpace c = false).
  { cbn [noSpace forallb] in Hns. apply andb_true_iff in Hns as [Hc _].
    now apply negb_true_iff in Hc. }
  change (lit "/edit " ++ (c :: path) ++ lit " " ++ content)
    with (lit "/edit" ++ 32 :: (c :: path) ++ 32 :: content).
  rewrite startsWith_app.
  change (skipn 5 (lit "/edit" ++ 32 :: (c :: path) ++ 32 :: content))
    with (32 :: (c :: path) ++ 32 :: content).
  change (dropWhile isSpace (32 :: (c :: path) ++ 32 :: content))
    with (dropWhile isSpace ((c :: path) ++ 32 :: content)).
  cbn [app]. rewrite (dropWhile_head isSpace c _ Hc).
  change (c :: path ++ 32 :: content) with ((c :: path) ++ 32 :: content).
  destruct (takeWhile_path (c :: path) content Hns) as [-> ->].
  change (dropWhile isSpace (32 :: content)) with (dropWhile isSpace content).
  assert (Hlen : (length (dropWhile isSpace content) <? length (32%N :: content))%nat
                 = true).
  { apply Nat.ltb_lt. cbn [length].
    assert (length (dropWhile isSpace content) <= length content)%nat; [|lia].
    clear. induction content as [|x l IH]; [cbn; lia|].
    cbn [dropWhile]. destruct (isSpace x); cbn [length]; lia. }
  rewrite Hlen.
  assert (Hl1 : (length ((c :: path) ++ 32%N :: content)
                 <? length (32%N :: (c :: path) ++ 32%N :: content))%nat = true)
    by (apply Nat.ltb_lt; cbn [length]; lia).
  rewrite Hl1. reflexivity.
Qed.

(** What [/edit <path> <content>] does on a path that passes the test and
    can be written. *)
Lemma editCommand_run v host st path content f includeContext :
  let absPath := path_resolve host (fsPath f) path in
  truthy path = true ->
  noSpace path = true ->
  firstFolder host = Some f ->
  startsWith (fsPath f) absPath = true ->
  writeError host absPath = None ->
  exists st',
    _callAI v host (lit "/edit " ++ path ++ lit " " ++ content) includeContext st
    = (Ok (lit "File " ++ path ++ lit " updated successfully."), st')
    /\ files st' absPath = Some (toWellFormed (dropWhile isSpace content))
    /\ (forall other, Js.eqb other absPath = false -> files st' other = files st other)
    /\ fsLog st' = fsLog st ++ [FsWrite absPath (dropWhile isSpace content)]
    /\ fetched st' = fetched st.
Proof.
  cbv zeta. intros Hne Hns Hf Hs Hw.
  unfold _callAI.
  change (lit "/edit " ++ path ++ lit " " ++ content)
    with (lit "/edit " ++ (path ++ lit " " ++ content)) at 1 2.
  assert (Hr : startsWith (lit "/read ")
                 (lit "/edit " ++ (path ++ lit " " ++ content)) = false)
    by reflexivity.
  rewrite Hr, startsWith_app, (matchEdit_parts path content Hne Hns).
  unfold _handleEditFile. rewrite Hf, Hs. cbn [negb].
  unfold try_catch, bind, writeFile, ret. rewrite Hw.
  eexists. split; [reflexivity|]. cbn [files set_file log_fs fsLog fetched].
  rewrite eqb_refl. repeat split.
  intros other Ho. now rewrite Ho.
Qed.

(** X11 — [/edit <path> <content>] on a path of the workspace that can be
    written: the content handed to the write is what follows the path with
    the white space at its beginning cut off, up to the end of the message;
    it is written as UTF-8, so the file then reads as that content with every
    surrogate that is not part of a pair replaced by U+FFFD.  No other file
    changes, the reply names the path as it was typed, one write is made and
    no request is sent. *)
Theorem edit_command_writes v host st path content f includeContext :
  let absPath := path_resolve host (fsPath f) path in
  truthy path = true ->
  noSpace path = true ->
  firstFolder host = Some f ->
  startsWith (fsPath f) absPath = true ->
  writeError host absPath = None ->
  exists st',
    _callAI v host (lit "/edit " ++ path ++ lit " " ++ content) includeContext st
    = (Ok (lit "File " ++ path ++ lit " updated successfully."), st')
    /\ files st' absPath = Some (toWellFormed (dropWhile isSpace content))
    /\ (forall other, Js.eqb other absPath = false -> files st' other = files st other)
    /\ fsLog st' = fsLog st ++ [FsWrite absPath (dropWhile isSpace content)]
    /\ fetched st' = fetched st.
Proof. apply editCommand_run. Qed.

(** [/edit notes.md] followed by two spaces and [New content]. *)
Lemma edit_command_writes_witness :
  exists st',
    _callAI Loja (Demo.host None [] (Demo.reply JNull))
            (lit "/edit " ++ lit "notes.md" ++ lit " " ++ lit "  New content")
            false Demo.bothLive
    = (Ok (lit "File " ++ lit "notes.md" ++ lit " updated successfully."), st')
    /\ files st' (lit "/ws/notes.md") = Some (lit "New content")
    /\ (forall other, Js.eqb other (lit "/ws/notes.md") = false ->
        files st' other = Demo.disk other)
    /\ fsLog st' = [FsWrite (lit "/ws/notes.md") (lit "New content")]
    /\ fetched st' = [].
Proof.
  exact (edit_command_writes Loja (Demo.host None [] (Demo.reply JNull))
           Demo.bothLive (lit "notes.md") (lit "  New content")
           (mkFolder (lit "ws") (lit "/ws")) false
           eq_refl eq_refl eq_refl eq_refl eq_refl).
Defined.

Lemma length_toWellFormed_le n :
  forall s, (length s <= n)%nat -> length (toWellFormed s) = length s.
Proof.
  induction n as [|n IH]; intros s Hs.
  - destruct s; [reflexivity|cbn in Hs; lia].
  - destruct s as [|c rest]; [reflexivity|]. cbn [length] in Hs.
    cbn [toWellFormed]. destruct (isHighSurrogate c).
    + destruct rest as [|d rest']; [reflexivity|].
      destruct (isLowSurrogate d); cbn [length].
      * rewrite IH; [reflexivity|]. cbn [length] in Hs. lia.
      * rewrite IH; [reflexivity|]. lia.
    + destruct (isLowSurrogate c); cbn [length]; (rewrite IH; [reflexivity|lia]).
Qed.

(** Writing as UTF-8 and reading back keeps the length. *)
Lemma length_toWellFormed s : length (toWellFormed s) = length s.
Proof. now apply (length_toWellFormed_le (length s)). Qed.

(** X12 — What [/edit] wrote, [/read] shows: after [/edit <path> <content>]
    on a path of the workspace that can be written, [/read <path>] returns,
    between two fences, the content that was handed to the write as it reads
    back from UTF-8 (surrogates that are not part of a pair replaced by
    U+FFFD), as long as that content holds at most 4000 characters. *)
Theorem edit_then_read v host st path content f :
  let absPath := path_resolve host (fsPath f) path in
  let written := dropWhile isSpace content in
  truthy path = true ->
  noSpace path = true ->
  firstFolder host = Some f ->
  startsWith (fsPath f) absPath = true ->
  writeError host absPath = None ->
  (length written <= 4000)%nat ->
  result (_callAI v host (lit "/edit " ++ path ++ lit " " ++ content) false ;;;
          _callAI v host (lit "/read " ++ path) false) st
  = Ok (fence ++ NL ++ toWellFormed written ++ NL ++ fence).
Proof.
  cbv zeta. intros Hne Hns Hf Hs Hw Hlen.
  destruct (editCommand_run v host st path content f false Hne Hns Hf Hs Hw)
    as (st1&E&Hfile&_).
  unfold result. rewrite (bind_ok _ _ _ _ _ E).
  unfold _callAI. rewrite startsWith_app, replace_prefix, (trim_noSpace path Hns).
  rewrite (handleReadFile_run host path f _ st1 Hf Hs Hfile).
  cbn [fst]. rewrite length_toWellFormed.
  apply Nat.ltb_ge in Hlen. now rewrite Hlen.
Qed.

(** The two commands on [notes.md], the content ending in a high surrogate
    that has no low one after it. *)
Lemma edit_then_read_witness :
  result (_callAI Loja (Demo.host None [] (Demo.reply JNull))
            (lit "/edit " ++ lit "notes.md" ++ lit " " ++ (lit "New " ++ [55357]))
            false ;;;
          _callAI Loja (Demo.host None [] (Demo.reply JNull))
            (lit "/read " ++ lit "notes.md") false) Demo.bothLive
  = Ok (fence ++ NL ++ (lit "New " ++ [65533]) ++ NL ++ fence).
Proof.
  apply (edit_then_read Loja (Demo.host None [] (Demo.reply JNull)) Demo.bothLive
           (lit "notes.md") (lit "New " ++ [55357]) (mkFolder (lit "ws") (lit "/ws")));
    try reflexivity.
  apply Nat.leb_le. reflexivity.
Defined.

Lemma takeWhile_all path :
  noSpace path = true ->
  dropWhile (fun c => negb (isSpace c)) path = [].
Proof.
  induction path as [|c path IH]; [reflexivity|].
  cbn [noSpace forallb]. intros H. apply andb_true_iff in H as [Hc H].
  cbn [dropWhile]. rewrite Hc. now apply IH.
Qed.

(** X13 — [/edit] followed by a path and nothing else is answered by the
    usage line; nothing is written and nothing is sent. *)
Theorem edit_without_content_is_usage v host st path includeContext :
  noSpace path = true ->
  _callAI v host (lit "/edit " ++ path) includeContext st
  = (Ok (lit "Usage: /edit <file> <new content>"), st).
Proof.
  intros Hns. unfold _callAI.
  assert (Hr : startsWith (lit "/read ") (lit "/edit " ++ path) = false)
    by reflexivity.
  rewrite Hr, startsWith_app.
  assert (Hm : matchEdit (lit "/edit " ++ path) = None).
  { unfold matchEdit.
    change (lit "/edit " ++ path) with (lit "/edit" ++ 32 :: path).
    rewrite startsWith_app.
    change (skipn 5 (lit "/edit" ++ 32 :: path)) with (32 :: path).
    change (dropWhile isSpace (32 :: path)) with (dropWhile isSpace path).
    rewrite (dropWhile_noSpace path Hns), (takeWhile_all path Hns).
    cbn [dropWhile length]. rewrite andb_false_r. reflexivity. }
  now rewrite Hm.
Qed.

(** [/edit notes.md] alone. *)
Lemma edit_without_content_is_usage_witness :
  _callAI Loja (Demo.host None [] (Demo.reply JNull))
          (lit "/edit " ++ lit "notes.md") false Demo.bothLive
  = (Ok (lit "Usage: /edit <file> <new content>"), Demo.bothLive).
Proof.
  exact (edit_without_content_is_usage Loja (Demo.host None [] (Demo.reply JNull))
           Demo.bothLive (lit "notes.md") false eq_refl).
Defined.

(** X14 — [/read] on a file of the workspace that cannot be read returns
    the text [Error reading file: ] followed by the message of the error; it
    does not throw, and the one access it made was a read. *)
Theorem read_failure_is_a_reply v host st path f includeContext :
  let absPath := path_resolve host (fsPath f) (trim path) in
  firstFolder host = Some f ->
  startsWith (fsPath f) absPath = true ->
  files st absPath = None ->
  _callAI v host (lit "/read " ++ path) includeContext st
  = (Ok (lit "Error reading file: "
         ++ (if truthy (emessage (readError host absPath))
             then emessage (readError host absPath)
             else ename (readError host absPath))),
     log_fs (FsRead absPath) st).
Proof.
  cbv zeta. intros Hf Hs Hc.
  unfold _callAI. rewrite startsWith_app, replace_prefix.
  unfold _handleReadFile. rewrite Hf, Hs. cbn [negb].
  unfold try_catch, bind, readFile. now rewrite Hc.
Qed.

(** [/read missing.txt] in the workspace [/ws]. *)
Lemma read_failure_is_a_reply_witness :
  _callAI Loja (Demo.host None [] (Demo.reply JNull))
          (lit "/read " ++ lit "missing.txt") false Demo.bothLive
  = (Ok (lit "Error reading file: ENOENT: no such file, open '/ws/missing.txt'"),
     log_fs (FsRead (lit "/ws/missing.txt")) Demo.bothLive).
Proof.
  exact (read_failure_is_a_reply Loja (Demo.host None [] (Demo.reply JNull))
           Demo.bothLive (lit "missing.txt") (mkFolder (lit "ws") (lit "/ws")) false
           eq_refl eq_refl eq_refl).
Defined.

(** ** Applying a suggestion *)

(** X15 — A suggestion applied with the target [selection] while nothing
    is selected replaces the whole document, and the notice in the history
    still says that the selection was replaced. *)
Theorem apply_without_selection_replaces_document host editor codeBlock st :
  activeTextEditor host = Some editor ->
  isEmpty (selection editor) = true ->
  let st' := after (_handleApplyInline host (Some (lit "selection")) codeBlock) st in
  applied st'
  = applied st ++ [mkEdit (WholeFile (length (getText (document editor)))) codeBlock]
  /\ _messageHistory st'
     = _messageHistory st
       ++ [mkMessage system (lit "Applied suggestion to selection. [Undo]")].
Proof.
  intros He Hs. cbv zeta. unfold _handleApplyInline. rewrite He, Hs, eqb_refl.
  cbn [andb negb]. unfold after, bind, modify, push, _postMessageHistory.
  destruct st as [[|] ? ? ? ? ? ? ? ? ?]; split; reflexivity.
Qed.

(** The suggestion applied on demo.ts with nothing selected. *)
Lemma apply_without_selection_replaces_document_witness :
  let st' := after (_handleApplyInline (Demo.host (Some Demo.editor) [] (Demo.reply JNull))
                      (Some (lit "selection")) (lit "y=2")) Demo.bothLive in
  applied st' = [mkEdit (WholeFile 3) (lit "y=2")]
  /\ _messageHistory st'
     = [mkMessage system (lit "Applied suggestion to selection. [Undo]")].
Proof.
  exact (apply_without_selection_replaces_document
           (Demo.host (Some Demo.editor) [] (Demo.reply JNull)) Demo.editor
           (lit "y=2") Demo.bothLive eq_refl eq_refl).
Defined.

(** X16 — What is kept for the undo is what was replaced: the closure
    registered by [_handleApplyInline] holds the range of the edit just made
    and the text that range held before.  When the target is [selection] and
    the selection is not empty, these are the selection and the selected
    text; in every other case, a target that is not [selection], no target,
    or an empty selection, they are the whole document and its text.  The
    closure is registered on the side panel only: with no side panel, nothing
    is kept. *)
Theorem apply_keeps_what_it_replaced host editor target codeBlock st :
  activeTextEditor host = Some editor ->
  let st' := after (_handleApplyInline host target codeBlock) st in
  exists range oldText,
    applied st' = applied st ++ [mkEdit range codeBlock]
    /\ undoHandlers st'
       = undoHandlers st ++ (if _view st then [mkEdit range oldText] else [])
    /\ (target = Some (lit "selection") ->
        isEmpty (selection editor) = false ->
        range = SelRange (sel_start (selection editor)) (sel_end (selection editor))
        /\ oldText = selectedText editor)
    /\ (target <> Some (lit "selection") \/ isEmpty (selection editor) = true ->
        range = WholeFile (length (getText (document editor)))
        /\ oldText = getText (document editor)).
Proof.
  intros He. cbv zeta. unfold _handleApplyInline. rewrite He.
  set (onSelection := match target with
                      | Some t => Js.eqb t (lit "selection")
                      | None => false
                      end).
  assert (Hon : onSelection = true <-> target = Some (lit "selection")).
  { unfold onSelection. destruct target as [t|].
    - split; [intros E; apply eqb_eq in E; now subst|].
      intros E; injection E as ->. apply eqb_refl.
    - split; discriminate. }
  destruct (onSelection && negb (isEmpty (selection editor))) eqn:Eon.
  - apply andb_true_iff in Eon. destruct Eon as (E1&E2).
    apply negb_true_iff in E2.
    do 2 eexists. split; [|split; [|split]].
    + unfold after, bind, modify, push, _postMessageHistory.
      destruct st as [[|] ? ? ? ? ? ? ? ? ?]; reflexivity.
    + unfold after, bind, modify, push, _postMessageHistory.
      destruct st as [[|] ? ? ? ? ? ? ? ? ?]; cbn; rewrite ?app_nil_r; reflexivity.
    + intros _ _. split; reflexivity.
    + intros [Hn|Hn]; [apply Hon in E1; contradiction|congruence].
  - do 2 eexists. split; [|split; [|split]].
    + unfold after, bind, modify, push, _postMessageHistory.
      destruct st as [[|] ? ? ? ? ? ? ? ? ?]; reflexivity.
    + unfold after, bind, modify, push, _postMessageHistory.
      destruct st as [[|] ? ? ? ? ? ? ? ? ?]; cbn; rewrite ?app_nil_r; reflexivity.
    + intros Ht Hs. apply Hon in Ht. rewrite Ht, Hs in Eon. discriminate.
    + intros _. split; reflexivity.
Qed.

(** [x=1] selected on line 3 of demo.ts and replaced. *)
Lemma apply_keeps_what_it_replaced_witness :
  let st' := after (_handleApplyInline
                      (Demo.host (Some Demo.editorSel) [] (Demo.reply JNull))
                      (Some (lit "selection")) (lit "y=2")) Demo.bothLive in
  exists range oldText,
    applied st' = [mkEdit range (lit "y=2")]
    /\ undoHandlers st' = [mkEdit range oldText]
    /\ range = SelRange (mkPosition 2 0) (mkPosition 2 3)
    /\ oldText = lit "x=1".
Proof.
  cbv zeta.
  destruct (apply_keeps_what_it_replaced
              (Demo.host (Some Demo.editorSel) [] (Demo.reply JNull)) Demo.editorSel
              (Some (lit "selection")) (lit "y=2") Demo.bothLive eq_refl)
    as (range&oldText&Ha&Hu&Hsel&_).
  exists range, oldText. split; [exact Ha|]. split; [exact Hu|].
  exact (Hsel eq_refl eq_refl).
Defined.

(** X17 — A previewed edit changes nothing unless Apply is chosen: with
    Show Diff, Cancel or a dismissed notification the history, the files and
    what the surfaces were sent stay as they were, and no write is made. *)
Theorem preview_writes_only_on_apply host filePath newContent choice st :
  choice <> Some Apply ->
  let st' := after (_showPreviewAndApply host filePath newContent choice) st in
  sameSurfaces st st'
  /\ files st' = files st
  /\ filter isWrite (fsLog st') = filter isWrite (fsLog st).
Proof.
  intros Hc. cbv zeta. unfold _showPreviewAndApply.
  destruct choice as [[| |]|]; try congruence;
    try (repeat split; reflexivity).
  unfold _showDiff. destruct (firstFolder host) as [f|];
    [|repeat split; reflexivity].
  destruct (negb _); [repeat split; reflexivity|].
  unfold after, try_catch, bind, readFile, ret.
  destruct (files st _); cbn [snd log_fs files fsLog];
    (split; [repeat split|]); (split; [reflexivity|]);
    rewrite filter_app; cbn; now rewrite app_nil_r.
Qed.

(** Show Diff on notes.md. *)
Lemma preview_writes_only_on_apply_witness :
  let st' := after (_showPreviewAndApply (Demo.host None [] (Demo.reply JNull))
                      (lit "notes.md") (lit "bye") (Some ShowDiff)) Demo.bothLive in
  sameSurfaces Demo.bothLive st'
  /\ files st' = Demo.disk
  /\ filter isWrite (fsLog st') = [].
Proof.
  apply (preview_writes_only_on_apply (Demo.host None [] (Demo.reply JNull))
           (lit "notes.md") (lit "bye") (Some ShowDiff) Demo.bothLive).
  discriminate.
Defined.

(** ** Context bubbles *)

(** The item a selection bubble resolves to. *)
Lemma resolveBubbles_selection_step host item rest refs st :
  Js.eqb (b_type item) (lit "selection") = true ->
  resolveBubbles host (item :: rest) refs st
  = resolveBubbles host rest
      (refs ++ [ {| icon := orDefault (b_icon item) icon_memo;
                    name := b_name item;
                    itemContent := b_content item |} ]) st.
Proof.
  intros H. cbn [resolveBubbles]. apply eqb_eq in H. rewrite H.
  reflexivity.
Qed.

(** X18 — Bubbles of kind [selection] are resolved from what they carry:
    each gives one item, in order, with its stored name and content and the
    memo icon when it has none; no file is read and the state is left as it
    was. *)
Theorem selection_bubbles_use_stored_content host items refs st :
  forallb (fun b => Js.eqb (b_type b) (lit "selection")) items = true ->
  resolveBubbles host items refs st
  = (Ok (refs ++ map (fun b => {| icon := orDefault (b_icon b) icon_memo;
                                  name := b_name b;
                                  itemContent := b_content b |}) items),
     st).
Proof.
  revert refs. induction items as [|item rest IH]; intros refs H.
  - cbn. now rewrite app_nil_r.
  - cbn [forallb] in H. apply andb_true_iff in H as [Hi H].
    rewrite (resolveBubbles_selection_step host item rest refs st Hi).
    rewrite (IH _ H), <- app_assoc. reflexivity.
Qed.

(** Two selection bubbles, the second without an icon. *)
Lemma selection_bubbles_use_stored_content_witness :
  resolveBubbles (Demo.host None [] (Demo.reply JNull))
    [mkBubble (lit "selection") None (Some (lit "*")) (Some (lit "a.ts:1-2"))
              (Some (lit "one"));
     mkBubble (lit "selection") None None (Some (lit "b.ts:3-3")) (Some (lit "two"))]
    [] Demo.bothLive
  = (Ok [mkItem (lit "*") (Some (lit "a.ts:1-2")) (Some (lit "one"));
         mkItem icon_memo (Some (lit "b.ts:3-3")) (Some (lit "two"))],
     Demo.bothLive).
Proof.
  exact (selection_bubbles_use_stored_content (Demo.host None [] (Demo.reply JNull))
           [mkBubble (lit "selection") None (Some (lit "*")) (Some (lit "a.ts:1-2"))
                     (Some (lit "one"));
            mkBubble (lit "selection") None None (Some (lit "b.ts:3-3"))
                     (Some (lit "two"))]
           [] Demo.bothLive eq_refl).
Defined.

(** X19 — A bubble that is neither a selection nor a file with a path (a
    workspace bubble, a file bubble whose path is missing or empty) adds
    nothing to the prompt: when these are the only attachments and the text
    resolves no marker, resolution yields no context item, reads no file, and
    the prompt is the text as shown without context. *)
Theorem other_bubbles_are_dropped v host message st :
  forallb (fun b =>
             negb (Js.eqb (b_type b) (lit "selection"))
             && negb (Js.eqb (b_type b) (lit "file")
                      && truthy (orDefault (b_path b) [])))
          (orNil (contextItems message)) = true ->
  inlineReferences message = None ->
  snd (resolveMarkers v host (text message, [])) = [] ->
  resolve v host message st
  = (Ok (shownUnresolved v (text message), []), st).
Proof.
  intros Hb Hi Hm.
  assert (Hdrop : forall items refs,
             forallb (fun b =>
                        negb (Js.eqb (b_type b) (lit "selection"))
                        && negb (Js.eqb (b_type b) (lit "file")
                                 && truthy (orDefault (b_path b) []))) items = true ->
             resolveBubbles host items refs st = (Ok refs, st)).
  { induction items as [|item rest IH]; intros refs H; [reflexivity|].
    cbn [forallb] in H. apply andb_true_iff in H as [Hitem H].
    apply andb_true_iff in Hitem as [Hs Hf]. apply negb_true_iff in Hs, Hf.
    cbn [resolveBubbles]. rewrite Hf, Hs. now apply IH. }
  assert (E : resolve v host message st
              = (Ok (fst (resolveMarkers v host (text message, [])), []), st)).
  { unfold resolve.
    destruct (resolveMarkers v host (text message, [])) as [full refs].
    cbn [snd fst] in *. subst refs.
    unfold bind. rewrite (Hdrop _ _ Hb), Hi. reflexivity. }
  rewrite E. do 3 f_equal.
  exact (resolve_unresolved v host message st _ st E eq_refl).
Qed.

(** "hello" sent with a workspace bubble. *)
Lemma other_bubbles_are_dropped_witness :
  resolve Loja (Demo.host None [] (Demo.reply JNull))
    (mkUserMessage (lit "hello")
       (Some [mkBubble (lit "workspace") None None (Some (lit "ws"))
                       (Some (lit "Workspace: ws"))])
       None)
    Demo.bothLive
  = (Ok (lit "hello", []), Demo.bothLive).
Proof.
  exact (other_bubbles_are_dropped Loja (Demo.host None [] (Demo.reply JNull))
           (mkUserMessage (lit "hello")
              (Some [mkBubble (lit "workspace") None None (Some (lit "ws"))
                              (Some (lit "Workspace: ws"))])
              None)
           Demo.bothLive eq_refl eq_refl eq_refl).
Defined.

(** ** The first code block of a reply *)

Lemma startsWith_fence_head c s : (c =? 96) = false -> startsWith fence (c :: s) = false.
Proof.
  intros H. change fence with [96; 96; 96]. cbn [startsWith].
  rewrite N.eqb_sym, H. reflexivity.
Qed.

(** The first fence of a text that opens with characters other than
    backticks is where they end. *)
Lemma indexOf_fence a b :
  noBacktick a = true -> indexOf fence (a ++ fence ++ b) = Some (length a).
Proof.
  induction a as [|c a IH]; intros H.
  - cbn [app length]. apply indexOf_prefix.
  - cbn [noBacktick forallb] in H. apply andb_true_iff in H as [Hc H].
    apply negb_true_iff in Hc.
    cbn [app indexOf]. rewrite (startsWith_fence_head c _ Hc).
    rewrite (IH H). reflexivity.
Qed.

Lemma indexOf_no_fence a : noBacktick a = true -> indexOf fence a = None.
Proof.
  induction a as [|c a IH]; intros H; [reflexivity|].
  cbn [noBacktick forallb] in H. apply andb_true_iff in H as [Hc H].
  apply negb_true_iff in Hc.
  cbn [indexOf]. rewrite (startsWith_fence_head c _ Hc), (IH H). reflexivity.
Qed.

Lemma skipn_app_exact {A} (a b : list A) : skipn (length a) (a ++ b) = b.
Proof. induction a; [reflexivity|assumption]. Qed.

Lemma firstn_app_exact {A} (a b : list A) : firstn (length a) (a ++ b) = a.
Proof. induction a as [|x a IH]; [reflexivity|]. cbn. now rewrite IH. Qed.

Lemma extract_fenced before code rest :
  noBacktick before = true ->
  noBacktick code = true ->
  Webview.extractFirstCodeBlock (before ++ fence ++ code ++ fence ++ rest)
  = Some (before, code).
Proof.
  intros Hb Hc. unfold Webview.extractFirstCodeBlock.
  rewrite (indexOf_fence before _ Hb).
  unfold Webview.indexOfFrom.
  assert (Hskip : skipn (length before + 3) (before ++ fence ++ code ++ fence ++ rest)
                  = code ++ fence ++ rest).
  { replace (length before + 3)%nat with (length (before ++ fence))
      by (rewrite length_app; reflexivity).
    rewrite (app_assoc before fence). apply skipn_app_exact. }
  rewrite Hskip, (indexOf_fence code rest Hc). cbn [option_map].
  assert (Hmin : Nat.min (length before + 3)
                   (length (before ++ fence ++ code ++ fence ++ rest))
                 = (length before + 3)%nat).
  { rewrite !length_app. change (length fence) with 3%nat. lia. }
  rewrite Hmin. unfold Webview.substring.
  rewrite Nat.max_0_l, Nat.min_0_l, Nat.sub_0_r. cbn [skipn].
  rewrite firstn_app_exact.
  rewrite Nat.min_l, Nat.max_r by lia.
  replace (length before + 3 + length code - (length before + 3))%nat
    with (length code) by lia.
  rewrite Hskip, firstn_app_exact. reflexivity.
Qed.

(** X20 — The first code block of a text: when the text before the first
    fence and the text between the first two fences hold no backtick,
    [extractFirstCodeBlock] returns exactly these two texts; what comes after
    the closing fence plays no part, and a language tag after the opening
    fence is part of the code. *)
Theorem first_code_block_is_extracted before code rest :
  noBacktick before = true ->
  noBacktick code = true ->
  Webview.extractFirstCodeBlock (before ++ lit "```" ++ code ++ lit "```" ++ rest)
  = Some (before, code).
Proof. apply extract_fenced. Qed.

(** A reply with a block tagged [ts], followed by a second block. *)
Lemma first_code_block_is_extracted_witness :
  Webview.extractFirstCodeBlock
    (lit "Apply to selection:" ++ lit "```"
     ++ (lit "ts" ++ NL ++ lit "x=2" ++ NL) ++ lit "```"
     ++ lit " or ```y```")
  = Some (lit "Apply to selection:", lit "ts" ++ NL ++ lit "x=2" ++ NL).
Proof.
  exact (first_code_block_is_extracted (lit "Apply to selection:")
           (lit "ts" ++ NL ++ lit "x=2" ++ NL) (lit " or ```y```")
           eq_refl eq_refl).
Defined.

(** X21 — A text with a fence that is never closed has no code block: the
    opening fence alone gives [null], and so does a text without any
    fence. *)
Theorem unclosed_block_is_no_block before code :
  noBacktick before = true ->
  noBacktick code = true ->
  Webview.extractFirstCodeBlock (before ++ lit "```" ++ code) = None
  /\ Webview.extractFirstCodeBlock before = None.
Proof.
  intros Hb Hc. split.
  - unfold Webview.extractFirstCodeBlock.
    change (before ++ lit "```" ++ code) with (before ++ fence ++ code).
    rewrite (indexOf_fence before code Hb). unfold Webview.indexOfFrom.
    replace (length before + 3)%nat with (length (before ++ fence))
      by (rewrite length_app; reflexivity).
    rewrite (app_assoc before fence), skipn_app_exact.
    now rewrite (indexOf_no_fence code Hc).
  - unfold Webview.extractFirstCodeBlock. now rewrite (indexOf_no_fence before Hb).
Qed.

(** A reply cut in the middle of its block. *)
Lemma unclosed_block_is_no_block_witness :
  Webview.extractFirstCodeBlock (lit "Here:" ++ lit "```" ++ lit "x=") = None
  /\ Webview.extractFirstCodeBlock (lit "Here:") = None.
Proof.
  exact (unclosed_block_is_no_block (lit "Here:") (lit "x=") eq_refl eq_refl).
Defined.

(** X22 — From the reply to the editor.  An [ai] entry whose first code
    block is not empty gets an apply button, whatever the text before the
    block says: the button carries the block and the target read from that
    text.  When that text, in lower case, does not hold the word [selection],
    clicking the button replaces the whole of the active document with the
    code, also when the text names no target at all; when the text is not
    empty and holds the word, the target is [selection]. *)
Theorem untargeted_block_replaces_document toLowerCase msg before code :
  role msg = ai ->
  Webview.extractFirstCodeBlock (content msg) = Some (before, code) ->
  truthy code = true ->
  Webview.applyInlineAction toLowerCase msg
  = Some (Webview.inlineTarget toLowerCase before, code)
  /\ (includes (lit "selection") (toLowerCase before) = false ->
      forall host editor st,
        activeTextEditor host = Some editor ->
        applied (after (_handleApplyInline host
                          (Webview.inlineTarget toLowerCase before) code) st)
        = applied st
          ++ [mkEdit (WholeFile (length (getText (document editor)))) code])
  /\ (truthy before = true ->
      includes (lit "selection") (toLowerCase before) = true ->
      Webview.inlineTarget toLowerCase before = Some (lit "selection")).
Proof.
  intros Hr Hx Hne. split; [|split].
  - unfold Webview.applyInlineAction. now rewrite Hr, Hx, Hne.
  - intros Hsel host editor st He.
    assert (Ht : match Webview.inlineTarget toLowerCase before with
                 | Some t => Js.eqb t (lit "selection")
                 | None => false
                 end = false).
    { unfold Webview.inlineTarget. destruct (truthy before); [|reflexivity].
      rewrite Hsel.
      destruct (includes (lit "current file") (toLowerCase before)); reflexivity. }
    unfold _handleApplyInline. rewrite He, Ht. cbn [andb].
    unfold after, bind, modify, push, _postMessageHistory.
    destruct st as [[|] ? ? ? ? ? ? ? ? ?]; reflexivity.
  - intros Hb Hsel. unfold Webview.inlineTarget. now rewrite Hb, Hsel.
Qed.

(** A reply that only says "Try this:" before its block, and the document
    demo.ts. *)
Lemma untargeted_block_replaces_document_witness :
  let msg := mkMessage ai (lit "Try this:" ++ lit "```" ++ lit "y=2" ++ lit "```") in
  Webview.applyInlineAction Webview.asciiLower msg = Some (None, lit "y=2")
  /\ applied (after (_handleApplyInline
                       (Demo.host (Some Demo.editor) [] (Demo.reply JNull))
                       None (lit "y=2")) Demo.bothLive)
     = [mkEdit (WholeFile 3) (lit "y=2")].
Proof.
  cbv zeta.
  destruct (untargeted_block_replaces_document Webview.asciiLower
              (mkMessage ai (lit "Try this:" ++ lit "```" ++ lit "y=2" ++ lit "```"))
              (lit "Try this:") (lit "y=2") eq_refl eq_refl eq_refl)
    as (Ha&Hw&_).
  split; [exact Ha|].
  exact (Hw eq_refl (Demo.host (Some Demo.editor) [] (Demo.reply JNull))
            Demo.editor Demo.bothLive eq_refl).
Defined.

(** ** File suggestions *)

(** X23 — Suggestions for an @-mention.  With no workspace open, or when
    the search throws, nothing is posted and the handler returns.  Otherwise
    the search is for every file when the query is empty (at most 50) and for
    the files whose path holds the query (at most 20), [node_modules] left
    out; the side panel and the detachable panel, each when live, are sent the
    same message, whichever of them asked: it answers the cursor position of
    the request, lists the files in the order found, and gives none of them
    an empty name. *)
Theorem file_suggestions_posted host findFiles query cursorPos st :
  exists l,
    _handleFileSuggestions host findFiles query cursorPos st
    = ((if _view st then l else []), (if _panel st then l else []))
    /\ match firstFolder host with
       | None => l = []
       | Some _ =>
           match findFiles (if truthy query then lit "**/*" ++ query ++ lit "*"
                            else lit "**/*")
                           (lit "**/node_modules/**")
                           (if truthy query then 20 else 50) with
           | Throw _ => l = []
           | Ok found =>
               exists message,
                 l = [message]
                 /\ sg_cursorPos message = cursorPos
                 /\ map sg_path (sg_files message) = map uri_fsPath found
                 /\ Forall (fun s => truthy (sg_name s) = true) (sg_files message)
           end
       end.
Proof.
  unfold _handleFileSuggestions, fileSuggestions.
  destruct (firstFolder host) as [f|]; [|exists []; split; [|reflexivity]].
  - destruct (findFiles _ _ _) as [found|e].
    + eexists. split; [reflexivity|]. eexists. split; [reflexivity|].
      split; [reflexivity|]. cbn [sg_files]. split.
      * rewrite map_map. reflexivity.
      * apply Forall_forall. intros s Hs. apply in_map_iff in Hs as (file&<-&_).
        cbn [sg_name]. unfold orElse.
        destruct (truthy (afterLastSlash (uri_path file))) eqn:Et;
          [exact Et|reflexivity].
    + exists []. split; [|reflexivity]. now destruct (_view st), (_panel st).
  - now destruct (_view st), (_panel st).
Qed.

(** ** What the side panel is told *)

Lemma push_post_view m st :
  _view st = true ->
  viewPosted (after (push m ;;; _postMessageHistory) st)
  = viewPosted st ++ [history (_messageHistory st ++ [m])].
Proof.
  intros Hv. unfold after, bind, push, _postMessageHistory, modify.
  destruct st as [view0 ? ? ? ? ? ? ? ? ?]. cbn in Hv. subst view0. reflexivity.
Qed.

Lemma push_post_keeps_view m st :
  _view (after (push m ;;; _postMessageHistory) st) = _view st.
Proof.
  unfold after, bind, push, _postMessageHistory, modify.
  destruct st as [[|] ? ? ? ? ? ? ? ? ?]; reflexivity.
Qed.

(** After an entry is appended and posted, a live side panel holds the
    history as it is. *)
Lemma push_post_told m st :
  _view (after (push m ;;; _postMessageHistory) st) = true ->
  exists earlier,
    viewPosted (after (push m ;;; _postMessageHistory) st)
    = earlier ++ [history (_messageHistory (after (push m ;;; _postMessageHistory) st))].
Proof.
  rewrite push_post_keeps_view. intros Hv.
  exists (viewPosted st). now rewrite push_post_one, push_post_view.
Qed.

(** X24 — The side panel never misses a change: whenever a handler, the
    undo listener included, has changed the history and the side panel is
    live, the last thing the side panel was sent is the history as it now
    stands. *)
Theorem side_panel_is_told_every_change v st st' :
  step v st st' ->
  _view st' = true ->
  _messageHistory st' <> _messageHistory st ->
  exists earlier,
    viewPosted st' = earlier ++ [history (_messageHistory st')].
Proof.
  intros Hstep. destruct Hstep; intros Hv Hch.
  - destruct (resolve_ok v host message st) as (r&st1&Hr&Hs).
    destruct (beginTurn_shape v host message st r st1 Hr Hs)
      as (st2&Eb&Hv2&_&Hh&Hvp&_).
    unfold after in *. rewrite Eb in *. cbn [snd] in *.
    rewrite Hv2 in Hv. rewrite Hvp, Hv, Hh.
    exists (viewPosted st
            ++ [history (_messageHistory st
                         ++ [mkMessage user (finalMessage message r)])]).
    rewrite <- app_assoc. reflexivity.
  - destruct (quiet_callAI v host userText includeContext st) as (_&_&Hh&_).
    now rewrite Hh in Hch.
  - destruct (settleTurn_shape outcome st) as (st'&Es&Sv&_&Sh&Svp&_).
    unfold after in *. rewrite Es in *. cbn [snd] in *.
    rewrite Sv in Hv. rewrite Svp, Hv, Sh. eexists. reflexivity.
  - unfold _handleSendCurrentFile, notice in *.
    destruct (activeTextEditor host); now apply push_post_told.
  - unfold _handleSendSelection, notice in *.
    destruct (activeTextEditor host); [destruct (negb _)|]; now apply push_post_told.
  - unfold _handleSendWorkspaceInfo, notice in *.
    destruct (firstFolder host); [destruct (workspaceStructure _ _ _)|];
      now apply push_post_told.
  - unfold _showPreviewAndApply in *.
    destruct choice as [[| |]|];
      try (exfalso; apply Hch; unfold _showDiff;
           match goal with
           | |- _messageHistory (after ?m st) = _ =>
               assert (Hq : quiet m) by quiet_tac;
               destruct (Hq st) as (_&_&Hh&_); now rewrite Hh
           end).
    destruct (handleEditFile_returns host filePath newContent st)
      as (reply&st1&E&_&_).
    unfold after in *. rewrite (bind_ok _ _ _ _ _ E) in *.
    now apply push_post_told.
  - unfold _handleApplyInline, notice in *.
    destruct (activeTextEditor host) as [editor|]; [|now apply push_post_told].
    match goal with
    | |- context [let '(_, _) := ?p in _] => destruct p as [range oldText]
    end.
    unfold after, bind, modify, push, _postMessageHistory in *.
    destruct st as [[|] ? ? ? ? ? ? ? ? ?]; cbn in *; [|discriminate].
    eexists. reflexivity.
  - destruct (quiet_handleAddFileToContext host filePath st) as (_&_&Hh&_).
    now rewrite Hh in Hch.
  - exfalso. apply Hch. unfold after, _postMessageHistory, modify. cbn [snd].
    now destruct st as [[|] ? ? ? ? ? ? ? ? ?].
  - exfalso. apply Hch. unfold after, _postMessageHistoryToPanel, modify. cbn [snd].
    now destruct st as [? [|] ? ? ? ? ? ? ? ?].
  - unfold resolveWebviewView, after, bind, modify, push, _postMessageHistory, ret in *.
    destruct v; cbn in *; [|now exfalso]. eexists. reflexivity.
  - exfalso. apply Hch.
    unfold openChatPanel, after, bind, gets, modify, _postMessageHistoryToPanel, ret.
    destruct st as [? [|] ? ? ? ? ? ? ? ?]; reflexivity.
  - exfalso. apply Hch. reflexivity.
  - now apply push_post_told.
  - now exfalso.
Qed.

(** [sendCurrentFile] with demo.ts open and the side panel live. *)
Lemma side_panel_is_told_every_change_witness :
  let st' := after (_handleSendCurrentFile
                      (Demo.host (Some Demo.editor) [] (Demo.reply JNull)))
                   Demo.bothLive in
  exists earlier, viewPosted st' = earlier ++ [history (_messageHistory st')].
Proof.
  cbv zeta.
  apply (side_panel_is_told_every_change Loja Demo.bothLive).
  - apply step_sendCurrentFile.
  - reflexivity.
  - vm_compute. discriminate.
Defined.
